(** * esports-cli: snapshot cache, freshness policy and match filters

    A shallow embedding of the two TypeScript entry points of the
    repository:

    - the reduced entry point [src/main.ts] (module [Reduced]): a snapshot
      file that holds the bare payload, one filter, a three-entry menu;
    - the extended entry point, the second [main.ts] of the sources
      (module [Rich]): a snapshot file that holds [{lastFetched, data}],
      [fetchIfNeeded], four filters, a seven-entry menu.

    Conventions of the embedding.
    - Strings are [string], a character of Basic Latin being the byte of
      its code. [String.prototype.toLowerCase] is a service of the runtime
      (class [CaseMapping]): known of it is what it does to Basic Latin,
      nothing about other characters.
    - Instants are [Z] milliseconds since the epoch ([Date.getTime]);
      the arithmetic of [number] is exact (rational): IEEE rounding is not
      modelled.
    - A decoded JSON document is a [json] value with integer numbers; a file
      is identified with what [JSON.parse] makes of its text.
    - The file system is a finite map from path to file, and accepts every
      write; directories are not modelled beyond the [mkdir] event.
    - Console output, prompts, directory creations, file writes and
      network calls are recorded, in order, in a trace of [event]s.
    - The answers of the user are given per cycle of the main menu, so
      that the menu recurses on the list of cycles. *)

From stdpp Require Import gmap strings list fin_maps pretty.
From Stdlib Require Import ZArith QArith Qround Lqa Ascii String.

#[local] Set Warnings "-register-all".
#[local] Open Scope string_scope.

(** ** Strings of the runtime *)

Module JsString.

Definition is_upper (c : ascii) : bool :=
  let n := N_of_ascii c in (65 <=? n)%N && (n <=? 90)%N.

(** The lower-case form of a letter of Basic Latin; every other character
    is kept. *)
Definition lower_char (c : ascii) : ascii :=
  if is_upper c then ascii_of_N (N_of_ascii c + 32) else c.

(** The letters A to Z of a string lowered, everything else kept. *)
Fixpoint ascii_lower (s : string) : string :=
  match s with
  | EmptyString => EmptyString
  | String c s' => String (lower_char c) (ascii_lower s')
  end.

(** The characters of Basic Latin (U+0000 to U+007F), and the strings made
    of them. *)
Definition is_ascii_char (c : ascii) : bool := (N_of_ascii c <? 128)%N.

Fixpoint is_ascii (s : string) : bool :=
  match s with
  | EmptyString => true
  | String c s' => is_ascii_char c && is_ascii s'
  end.

(** [String.prototype.toLowerCase]: the lower-case mapping of the Unicode
    character database, which the program calls and does not define. Two
    facts about it are used. It lowers the letters A to Z whatever stands
    around them, so that lowering them beforehand changes nothing; and a
    string of Basic Latin is mapped to the string with its letters
    lowered. What it does to other characters (accents, the final sigma,
    characters whose lower-case form is longer) is left open. *)
Class CaseMapping := {
  toLowerCase : string -> string;
  toLowerCase_ascii_lower : forall s, toLowerCase (ascii_lower s) = toLowerCase s;
  toLowerCase_ascii : forall s, is_ascii s = true -> toLowerCase s = ascii_lower s
}.

(** The mapping that knows Basic Latin only. *)
Definition BasicLatin : CaseMapping.
Proof.
  refine {| toLowerCase := ascii_lower |}.
  - intros s. induction s as [|c s IH]; [reflexivity|].
    cbn [ascii_lower]. rewrite IH. f_equal.
    destruct c as [[] [] [] [] [] [] [] []]; reflexivity.
  - reflexivity.
Defined.

(** [includes s t] is [s.includes(t)]: [t] occurs in [s] as a contiguous
    substring. *)
Fixpoint includes (s t : string) : bool :=
  String.prefix t s ||
  match s with
  | EmptyString => false
  | String _ s' => includes s' t
  end.

(** [a === b] on strings. *)
Definition strict_eq (a b : string) : bool := String.eqb a b.

(** A mapping that knows the Latin-1 Supplement as well, on strings in
    UTF-8: after the lead byte 195 the second bytes 128 to 158, 151 (the
    multiplication sign) apart, are the upper-case letters from A with
    grave to thorn, each 32 below its lower-case form. *)
Definition is_upper_latin1 (c : ascii) : bool :=
  let n := N_of_ascii c in (128 <=? n)%N && (n <=? 158)%N && negb (n =? 151)%N.

Fixpoint latin1_lower (s : string) : string :=
  match s with
  | EmptyString => EmptyString
  | String c s' =>
      String (lower_char c)
        match s' with
        | String d s'' =>
            if (N_of_ascii c =? 195)%N && is_upper_latin1 d
            then String (ascii_of_N (N_of_ascii d + 32)) (latin1_lower s'')
            else latin1_lower s'
        | EmptyString => EmptyString
        end
  end.

Definition Latin1 : CaseMapping.
Proof.
  refine {| toLowerCase := latin1_lower |}.
  - assert (F1 : forall c, lower_char (lower_char c) = lower_char c)
      by (intros [[] [] [] [] [] [] [] []]; reflexivity).
    assert (F2 : forall c, (N_of_ascii (lower_char c) =? 195)%N
                           = (N_of_ascii c =? 195)%N)
      by (intros [[] [] [] [] [] [] [] []]; reflexivity).
    assert (F3 : forall d, is_upper_latin1 (lower_char d) = is_upper_latin1 d)
      by (intros [[] [] [] [] [] [] [] []]; reflexivity).
    assert (F4 : forall d, is_upper_latin1 d = true -> lower_char d = d)
      by (intros [[] [] [] [] [] [] [] []] U; solve [reflexivity | discriminate U]).
    assert (Q : forall n s, (String.length s <= n)%nat ->
                  latin1_lower (ascii_lower s) = latin1_lower s).
    { induction n as [|n IH]; intros [|c [|d s]] Len; cbn [String.length] in Len;
        try reflexivity; try (exfalso; lia).
      - cbn [ascii_lower latin1_lower]. now rewrite F1.
      - change (ascii_lower (String c (String d s)))
          with (String (lower_char c) (ascii_lower (String d s))).
        change (latin1_lower (String c (String d s)))
          with (String (lower_char c)
                  (if (N_of_ascii c =? 195)%N && is_upper_latin1 d
                   then String (ascii_of_N (N_of_ascii d + 32)) (latin1_lower s)
                   else latin1_lower (String d s))).
        change (latin1_lower (String (lower_char c) (ascii_lower (String d s))))
          with (String (lower_char (lower_char c))
                  (if (N_of_ascii (lower_char c) =? 195)%N
                      && is_upper_latin1 (lower_char d)
                   then String (ascii_of_N (N_of_ascii (lower_char d) + 32))
                          (latin1_lower (ascii_lower s))
                   else latin1_lower (ascii_lower (String d s)))).
        rewrite F1, F2, F3.
        destruct ((N_of_ascii c =? 195)%N && is_upper_latin1 d) eqn:C.
        + apply andb_prop in C as [_ U]. rewrite (F4 d U).
          rewrite (IH s) by lia. reflexivity.
        + rewrite (IH (String d s)) by (cbn [String.length]; lia). reflexivity. }
    intros s. now apply (Q (String.length s)).
  - intros s. induction s as [|c s IH]; [reflexivity|].
    cbn [is_ascii]. intros [Hc Hs]%andb_prop. specialize (IH Hs).
    destruct s as [|d s]; [reflexivity|].
    change (latin1_lower (String c (String d s)))
      with (String (lower_char c)
              (if (N_of_ascii c =? 195)%N && is_upper_latin1 d
               then String (ascii_of_N (N_of_ascii d + 32)) (latin1_lower s)
               else latin1_lower (String d s))).
    assert (N : (N_of_ascii c =? 195)%N = false).
    { unfold is_ascii_char in Hc. apply N.ltb_lt in Hc. apply N.eqb_neq. lia. }
    rewrite N. cbn [andb]. now rewrite IH.
Defined.

(** Letter by letter: two characters are the same letter of Basic Latin
    when they are equal or when one is an upper-case letter of Basic Latin
    and the other its lower-case form. *)
Definition same_letter (c d : ascii) : bool :=
  Ascii.eqb c d
  || (is_upper c && (N_of_ascii d =? N_of_ascii c + 32)%N)
  || (is_upper d && (N_of_ascii c =? N_of_ascii d + 32)%N).

(** Equality ignoring the case of the letters A to Z: same length, and
    the same letter at every position. *)
Fixpoint eq_ignoring_case (a b : string) : bool :=
  match a, b with
  | EmptyString, EmptyString => true
  | String c a', String d b' => same_letter c d && eq_ignoring_case a' b'
  | _, _ => false
  end.

(** [t] is a substring of [s]. *)
Definition substring_of (t s : string) : Prop :=
  exists pre post, s = pre ++ t ++ post.

(** The words of the specification: [a] and [b] are equal ignoring case
    when their lower-case forms are the same string. *)
Definition equal_ignoring_case `{CaseMapping} (a b : string) : Prop :=
  toLowerCase a = toLowerCase b.

#[export] Instance equal_ignoring_case_dec `{CaseMapping} (a b : string)
  : Decision (equal_ignoring_case a b) :=
  decide (toLowerCase a = toLowerCase b).

End JsString.

Import JsString.

(** ** Data model *)

(** The objects [{ name: string }] nested in a match. *)
Record Named := { name : string }.

Record Opponent := {
  opp_id : Z;
  opp_name : string;
  acronym : option string;
  location : option string
}.

(** [interface Match]; its own [id] and [name] fields carry the prefix
    [match_]. *)
Record Match := {
  match_id : Z;
  match_name : string;
  scheduled_at : string;
  status : string;
  videogame : Named;
  league : Named;
  tournament : Named;
  opponents : list Opponent
}.

(** [m] with its game name replaced. *)
Definition with_game (g : string) (m : Match) : Match :=
  {| match_id := match_id m; match_name := match_name m;
     scheduled_at := scheduled_at m; status := status m;
     videogame := {| name := g |}; league := league m;
     tournament := tournament m; opponents := opponents m |}.

(** [m] with its name, or its status, replaced. *)
Definition named (n : string) (m : Match) : Match :=
  {| match_id := match_id m; match_name := n;
     scheduled_at := scheduled_at m; status := status m;
     videogame := videogame m; league := league m;
     tournament := tournament m; opponents := opponents m |}.

Definition in_state (st : string) (m : Match) : Match :=
  {| match_id := match_id m; match_name := match_name m;
     scheduled_at := scheduled_at m; status := st;
     videogame := videogame m; league := league m;
     tournament := tournament m; opponents := opponents m |}.

(** ** The filter pipeline *)

Section Filters.
Context `{CaseMapping}.

Definition filterByGame (matches : list Match) (game : string) : list Match :=
  List.filter
    (fun m => strict_eq (toLowerCase (name (videogame m))) (toLowerCase game))
    matches.

Definition filterByLeague (matches : list Match) (league_q : string) : list Match :=
  List.filter
    (fun m => includes (toLowerCase (name (league m))) (toLowerCase league_q))
    matches.

Definition filterLiveMatches (matches : list Match) : list Match :=
  List.filter (fun m => strict_eq (status m) "live") matches.

Definition searchMatches (matches : list Match) (query : string) : list Match :=
  List.filter
    (fun m => includes (toLowerCase (match_name m)) (toLowerCase query))
    matches.

End Filters.

(** *** Arrays as objects of the heap

    [Array.prototype.filter] allocates a new array object and leaves the
    receiver as it is.  Arrays live in a heap indexed by reference; the
    match objects they hold are shared and never written. *)

Module Arr.

Definition ref := positive.
Abbreviation heap := (gmap ref (list Match)).

Definition alloc (h : heap) (a : list Match) : heap * ref :=
  let r := fresh (dom h) in (<[r := a]> h, r).

(** [arr.filter(p)] for a callback [p] that only reads its argument;
    [None] when [r] is not an array of the heap. *)
Definition Array_filter (p : Match -> bool) (h : heap) (r : ref)
  : option (heap * ref) :=
  match h !! r with
  | Some a => Some (alloc h (List.filter p a))
  | None => None
  end.

Section Filters.
Context `{CaseMapping}.

Definition filterByGame (h : heap) (matches : ref) (game : string) :=
  Array_filter
    (fun m => strict_eq (toLowerCase (name (videogame m))) (toLowerCase game))
    h matches.

Definition filterByLeague (h : heap) (matches : ref) (league_q : string) :=
  Array_filter
    (fun m => includes (toLowerCase (name (league m))) (toLowerCase league_q))
    h matches.

Definition filterLiveMatches (h : heap) (matches : ref) :=
  Array_filter (fun m => strict_eq (status m) "live") h matches.

Definition searchMatches (h : heap) (matches : ref) (query : string) :=
  Array_filter
    (fun m => includes (toLowerCase (match_name m)) (toLowerCase query))
    h matches.

End Filters.

(** What a filter call does to the heap: it returns a reference that was
    not in use, bound to [out]; every array that existed is as it was. *)
Definition fresh_result (h : heap) (res : option (heap * ref))
    (out : list Match) : Prop :=
  exists h' r',
    res = Some (h', r')
    /\ (r' ∉ dom h)
    /\ h' !! r' = Some out
    /\ forall k, k ∈ dom h -> h' !! k = h !! k.

End Arr.

(** ** Decoded JSON *)

Inductive json : Type :=
  | JNull
  | JBool (b : bool)
  | JNum (n : Z)
  | JStr (s : string)
  | JArr (items : list json)
  | JObj (fields : gmap string json).

(** A value of the runtime that may be [undefined] ([None]). *)
Abbreviation jsval := (option json).

(** [v.k] for a value [v] that is neither [null] nor [undefined] and a
    property name [k] that is not an index. *)
Definition prop (k : string) (v : json) : jsval :=
  match v with
  | JObj o => o !! k
  | JArr l => if String.eqb k "length" then Some (JNum (Z.of_nat (List.length l))) else None
  | JStr s => if String.eqb k "length" then Some (JNum (Z.of_nat (String.length s))) else None
  | _ => None
  end.

(** [!v]: the falsy values are [undefined], [null], [false], [0], [""]. *)
Definition falsy (v : jsval) : bool :=
  match v with
  | None | Some JNull | Some (JBool false) | Some (JNum 0) | Some (JStr "") => true
  | _ => false
  end.

(** [v.length === 0] for a value [v] that is neither [null] nor [undefined]. *)
Definition length_is_zero (v : json) : bool :=
  match prop "length" v with
  | Some (JNum 0) => true
  | _ => false
  end.

(** The unchecked cast of a decoded payload to [Match[]], made explicit. *)
Module Decode.

Definition as_string (v : json) : option string :=
  match v with JStr s => Some s | _ => None end.

Definition as_number (v : json) : option Z :=
  match v with JNum n => Some n | _ => None end.

Definition as_named (v : json) : option Named :=
  s ← prop "name" v ≫= as_string; Some {| name := s |}.

Definition as_opponent (v : json) : option Opponent :=
  o ← prop "opponent" v;
  i ← prop "id" o ≫= as_number;
  n ← prop "name" o ≫= as_string;
  Some {| opp_id := i; opp_name := n;
          acronym := prop "acronym" o ≫= as_string;
          location := prop "location" o ≫= as_string |}.

Definition as_match (v : json) : option Match :=
  i ← prop "id" v ≫= as_number;
  n ← prop "name" v ≫= as_string;
  sch ← prop "scheduled_at" v ≫= as_string;
  st ← prop "status" v ≫= as_string;
  g ← prop "videogame" v ≫= as_named;
  lg ← prop "league" v ≫= as_named;
  tn ← prop "tournament" v ≫= as_named;
  ops ← match prop "opponents" v with
        | Some (JArr l) => mapM as_opponent l
        | _ => None
        end;
  Some {| match_id := i; match_name := n; scheduled_at := sch; status := st;
          videogame := g; league := lg; tournament := tn; opponents := ops |}.

Definition as_matches (v : json) : option (list Match) :=
  match v with
  | JArr l => mapM as_match l
  | _ => None
  end.

Definition of_named (n : Named) : json := JObj {[ "name" := JStr (name n) ]}.

Definition of_optional (k : string) (o : option string) (m : gmap string json)
  : gmap string json :=
  match o with Some s => <[k := JStr s]> m | None => m end.

Definition of_opponent (o : Opponent) : json :=
  JObj {[ "opponent" :=
    JObj (of_optional "acronym" (acronym o)
           (of_optional "location" (location o)
             {[ "id" := JNum (opp_id o); "name" := JStr (opp_name o) ]})) ]}.

Definition of_match (m : Match) : json :=
  JObj {[ "id" := JNum (match_id m);
          "name" := JStr (match_name m);
          "scheduled_at" := JStr (scheduled_at m);
          "status" := JStr (status m);
          "videogame" := of_named (videogame m);
          "league" := of_named (league m);
          "tournament" := of_named (tournament m);
          "opponents" := JArr (of_opponent <$> opponents m) ]}.

Definition of_matches (ms : list Match) : json := JArr (of_match <$> ms).

End Decode.

(** ** The world around the program *)

(** A file of the store: text that [JSON.parse] decodes to [j], or text it
    rejects. *)
Inductive file : Type :=
  | Doc (j : json)
  | Garbled (text : string).

(** An HTTP response; [body] is [None] when the body is not JSON. *)
Record Response := {
  status_code : Z;
  statusText : string;
  body : option json
}.

(** [response.ok]: the status is in the range 200-299. *)
Definition ok (r : Response) : bool :=
  (200 <=? status_code r)%Z && (status_code r <=? 299)%Z.

(** What a request meets: a response, or a transport failure that makes
    [fetch] reject. *)
Inductive reply : Type :=
  | Answer (r : Response)
  | Unreachable (reason : string).

Inductive error : Type :=
  | SyntaxError
  | TypeError
  | NetworkError (reason : string)
  | NotFound (path : string).

Inductive event : Type :=
  | EvMkdir (dir : string)
  | EvWrite (path : string) (content : file)
  | EvFetch (url : string) (authorization : string)
  | EvPrompt (message : string) (options : list string)
  | EvLog (msg : string)
  | EvError (msg : string).

(** How an awaited promise ends: fulfilled, rejected, or never settled
    (a prompt that the user leaves unanswered). *)
Inductive outcome (A : Type) : Type :=
  | Return (a : A)
  | Throw (e : error)
  | Pending.

Arguments Return {A} a.
Arguments Throw {A} e.
Arguments Pending {A}.

(** Services of the runtime and of the standard library that the code
    calls and does not define. [Date_getTime v] is
    [new Date(v).getTime()], [None] standing for [NaN];
    [toLocaleString] renders a [Date] given its time value; [casing] is
    the case mapping of its strings. *)
Class Runtime := {
  casing :: CaseMapping;
  toISOString : Z -> string;
  Date_getTime : jsval -> option Z;
  toLocaleString : option Z -> string;
  dirname : string -> string
}.

(** What the outside will answer: the credential of the configuration,
    the successive readings of the clock, the reply to the n-th request. *)
Record Env := {
  API_TOKEN : string;
  clock : nat -> Z;
  network : nat -> string -> reply
}.

(** The store, the number of clock readings and of requests made so far,
    and the effects so far, oldest first. *)
Record State := {
  fs : gmap string file;
  ticks : nat;
  calls : nat;
  trace : list event
}.

Definition set_fs (f : gmap string file) (s : State) : State :=
  {| fs := f; ticks := ticks s; calls := calls s; trace := trace s |}.
Definition set_ticks (n : nat) (s : State) : State :=
  {| fs := fs s; ticks := n; calls := calls s; trace := trace s |}.
Definition set_calls (n : nat) (s : State) : State :=
  {| fs := fs s; ticks := ticks s; calls := n; trace := trace s |}.
Definition record (e : event) (s : State) : State :=
  {| fs := fs s; ticks := ticks s; calls := calls s; trace := trace s ++ [e] |}.

(** What the user answers during one cycle of the main menu: the entry
    chosen in the menu, the text typed at the free-text prompt and the
    entry chosen in the match list, each of the last two only read if the
    cycle asks for it; [None] when the user never answers. *)
Record Turn := {
  action : string;
  typed : option string;
  picked : option string
}.

(** The clock never runs backwards. *)
Definition clock_monotone (E : Env) : Prop :=
  forall i j, (i <= j)%nat -> (clock E i <= clock E j)%Z.

(** Observations on a trace. *)
Definition is_fetch (e : event) : bool :=
  match e with EvFetch _ _ => true | _ => false end.
Definition is_write (e : event) : bool :=
  match e with EvWrite _ _ => true | _ => false end.
Definition fetches (t : list event) : list event := List.filter is_fetch t.
Definition writes (t : list event) : list event := List.filter is_write t.

(** ** Asynchronous computations *)

Definition Async (A : Type) : Type := Env -> State -> outcome A * State.

Definition async_ret {A} (a : A) : Async A := fun _ s => (Return a, s).

Definition async_bind {A B} (k : A -> Async B) (m : Async A) : Async B :=
  fun E s =>
    match m E s with
    | (Return a, s') => k a E s'
    | (Throw e, s') => (Throw e, s')
    | (Pending, s') => (Pending, s')
    end.

#[export] Instance Async_ret : MRet Async := @async_ret.
#[export] Instance Async_bind : MBind Async := @async_bind.

Definition throw {A} (e : error) : Async A := fun _ s => (Throw e, s).

Definition emit (e : event) : Async unit := fun _ s => (Return tt, record e s).
Definition console_log (msg : string) : Async unit := emit (EvLog msg).
Definition console_error (msg : string) : Async unit := emit (EvError msg).

(** [process.env]-style configuration. *)
Definition api_token : Async string := fun E s => (Return (API_TOKEN E), s).

(** [new Date()]: the next reading of the clock. *)
Definition new_Date : Async Z :=
  fun E s => (Return (clock E (ticks s)), set_ticks (S (ticks s)) s).

Definition exists_ (path : string) : Async bool :=
  fun _ s => (Return (bool_decide (is_Some (fs s !! path))), s).

Definition readTextFile (path : string) : Async file :=
  fun _ s =>
    match fs s !! path with
    | Some f => (Return f, s)
    | None => (Throw (NotFound path), s)
    end.

Definition writeTextFile (path : string) (content : file) : Async unit :=
  fun _ s => (Return tt, record (EvWrite path content) (set_fs (<[path := content]> (fs s)) s)).

(** [Deno.mkdir(dir, { recursive: true })]. *)
Definition mkdir (dir : string) : Async unit := emit (EvMkdir dir).

Definition JSON_parse (f : file) : Async json :=
  match f with
  | Doc j => mret j
  | Garbled _ => throw SyntaxError
  end.

(** [fetch(url, {headers: {Authorization}})]: one request, numbered by
    [calls]; a transport failure rejects. *)
Definition fetch (url authorization : string) : Async Response :=
  fun E s =>
    let s' := record (EvFetch url authorization) (set_calls (S (calls s)) s) in
    match network E (calls s) url with
    | Answer r => (Return r, s')
    | Unreachable why => (Throw (NetworkError why), s')
    end.

Definition response_json (r : Response) : Async json :=
  match body r with
  | Some j => mret j
  | None => throw SyntaxError
  end.

(** [Select.prompt] and [Input.prompt]: the prompt is shown, then the
    answer of the user is awaited. *)
Definition prompt (message : string) (options : list string)
    (answer : option string) : Async string :=
  fun _ s =>
    match answer with
    | Some a => (Return a, record (EvPrompt message options) s)
    | None => (Pending, record (EvPrompt message options) s)
    end.

(** [s.replace(pat, rep)] with a string pattern: the first occurrence only. *)
Fixpoint replace (s pat rep : string) : string :=
  if String.prefix pat s
  then rep +:+ String.substring (String.length pat) (String.length s - String.length pat) s
  else match s with
       | EmptyString => EmptyString
       | String c s' => String c (replace s' pat rep)
       end.

(** [x < y] on numbers. *)
Definition Qltb (x y : Q) : bool := negb (Qle_bool y x).

Definition nl : string := String "010"%char EmptyString.

Definition BASE_URL : string := "https://api.pandascore.co".

(** The path of the snapshot of an endpoint, as both entry points and
    [fetchIfNeeded] compute it. *)
Definition snapshotFile (endpoint : string) : string :=
  "snapshot_" +:+ replace endpoint "/" "_" +:+ ".json".

(** ** Rendering shared by the two entry points *)

Section Display.
Context `{Runtime}.

Definition ensureDirectoryExists (filePath : string) : Async unit :=
  mkdir (dirname filePath).

(** One line of the team list; an absent or empty optional field prints
    nothing. *)
Definition team_line (index : nat) (team : Opponent) : string :=
  pretty (Z.of_nat index + 1)%Z +:+ ". " +:+ opp_name team +:+ " " +:+
  match acronym team with
  | Some a => if String.eqb a "" then "" else "(" +:+ a +:+ ")"
  | None => ""
  end +:+ " " +:+
  match location team with
  | Some l => if String.eqb l "" then "" else "- " +:+ l
  | None => ""
  end.

Definition displayMatchDetails (m : Match) : Async unit :=
  console_log (nl +:+ "Match: " +:+ match_name m);;
  console_log ("Game: " +:+ name (videogame m));;
  console_log ("League: " +:+ name (league m));;
  console_log ("Tournament: " +:+ name (tournament m));;
  console_log ("Scheduled At: " +:+
               toLocaleString (Date_getTime (Some (JStr (scheduled_at m)))));;
  console_log (nl +:+ "Teams:");;
  foldl (fun acc line => acc;; console_log line) (mret tt)
        (imap team_line (opponents m)).

Definition match_option (m : Match) : string * string :=
  (match_name m +:+ " (" +:+
     toLocaleString (Date_getTime (Some (JStr (scheduled_at m)))) +:+ ")",
   pretty (match_id m)).

Definition matchListMenu (matches : list Match) (answer : option string)
  : Async unit :=
  let options := match_option <$> matches in
  selectedId ← prompt "Select a match to view details:"
                 ((fst <$> options) ++ ["Go Back"]) answer;
  if String.eqb selectedId "go_back" then mret tt
  else
    match List.find (fun m => String.eqb (pretty (match_id m)) selectedId) matches with
    | Some selectedMatch => displayMatchDetails selectedMatch;; console_log nl
    | None => mret tt
    end.

(** A payload used as [Match[]]: a payload that is not one is outside
    what the types describe, and the model rejects it where the code
    first uses it as matches. *)
Definition as_Match_array (v : json) : Async (list Match) :=
  match Decode.as_matches v with
  | Some ms => mret ms
  | None => throw TypeError
  end.

End Display.

Definition dq : string := String "034"%char EmptyString.

Definition upcoming : string := "/matches/upcoming".

(** ** The extended entry point *)

Module Rich.
Section WithRuntime.
Context `{Runtime}.

(** What [fetchEsportsData] and [fetchIfNeeded] resolve to when they do
    not resolve to [null]. *)
Record Snapshot := { lastFetched : jsval; data : jsval }.

(** The object [{ lastFetched, data }] that [saveSnapshot] serializes. *)
Definition envelope (t : Z) (payload : json) : json :=
  JObj {[ "lastFetched" := JStr (toISOString t); "data" := payload ]}.

Definition saveSnapshot (payload : json) (filename : string) : Async unit :=
  t ← new_Date;
  let snapshot := envelope t payload in
  ensureDirectoryExists filename;;
  writeTextFile filename (Doc snapshot);;
  console_log ("Snapshot saved to " +:+ filename).

(** [const { lastFetched, data } = JSON.parse(snapshot)]: destructuring
    [null] throws, any other value yields its two properties. *)
Definition destructure (j : json) : Async Snapshot :=
  match j with
  | JNull => throw TypeError
  | _ => mret {| lastFetched := prop "lastFetched" j; data := prop "data" j |}
  end.

Definition readSnapshot (snapshotFile : string) : Async Snapshot :=
  snapshot ← readTextFile snapshotFile;
  j ← JSON_parse snapshot;
  destructure j.

Definition fetchEsportsData (endpoint : string) (useSnapshot : bool)
  : Async (option Snapshot) :=
  let snapshotFile := snapshotFile endpoint in
  cached ← (if useSnapshot then exists_ snapshotFile else mret false);
  if cached : bool then
    snap ← readSnapshot snapshotFile;
    mret (Some snap)
  else
    console_log "Fetching data from API...";;
    token ← api_token;
    response ← fetch (BASE_URL +:+ endpoint) ("Bearer " +:+ token);
    if negb (ok response) then
      console_error ("Error: " +:+ pretty (status_code response) +:+ " " +:+
                     statusText response);;
      mret None
    else
      payload ← response_json response;
      saveSnapshot payload snapshotFile;;
      t ← new_Date;
      mret (Some {| lastFetched := Some (JStr (toISOString t));
                    data := Some payload |}).

(** [(now - last) / 60000]. *)
Definition elapsedMinutes (now last : Z) : Q := (now - last) # 60000.

Definition fetchIfNeeded (endpoint : string) (cooldownMinutes : Q)
  : Async (option Snapshot) :=
  let snapshotFile := snapshotFile endpoint in
  present ← exists_ snapshotFile;
  recent ← (if present : bool then
              snap ← readSnapshot snapshotFile;
              now ← new_Date;
              match Date_getTime (lastFetched snap) with
              | Some last =>
                  let elapsed := elapsedMinutes now last in
                  if Qltb elapsed cooldownMinutes then
                    console_log ("Data is recent (" +:+ pretty (Qfloor elapsed) +:+
                                 " minutes ago).");;
                    mret (Some snap)
                  else mret None
              | None => mret None (* the elapsed time is NaN, the test false *)
              end
            else mret None);
  match recent with
  | Some snap => mret (Some snap)
  | None => fetchEsportsData endpoint false
  end.

Definition timeSince (lastFetched : jsval) : Async string :=
  now ← new_Date;
  mret (match Date_getTime lastFetched with
        | Some last =>
            let diffMs := (now - last)%Z in
            pretty (diffMs / 3600000)%Z +:+ "hr" +:+
            pretty (Z.rem diffMs 3600000 / 60000)%Z +:+ "m"
        | None => "NaNhrNaNm"
        end).

Definition menu : list string :=
  [ "Fetch New Data"; "Filter by Game"; "Filter by League";
    "View Live Matches"; "Search Matches"; "View All Matches"; "Exit" ].

(** Show the filtered list, or the message when it is empty. *)
Definition show (filtered : list Match) (empty_msg : string)
    (answer : option string) : Async unit :=
  if (0 <? List.length filtered)%nat then matchListMenu filtered answer
  else console_log empty_msg.

(** The [switch] of the main menu; [true] when control reaches the
    recursive call after it, [false] for the [return] of [Exit]. *)
Definition dispatch (turn : Turn) (act : string) (payload : json) : Async bool :=
  if String.eqb act "Fetch New Data" then
    let cooldownMinutes := 10%Q in
    console_log "Checking if data fetch is needed...";;
    newResponse ← fetchIfNeeded upcoming cooldownMinutes;
    match newResponse with
    | Some _ => console_log "New data fetched and snapshot updated."
    | None => console_log "Cooldown active. Data fetch skipped."
    end;;
    mret true
  else if String.eqb act "Filter by Game" then
    game ← prompt "Enter the game name (e.g., Counter-Strike):" [] (typed turn);
    matches ← as_Match_array payload;
    show (filterByGame matches game)
         (nl +:+ "No matches found for " +:+ dq +:+ game +:+ dq +:+ ".")
         (picked turn);;
    mret true
  else if String.eqb act "Filter by League" then
    league_q ← prompt "Enter the league name:" [] (typed turn);
    matches ← as_Match_array payload;
    show (filterByLeague matches league_q)
         (nl +:+ "No matches found for league " +:+ dq +:+ league_q +:+ dq +:+ ".")
         (picked turn);;
    mret true
  else if String.eqb act "Search Matches" then
    query ← prompt "Enter part of the match name:" [] (typed turn);
    matches ← as_Match_array payload;
    show (searchMatches matches query)
         (nl +:+ "No matches found for " +:+ dq +:+ query +:+ dq +:+ ".")
         (picked turn);;
    mret true
  else if String.eqb act "View Live Matches" then
    matches ← as_Match_array payload;
    show (filterLiveMatches matches)
         (nl +:+ "No live matches currently available.")
         (picked turn);;
    mret true
  else if String.eqb act "View All Matches" then
    matches ← as_Match_array payload;
    matchListMenu matches (picked turn);;
    mret true
  else if String.eqb act "Exit" then
    console_log "Goodbye!";;
    mret false
  else mret true.

(** The data of a cycle, as the session acquires it. *)
Definition acquire : Async (option Snapshot) := fetchEsportsData upcoming true.

(** [!response || !response.data || response.data.length === 0]. *)
Definition no_matches (response : option Snapshot) : bool :=
  match response with
  | None => true
  | Some r =>
      match data r with
      | Some v => falsy (Some v) || length_is_zero v
      | None => true
      end
  end.

(** The body of [mainMenu], given the answers of the user for this call
    ([None] when the menu prompt is never answered) and what the
    recursive call at its end does. *)
Definition cycle (turn : option Turn) (again : Async unit) : Async unit :=
  response ← acquire;
  if no_matches response then console_log "No matches found."
  else
    match response with
    | Some {| lastFetched := lastFetched; data := Some payload |} =>
        elapsedTime ← timeSince lastFetched;
        console_log (nl +:+ "Last Fetch: " +:+
                     toLocaleString (Date_getTime lastFetched) +:+
                     " (" +:+ elapsedTime +:+ " ago)");;
        act ← prompt "Select an action:" menu (action <$> turn);
        match turn with
        | Some turn =>
            continue ← dispatch turn act payload;
            if continue : bool then again else mret tt
        | None => mret tt
        end
    | _ => mret tt
    end.

(** One call of [mainMenu] per turn of the user. *)
Fixpoint mainMenu (user : list Turn) : Async unit :=
  match user with
  | [] => cycle None (mret tt)
  | turn :: rest => cycle (Some turn) (mainMenu rest)
  end.

Definition main (user : list Turn) : Async unit := mainMenu user.

End WithRuntime.
End Rich.

(** ** The reduced entry point, [src/main.ts] *)

Module Reduced.
Section WithRuntime.
Context `{Runtime}.

Definition saveSnapshot (payload : json) (filename : string) : Async unit :=
  ensureDirectoryExists filename;;
  writeTextFile filename (Doc payload);;
  console_log ("Snapshot saved to " +:+ filename).

(** Resolves to the payload, or to [null] after a response that is not
    [ok]. *)
Definition fetchEsportsData (endpoint : string) (useSnapshot : bool)
  : Async json :=
  let snapshotFile := snapshotFile endpoint in
  cached ← (if useSnapshot then exists_ snapshotFile else mret false);
  if cached : bool then
    console_log ("Using snapshot: " +:+ snapshotFile);;
    snapshot ← readTextFile snapshotFile;
    JSON_parse snapshot
  else
    console_log "Fetching data from API...";;
    token ← api_token;
    response ← fetch (BASE_URL +:+ endpoint) ("Bearer " +:+ token);
    if negb (ok response) then
      console_error ("Error: " +:+ pretty (status_code response) +:+ " " +:+
                     statusText response);;
      mret JNull
    else
      payload ← response_json response;
      saveSnapshot payload snapshotFile;;
      mret payload.

Definition menu : list string :=
  [ "Filter by Game"; "View All Matches"; "Exit" ].

Definition dispatch (turn : Turn) (act : string) (payload : json) : Async bool :=
  if String.eqb act "Filter by Game" then
    game ← prompt "Enter the game name (e.g., Counter-Strike):" [] (typed turn);
    matches ← as_Match_array payload;
    let filteredMatches := filterByGame matches game in
    (if (0 <? List.length filteredMatches)%nat
     then matchListMenu filteredMatches (picked turn)
     else console_log (nl +:+ "No matches found for " +:+ dq +:+ game +:+ dq +:+ "."));;
    mret true
  else if String.eqb act "View All Matches" then
    matches ← as_Match_array payload;
    matchListMenu matches (picked turn);;
    mret true
  else if String.eqb act "Exit" then
    console_log "Goodbye!";;
    mret false
  else mret true.

Definition acquire : Async json := fetchEsportsData upcoming true.

(** [!matches || matches.length === 0]. *)
Definition no_matches (payload : json) : bool :=
  falsy (Some payload) || length_is_zero payload.

Definition cycle (turn : option Turn) (again : Async unit) : Async unit :=
  payload ← acquire;
  if no_matches payload then console_log "No matches found."
  else
    act ← prompt "Select an action:" menu (action <$> turn);
    match turn with
    | Some turn =>
        continue ← dispatch turn act payload;
        if continue : bool then again else mret tt
    | None => mret tt
    end.

Fixpoint mainMenu (user : list Turn) : Async unit :=
  match user with
  | [] => cycle None (mret tt)
  | turn :: rest => cycle (Some turn) (mainMenu rest)
  end.

Definition main (user : list Turn) : Async unit := mainMenu user.

End WithRuntime.
End Reduced.

(** ** The process *)

Inductive termination : Type :=
  | Exits (code : Z)
  | Crashes (e : error)
  | Waits.

(** The module body: the credential check, then [main()], whose promise
    nobody awaits: a rejection ends the process. *)
Definition startup (main : Async unit) (E : Env) (s : State) : termination * State :=
  if String.eqb (API_TOKEN E) "" then
    (Exits 1, record (EvError "API token is missing! Please set it in your .env file.") s)
  else
    match main E s with
    | (Return _, s') => (Exits 0, s')
    | (Throw e, s') => (Crashes e, s')
    | (Pending, s') => (Waits, s')
    end.

(** ** A runtime to run the model on

    ISO 8601 instants in the proleptic Gregorian calendar, for the years
    0000 to 9999. *)

Module SampleRuntime.

Definition digit (n : Z) : ascii := ascii_of_N (48 + Z.to_N (n mod 10)).

Fixpoint digits (width : nat) (n : Z) : string :=
  match width with
  | O => EmptyString
  | S w => digits w (n / 10) +:+ String (digit n) EmptyString
  end.

(** Year, month and day of a day number counted from 1970-01-01. *)
Definition civil_from_days (days : Z) : Z * Z * Z :=
  let z := (days + 719468)%Z in
  let era := (z / 146097)%Z in
  let doe := (z - era * 146097)%Z in
  let yoe := ((doe - doe / 1460 + doe / 36524 - doe / 146096) / 365)%Z in
  let doy := (doe - (365 * yoe + yoe / 4 - yoe / 100))%Z in
  let mp := ((5 * doy + 2) / 153)%Z in
  let d := (doy - (153 * mp + 2) / 5 + 1)%Z in
  let m := (if mp <? 10 then mp + 3 else mp - 9)%Z in
  ((if m <=? 2 then yoe + era * 400 + 1 else yoe + era * 400)%Z, m, d).

Definition days_from_civil (y m d : Z) : Z :=
  let y' := (if m <=? 2 then y - 1 else y)%Z in
  let era := (y' / 400)%Z in
  let yoe := (y' - era * 400)%Z in
  let doy := ((153 * (if m >? 2 then m - 3 else m + 9) + 2) / 5 + d - 1)%Z in
  let doe := (yoe * 365 + yoe / 4 - yoe / 100 + doy)%Z in
  (era * 146097 + doe - 719468)%Z.

Definition iso (t : Z) : string :=
  let '(y, m, d) := civil_from_days (t / 86400000) in
  let ms := (t mod 86400000)%Z in
  digits 4 y +:+ "-" +:+ digits 2 m +:+ "-" +:+ digits 2 d +:+ "T" +:+
  digits 2 (ms / 3600000) +:+ ":" +:+ digits 2 (ms / 60000 mod 60) +:+ ":" +:+
  digits 2 (ms / 1000 mod 60) +:+ "." +:+ digits 3 (ms mod 1000) +:+ "Z".

Definition digit_value (c : ascii) : option Z :=
  let n := N_of_ascii c in
  if (48 <=? n)%N && (n <=? 57)%N then Some (Z.of_N n - 48)%Z else None.

Fixpoint number (acc : Z) (s : string) : option Z :=
  match s with
  | EmptyString => Some acc
  | String c s' => v ← digit_value c; number (10 * acc + v) s'
  end.

Definition field (start len : nat) (s : string) : option Z :=
  number 0 (String.substring start len s).

Definition punctuated (s : string) : bool :=
  String.eqb (String.substring 4 1 s) "-" && String.eqb (String.substring 7 1 s) "-"
  && String.eqb (String.substring 10 1 s) "T" && String.eqb (String.substring 13 1 s) ":"
  && String.eqb (String.substring 16 1 s) ":" && String.eqb (String.substring 19 1 s) "."
  && String.eqb (String.substring 23 1 s) "Z" && (String.length s =? 24)%nat.

Definition parse_iso (s : string) : option Z :=
  if punctuated s then
    y ← field 0 4 s; m ← field 5 2 s; d ← field 8 2 s;
    hh ← field 11 2 s; mm ← field 14 2 s; ss ← field 17 2 s; ms ← field 20 3 s;
    Some (days_from_civil y m d * 86400000 + hh * 3600000 + mm * 60000 + ss * 1000 + ms)%Z
  else None.

Definition getTime (v : jsval) : option Z :=
  match v with
  | Some (JStr s) => parse_iso s
  | Some (JNum n) => Some n
  | Some JNull => Some 0%Z
  | _ => None
  end.

Definition locale (t : option Z) : string :=
  match t with Some t => iso t | None => "Invalid Date" end.

Fixpoint last_slash (s : string) (i : nat) (found : option nat) : option nat :=
  match s with
  | EmptyString => found
  | String c s' =>
      last_slash s' (S i) (if Ascii.eqb c "/"%char then Some i else found)
  end.

Definition dir (path : string) : string :=
  match last_slash path 0 None with
  | Some O => "/"
  | Some i => String.substring 0 i path
  | None => "."
  end.

Definition runtime : Runtime :=
  {| casing := BasicLatin; toISOString := iso; Date_getTime := getTime;
     toLocaleString := locale; dirname := dir |}.

End SampleRuntime.

(** ** Sample worlds *)

Module Sample.

Abbreviation RT := SampleRuntime.runtime.

Definition T0 : Z := 1700000000000.

Definition semifinal : Match :=
  {| match_id := 7; match_name := "Semifinal A";
     scheduled_at := "2023-11-15T18:00:00.000Z"; status := "live";
     videogame := {| name := "Counter-Strike" |};
     league := {| name := "ESL Pro League" |};
     tournament := {| name := "Playoffs" |};
     opponents := [ {| opp_id := 1; opp_name := "Alpha"; acronym := Some "ALP";
                       location := Some "SE" |};
                    {| opp_id := 2; opp_name := "Beta"; acronym := None;
                       location := None |} ] |}.

Definition payload : json := Decode.of_matches [semifinal].

Definition server (rp : reply) (step : Z) : Env :=
  {| API_TOKEN := "token";
     clock := fun k => (T0 + step * Z.of_nat k)%Z;
     network := fun _ _ => rp |}.

Definition ok_reply : reply :=
  Answer {| status_code := 200; statusText := "OK"; body := Some payload |}.

Definition error_reply : reply :=
  Answer {| status_code := 500; statusText := "Internal Server Error";
            body := None |}.

(** The server answers; one second passes between two readings of the
    clock. *)
Definition online : Env := server ok_reply 1000.

(** The server answers within the millisecond. *)
Definition instant : Env := server ok_reply 0.

(** The clock is set back by an hour between two readings. *)
Definition rewinding : Env := server ok_reply (-3600000).

Definition refusing : Env := server error_reply 1000.

(** The server answers with a page that is not JSON. *)
Definition garbling : Env :=
  server (Answer {| status_code := 200; statusText := "OK"; body := None |}) 1000.

(** The server answers with an empty list. *)
Definition idle : Env :=
  server (Answer {| status_code := 200; statusText := "OK";
                    body := Some (JArr []) |}) 1000.


Definition with_files (files : gmap string file) : State :=
  {| fs := files; ticks := 0; calls := 0; trace := [] |}.

Definition empty : State := with_files ∅.

(** A store whose snapshot was written at instant [t]. *)
Definition cached (t : Z) : State :=
  with_files {[ snapshotFile upcoming := Doc (Rich.envelope (H := RT) t payload) ]}.

(** The answer of the server as it comes: the objects carry fields that
    [interface Match] does not name. *)
Definition annotated (v : json) : json :=
  match v with
  | JObj fields =>
      JObj (<["slug" := JStr "semifinal-a"]>
              (<["number_of_games" := JNum 3]> fields))
  | _ => v
  end.

Definition detailed_payload : json := JArr [ annotated (Decode.of_match semifinal) ].

Definition detailed (t : Z) : State :=
  with_files {[ snapshotFile upcoming := Doc (Rich.envelope (H := RT) t detailed_payload) ]}.

Definition one_day : Z := 86400000.

Definition heap : Arr.heap := {[ 1%positive := [semifinal; with_game "Valorant" semifinal] ]}.

End Sample.

(** ** Vocabulary of the statements *)

(** [s'] differs from [s] by console output and clock readings at most:
    same store, no request made, no file written. *)
Definition offline (s s' : State) : Prop :=
  fs s' = fs s /\ calls s' = calls s
  /\ fetches (trace s') = fetches (trace s)
  /\ writes (trace s') = writes (trace s).

(** A computation that never touches the store or the network. *)
Definition quiet {A} (m : Async A) : Prop :=
  forall E s, offline s (m E s).2.

(** The same, when started on the store [F]. *)
Definition quiet_on {A} (F : gmap string file) (m : Async A) : Prop :=
  forall E s, fs s = F -> offline s (m E s).2.

(** The snapshot of [endpoint] holds the document [j], or is absent. *)
Definition holds (s : State) (endpoint : string) (stored : option json) : Prop :=
  match stored with
  | Some j => fs s !! snapshotFile endpoint = Some (Doc j) /\ j <> JNull
  | None => fs s !! snapshotFile endpoint = None
  end.

(** The user never asks for new data. *)
Definition never_refreshes (user : list Turn) : Prop :=
  Forall (fun turn => action turn <> "Fetch New Data") user.

(** The address and the credential of the request for an endpoint. *)
Definition request (E : Env) (endpoint : string) : event :=
  EvFetch (BASE_URL +:+ endpoint) ("Bearer " +:+ API_TOKEN E).

(** The reply that the next request for an endpoint will meet. *)
Definition next_reply (E : Env) (s : State) (endpoint : string) : reply :=
  network E (calls s) (BASE_URL +:+ endpoint).

(** [fetchEsportsData] goes to the network: the cache is not asked for,
    or holds nothing for the endpoint. *)
Definition attempts (s : State) (endpoint : string) (useSnapshot : bool) : Prop :=
  useSnapshot = false \/ fs s !! snapshotFile endpoint = None.

(** A failed fetch: a response outside 200-299, or a transport failure. *)
Definition failed (rp : reply) : bool :=
  match rp with
  | Answer r => negb (ok r)
  | Unreachable _ => true
  end.

(** A request that the server refused: a response outside 200-299. *)
Definition refused (rp : reply) : bool :=
  match rp with
  | Answer r => negb (ok r)
  | Unreachable _ => false
  end.

(** The payload of a successful fetch: a 2xx response with a JSON body. *)
Definition payload_of (rp : reply) : option json :=
  match rp with
  | Answer r => if ok r then body r else None
  | Unreachable _ => None
  end.

(** How a failed fetch reaches the caller: the value [null] of the result
    type after a response that is not [ok], a rejection after a transport
    failure. *)
Definition failure_outcome {A} (null : A) (rp : reply) : outcome A :=
  match rp with
  | Answer _ => Return null
  | Unreachable why => Throw (NetworkError why)
  end.

Section Vocabulary.
Context `{Runtime}.

(** The snapshot of [endpoint] is absent ([prev = None]), or holds the
    document [j] whose timestamp reads [last], and at least [d] minutes
    have elapsed since. *)
Definition due (E : Env) (s : State) (endpoint : string) (d : Q)
    (prev : option (json * Z)) : Prop :=
  match prev with
  | None => fs s !! snapshotFile endpoint = None
  | Some (j, last) =>
      fs s !! snapshotFile endpoint = Some (Doc j)
      /\ j <> JNull
      /\ Date_getTime (prop "lastFetched" j) = Some last
      /\ (d <= Rich.elapsedMinutes (clock E (ticks s)) last)%Q
  end.


(** The clock readings made before the write, on the way through
    [fetchIfNeeded]: one when a snapshot was examined. *)
Definition readings_before_write (prev : option (json * Z)) : nat :=
  match prev with Some _ => 1%nat | None => 0%nat end.

(** The result of the fetch path, by the reply that the request meets. *)
Definition fetched (E : Env) (s : State) (endpoint : string)
    (o : outcome (option Rich.Snapshot)) (s' : State) : Prop :=
  let f := snapshotFile endpoint in
  match next_reply E s endpoint with
  | Unreachable why =>
      o = Throw (NetworkError why) /\ fs s' = fs s
      /\ writes (trace s') = writes (trace s)
  | Answer r =>
      if ok r then
        match body r with
        | Some payload =>
            let doc := Doc (Rich.envelope (clock E (ticks s)) payload) in
            o = Return (Some {| Rich.lastFetched :=
                                  Some (JStr (toISOString (clock E (S (ticks s)))));
                                Rich.data := Some payload |})
            /\ fs s' = <[f := doc]> (fs s)
            /\ writes (trace s') = (writes (trace s) ++ [EvWrite f doc])%list
        | None =>
            o = Throw SyntaxError /\ fs s' = fs s
            /\ writes (trace s') = writes (trace s)
        end
      else
        o = Return None /\ fs s' = fs s
        /\ writes (trace s') = writes (trace s)
  end.

(** The same for the reduced entry point, which resolves to the bare
    payload, and to [null] after a response that is not [ok]. *)
Definition reduced_fetched (E : Env) (s : State) (endpoint : string)
    (o : outcome json) (s' : State) : Prop :=
  let f := snapshotFile endpoint in
  match next_reply E s endpoint with
  | Unreachable why =>
      o = Throw (NetworkError why) /\ fs s' = fs s
      /\ writes (trace s') = writes (trace s)
  | Answer r =>
      if ok r then
        match body r with
        | Some payload =>
            o = Return payload
            /\ fs s' = <[f := Doc payload]> (fs s)
            /\ writes (trace s') = (writes (trace s) ++ [EvWrite f (Doc payload)])%list
        | None =>
            o = Throw SyntaxError /\ fs s' = fs s
            /\ writes (trace s') = writes (trace s)
        end
      else
        o = Return JNull /\ fs s' = fs s
        /\ writes (trace s') = writes (trace s)
  end.

(** Note the time, write a snapshot, read it back. *)
Definition write_then_read (key : string) (payload : json)
  : Async (Z * option Rich.Snapshot) :=
  t0 ← new_Date;
  Rich.saveSnapshot payload (snapshotFile key);;
  back ← Rich.fetchEsportsData key true;
  mret (t0, back).

Definition reduced_write_then_read (key : string) (payload : json)
  : Async json :=
  Reduced.saveSnapshot payload (snapshotFile key);;
  Reduced.fetchEsportsData key true.

End Vocabulary.

(** The filter behind each entry of the extended menu that asks for a
    text. *)
Definition query_filter `{CaseMapping} (act : string)
  : option (list Match -> string -> list Match) :=
  if String.eqb act "Filter by Game" then Some filterByGame
  else if String.eqb act "Filter by League" then Some filterByLeague
  else if String.eqb act "Search Matches" then Some searchMatches
  else None.

(** What the user sees after a filter: the list of the matches kept, or
    a message when none is. *)
Definition filter_outcome `{Runtime} (last : event) (kept : list Match) : Prop :=
  match kept with
  | [] => exists msg, last = EvLog msg
  | _ => last = EvPrompt "Select a match to view details:"
                  ((fst <$> (match_option <$> kept)) ++ ["Go Back"])
  end.

(** A response with a success status whose body is not JSON. *)
Definition unreadable_body (rp : reply) : bool :=
  match rp with
  | Answer r => ok r && match body r with None => true | Some _ => false end
  | Unreachable _ => false
  end.

(** Between [s] and [s'] no file other than [f] has changed, and [f] is as
    it was or holds a JSON document. *)
Definition keeps_store (f : string) (s s' : State) : Prop :=
  forall p,
    fs s' !! p = fs s !! p
    \/ (p = f /\ exists j, fs s' !! p = Some (Doc j)).

(** A computation that leaves every file but [f] alone. *)
Definition tidy {A} (f : string) (m : Async A) : Prop :=
  forall E s, keeps_store f s (m E s).2.

(** Between [s] and [s'] every request went to [endpoint] with the
    credential of the environment, and [calls] has counted each of them. *)
Definition requests_of (E : Env) (endpoint : string) (s s' : State) : Prop :=
  exists n,
    calls s' = (calls s + n)%nat
    /\ fetches (trace s') = (fetches (trace s) ++ replicate n (request E endpoint))%list.

(** A computation that asks the server for [endpoint] and nothing else. *)
Definition single_minded {A} (endpoint : string) (m : Async A) : Prop :=
  forall E s, requests_of E endpoint s (m E s).2.

(** One when the user asks for new data in this cycle. *)
Definition asks (turn : option Turn) : nat :=
  match turn with
  | Some t => if String.eqb (action t) "Fetch New Data" then 1 else 0
  | None => 0
  end.

(** The number of times the user asks for new data. *)
Definition refreshes (user : list Turn) : nat :=
  list_sum ((fun turn => asks (Some turn)) <$> user).

(** One when the store holds no snapshot file for the matches, so that
    the first acquisition of a session has to fetch. *)
Definition first_request (s : State) : nat :=
  match fs s !! snapshotFile upcoming with
  | Some _ => 0
  | None => 1
  end.

(** The store holds a snapshot file for the matches. *)
Definition has_snapshot (s : State) : Prop :=
  is_Some (fs s !! snapshotFile upcoming).

(** Started with a snapshot file in the store, the computation makes at
    most [n] requests and leaves a snapshot file in the store. *)
Definition steady {A} (n : nat) (m : Async A) : Prop :=
  forall E s,
    has_snapshot s ->
    (calls (m E s).2 <= calls s + n)%nat /\ has_snapshot (m E s).2.

(** * Properties *)

(** ** Strings *)

Section StringFacts.

Lemma N_of_ascii_inj (c d : ascii) : N_of_ascii c = N_of_ascii d -> c = d.
Proof.
  intros E. rewrite <- (ascii_N_embedding c), <- (ascii_N_embedding d).
  now rewrite E.
Qed.

Lemma N_of_lower_char (c : ascii) :
  N_of_ascii (lower_char c) =
  if is_upper c then (N_of_ascii c + 32)%N else N_of_ascii c.
Proof.
  unfold lower_char, is_upper. destruct (_ && _) eqn:U; [|reflexivity].
  apply andb_prop in U as [_ U%N.leb_le].
  apply N_ascii_embedding. lia.
Qed.

Lemma lower_char_same_letter (c d : ascii) :
  Ascii.eqb (lower_char c) (lower_char d) = same_letter c d.
Proof.
  apply eq_true_iff_eq. rewrite Ascii.eqb_eq. unfold same_letter.
  rewrite !orb_true_iff, !andb_true_iff, Ascii.eqb_eq, !N.eqb_eq.
  split.
  - intros E%(f_equal N_of_ascii). rewrite !N_of_lower_char in E.
    unfold is_upper in *.
    destruct (_ && _) eqn:Uc in E; destruct (_ && _) eqn:Ud in E;
      rewrite ?Uc, ?Ud.
    + left; left. apply N_of_ascii_inj. lia.
    + left; right. split; [reflexivity | lia].
    + right. split; [reflexivity | lia].
    + left; left. now apply N_of_ascii_inj.
  - intros G. apply N_of_ascii_inj. rewrite !N_of_lower_char.
    destruct G as [[-> | [Uc E]] | [Ud E]]; [reflexivity | |].
    + rewrite Uc. unfold is_upper in *.
      apply andb_prop in Uc as [Lo%N.leb_le Hi%N.leb_le].
      rewrite E. destruct (_ && _) eqn:U; [|reflexivity].
      apply andb_prop in U as [_ U%N.leb_le]. lia.
    + rewrite Ud. unfold is_upper in *.
      apply andb_prop in Ud as [Lo%N.leb_le Hi%N.leb_le].
      rewrite E. destruct (_ && _) eqn:U; [|reflexivity].
      apply andb_prop in U as [_ U%N.leb_le]. lia.
Qed.

(** Comparing the strings with their letters A to Z lowered is comparing
    them letter by letter. *)
Lemma ascii_lower_eq_ignoring_case (a b : string) :
  strict_eq (ascii_lower a) (ascii_lower b) = eq_ignoring_case a b.
Proof.
  unfold strict_eq. revert b.
  induction a as [|c a IH]; intros [|d b]; simpl; try reflexivity.
  now rewrite lower_char_same_letter, IH.
Qed.

Lemma strict_eq_spec (a b : string) : strict_eq a b = true <-> a = b.
Proof. apply String.eqb_eq. Qed.

Lemma prefix_empty (s : string) : String.prefix "" s = true.
Proof. now destruct s. Qed.

Lemma prefix_spec (t s : string) :
  String.prefix t s = true <-> exists post, s = t +:+ post.
Proof.
  revert s. induction t as [|c t IH]; intros s.
  - rewrite prefix_empty. split; [intros _; now exists s | reflexivity].
  - destruct s as [|d s]; simpl.
    + split; [discriminate | intros [post E]; discriminate].
    + destruct (ascii_dec c d) as [->|Ne].
      * rewrite IH. split; intros [post E]; exists post.
        -- now rewrite E.
        -- change (String d s = String d (t +:+ post)) in E. now injection E.
      * split; [discriminate | intros [post E]].
        change (String d s = String c (t +:+ post)) in E. congruence.
Qed.

Lemma includes_nil (t : string) :
  includes "" t = String.prefix t "" || false.
Proof. reflexivity. Qed.

Lemma includes_cons (c : ascii) (s t : string) :
  includes (String c s) t = String.prefix t (String c s) || includes s t.
Proof. reflexivity. Qed.

(** [includes] decides the substring relation. *)
Lemma includes_spec (s t : string) :
  includes s t = true <-> substring_of t s.
Proof.
  unfold substring_of. induction s as [|c s IH];
    [rewrite includes_nil | rewrite includes_cons].
  - rewrite orb_false_r, prefix_spec. split.
    + intros [post E]. now exists "", post.
    + intros [[|c pre] [post E]]; [now exists post | discriminate].
  - rewrite orb_true_iff, IH, prefix_spec. split.
    + intros [[post E] | (pre & post & E)].
      * now exists "", post.
      * exists (String c pre), post. now rewrite E.
    + intros [[|d pre] [post E]].
      * left. now exists post.
      * right. exists pre, post.
        change (String c s = String d (pre +:+ (t +:+ post))) in E.
        now injection E.
Qed.

Lemma includes_empty (s : string) : includes s "" = true.
Proof. destruct s; reflexivity. Qed.

End StringFacts.

(** ** The case mapping of the runtime *)

Section CaseFacts.
Context `{CaseMapping}.

(** Strings that agree up to the case of the letters A to Z have the same
    lower-case form, whatever else they hold. *)
Lemma eq_ignoring_case_toLowerCase (q q' : string) :
  eq_ignoring_case q q' = true -> toLowerCase q = toLowerCase q'.
Proof.
  rewrite <- ascii_lower_eq_ignoring_case, strict_eq_spec. intros E.
  now rewrite <- (toLowerCase_ascii_lower q), E, toLowerCase_ascii_lower.
Qed.

(** On strings of Basic Latin, having the same lower-case form is
    agreeing letter by letter. *)
Lemma toLowerCase_eq_ascii (a b : string) :
  is_ascii a = true -> is_ascii b = true ->
  toLowerCase a = toLowerCase b <-> eq_ignoring_case a b = true.
Proof.
  intros Ha Hb. rewrite !toLowerCase_ascii by assumption.
  now rewrite <- ascii_lower_eq_ignoring_case, strict_eq_spec.
Qed.

Lemma toLowerCase_empty : toLowerCase "" = "".
Proof. now rewrite toLowerCase_ascii. Qed.

End CaseFacts.

(** Lower a string of Basic Latin that is given in full. *)
Ltac lower_literals :=
  rewrite ?toLowerCase_ascii by reflexivity; cbn [ascii_lower].

(** ** Filters *)

Section FilterFacts.
Context {A : Type} (p : A -> bool).

Lemma filter_is_sublist (l : list A) : sublist (List.filter p l) l.
Proof.
  induction l as [|x l IH]; simpl; [constructor|].
  destruct (p x); now constructor.
Qed.

Lemma filter_all (l : list A) :
  (forall x, p x = true) -> List.filter p l = l.
Proof.
  intros All. induction l as [|x l IH]; simpl; [reflexivity|].
  now rewrite All, IH.
Qed.

End FilterFacts.

(** C6. [filterByGame] keeps exactly the matches whose game name equals
    the query ignoring case, that is, whose lower-case form is that of the
    query, in their original order. The comparison is of the whole name and
    not of a part of it: names and queries that agree letter by letter up
    to the case of A to Z are kept, and among names of Basic Latin no other
    is. On the games "Counter-Strike", "Valorant", "counter-strike" and the
    query "Counter-Strike" it returns the first and the third match, in
    that order. *)
Theorem filterByGame_exact `{CaseMapping} :
  (forall (matches : list Match) (game : string),
     filterByGame matches game
       = List.filter
           (fun m => bool_decide (equal_ignoring_case (name (videogame m)) game))
           matches
     /\ sublist (filterByGame matches game) matches
     /\ (forall m, In m (filterByGame matches game) <->
                   In m matches /\ equal_ignoring_case (name (videogame m)) game)
     /\ (forall m, In m matches ->
                   eq_ignoring_case (name (videogame m)) game = true ->
                   In m (filterByGame matches game))
     /\ (forall m, In m (filterByGame matches game) ->
                   is_ascii (name (videogame m)) = true -> is_ascii game = true ->
                   eq_ignoring_case (name (videogame m)) game = true))
  /\ (forall m0 m1 m2 : Match,
        filterByGame [ with_game "Counter-Strike" m0; with_game "Valorant" m1;
                       with_game "counter-strike" m2 ] "Counter-Strike"
        = [ with_game "Counter-Strike" m0; with_game "counter-strike" m2 ])
  /\ (forall m : Match,
        filterByGame [ with_game "Counter-Strike 2" m ] "Counter-Strike" = []).
Proof.
  split; [|split; intros; unfold filterByGame; cbn [List.filter with_game videogame name];
                  lower_literals; reflexivity].
  intros matches game.
  assert (E : filterByGame matches game
              = List.filter
                  (fun m => bool_decide (equal_ignoring_case (name (videogame m)) game))
                  matches).
  { unfold filterByGame. apply List.filter_ext. intros m.
    apply eq_true_iff_eq. now rewrite strict_eq_spec, bool_decide_eq_true. }
  assert (In_spec : forall m, In m (filterByGame matches game) <->
                      In m matches /\ equal_ignoring_case (name (videogame m)) game).
  { intros m. rewrite E, List.filter_In. now rewrite bool_decide_eq_true. }
  split; [exact E|]. split; [apply filter_is_sublist|].
  split; [exact In_spec|]. split.
  - intros m Hm Eq. apply In_spec. split; [exact Hm|].
    now apply eq_ignoring_case_toLowerCase.
  - intros m [_ Eq]%In_spec Ha Hb. now apply toLowerCase_eq_ascii.
Qed.

(** C10. With the empty string as query, [searchMatches] and
    [filterByLeague] return their whole input: the empty string occurs in
    every name. *)
Theorem empty_query_identity `{CaseMapping} (matches : list Match) :
  searchMatches matches "" = matches /\ filterByLeague matches "" = matches.
Proof.
  split; apply filter_all; intros m; rewrite toLowerCase_empty;
    apply includes_empty.
Qed.

(** ** Arrays: [filter] allocates and does not write *)

Section ArrayFacts.
Import Arr.

Lemma Array_filter_fresh (p : Match -> bool) (h : heap) (r : ref)
    (ms : list Match) :
  h !! r = Some ms -> fresh_result h (Array_filter p h r) (List.filter p ms).
Proof.
  intros Hr. unfold Array_filter, alloc. rewrite Hr.
  pose proof (is_fresh (dom h)) as Fresh.
  eexists _, _. split; [reflexivity|]. split; [exact Fresh|]. split.
  - apply lookup_insert_eq.
  - intros k Hk. apply lookup_insert_ne. intros <-. now apply Fresh.
Qed.

End ArrayFacts.

(** C7. Each of the four filters leaves the array it is given, and every
    other array, as it was, returns a newly allocated array, and the
    matches of the result are a subsequence of the input, in the original
    order. *)
Theorem filters_pure `{CaseMapping} (h : Arr.heap) (r : Arr.ref) (ms : list Match)
    (game league_q query : string) :
  h !! r = Some ms ->
  (Arr.fresh_result h (Arr.filterByGame h r game) (filterByGame ms game)
   /\ sublist (filterByGame ms game) ms)
  /\ (Arr.fresh_result h (Arr.filterByLeague h r league_q) (filterByLeague ms league_q)
      /\ sublist (filterByLeague ms league_q) ms)
  /\ (Arr.fresh_result h (Arr.filterLiveMatches h r) (filterLiveMatches ms)
      /\ sublist (filterLiveMatches ms) ms)
  /\ (Arr.fresh_result h (Arr.searchMatches h r query) (searchMatches ms query)
      /\ sublist (searchMatches ms query) ms).
Proof.
  intros Hr.
  repeat split;
    solve [ now apply Array_filter_fresh | apply filter_is_sublist ].
Qed.

(** ** Running computations *)

Section RunFacts.

Lemma Qltb_lt (x y : Q) : Qltb x y = true <-> (x < y)%Q.
Proof.
  unfold Qltb. rewrite negb_true_iff, <- not_true_iff_false, Qle_bool_iff.
  split; [apply Qnot_le_lt | apply Qlt_not_le].
Qed.

Lemma Qltb_ge (x y : Q) : Qltb x y = false <-> (y <= x)%Q.
Proof. unfold Qltb. now rewrite negb_false_iff, Qle_bool_iff. Qed.

Lemma run_bind {A B} (m : Async A) (k : A -> Async B) (E : Env) (s : State) :
  (m ≫= k) E s =
  match m E s with
  | (Return a, s') => k a E s'
  | (Throw e, s') => (Throw e, s')
  | (Pending, s') => (Pending, s')
  end.
Proof. reflexivity. Qed.

Lemma run_ret {A} (a : A) (E : Env) (s : State) :
  (mret a : Async A) E s = (Return a, s).
Proof. reflexivity. Qed.

Lemma fetches_app (t u : list event) :
  fetches (t ++ u) = (fetches t ++ fetches u)%list.
Proof. apply List.filter_app. Qed.

Lemma writes_app (t u : list event) :
  writes (t ++ u) = (writes t ++ writes u)%list.
Proof. apply List.filter_app. Qed.

Lemma offline_refl (s : State) : offline s s.
Proof. now repeat split. Qed.

Lemma offline_trans (s1 s2 s3 : State) :
  offline s1 s2 -> offline s2 s3 -> offline s1 s3.
Proof.
  intros (F1 & C1 & T1 & W1) (F2 & C2 & T2 & W2).
  repeat split; congruence.
Qed.

Lemma offline_record (e : event) (s : State) :
  is_fetch e = false -> is_write e = false -> offline s (record e s).
Proof.
  intros Nf Nw. repeat split; cbn; [rewrite fetches_app | rewrite writes_app];
    cbn; rewrite ?Nf, ?Nw; apply app_nil_r.
Qed.

Lemma offline_set_ticks (n : nat) (s : State) : offline s (set_ticks n s).
Proof. now repeat split. Qed.

(** *** Quiet computations *)

Lemma quiet_ret {A} (a : A) : quiet (mret a : Async A).
Proof. intros E s. apply offline_refl. Qed.

Lemma quiet_throw {A} (e : error) : quiet (throw e : Async A).
Proof. intros E s. apply offline_refl. Qed.

Lemma quiet_bind {A B} (m : Async A) (k : A -> Async B) :
  quiet m -> (forall a, quiet (k a)) -> quiet (m ≫= k).
Proof.
  intros Qm Qk E s. rewrite run_bind. specialize (Qm E s).
  destruct (m E s) as [[a|e|] s']; cbn in *; [|assumption..].
  eapply offline_trans; [eassumption | apply Qk].
Qed.

Lemma quiet_console_log (msg : string) : quiet (console_log msg).
Proof. intros E s. now apply offline_record. Qed.

Lemma quiet_console_error (msg : string) : quiet (console_error msg).
Proof. intros E s. now apply offline_record. Qed.

Lemma quiet_mkdir (dir : string) : quiet (mkdir dir).
Proof. intros E s. now apply offline_record. Qed.

Lemma quiet_new_Date : quiet new_Date.
Proof. intros E s. apply offline_set_ticks. Qed.

Lemma quiet_prompt (message : string) (options : list string)
    (answer : option string) : quiet (prompt message options answer).
Proof. intros E s. destruct answer; now apply offline_record. Qed.

Lemma quiet_exists (path : string) : quiet (exists_ path).
Proof. intros E s. apply offline_refl. Qed.

Lemma quiet_readTextFile (path : string) : quiet (readTextFile path).
Proof.
  intros E s. unfold readTextFile. destruct (fs s !! path); apply offline_refl.
Qed.

Lemma quiet_JSON_parse (f : file) : quiet (JSON_parse f).
Proof. destruct f; [apply quiet_ret | apply quiet_throw]. Qed.

Lemma quiet_if {A} (b : bool) (m1 m2 : Async A) :
  quiet m1 -> quiet m2 -> quiet (if b then m1 else m2).
Proof. now destruct b. Qed.

End RunFacts.

Create HintDb quiet.

#[local] Hint Resolve quiet_ret quiet_throw quiet_console_log quiet_console_error
  quiet_mkdir quiet_new_Date quiet_prompt quiet_exists quiet_readTextFile
  quiet_JSON_parse : quiet.

(** Unfold the primitive actions and compute. *)
Ltac run_prims :=
  unfold Rich.saveSnapshot, Reduced.saveSnapshot;
  unfold ensureDirectoryExists, mkdir, console_log, console_error, emit,
    writeTextFile, new_Date, api_token, fetch, response_json, throw,
    mbind, mret, Async_bind, Async_ret, async_bind, async_ret;
  cbn -[snapshotFile ok].

Ltac quiet_steps :=
  repeat first
    [ solve [auto with quiet]
    | apply quiet_bind; [| intros ?]
    | apply quiet_if ].

(** ** The snapshot store and the fetch *)

Section StoreFacts.
Context `{Runtime}.

Lemma destructure_not_null (j : json) :
  j <> JNull ->
  Rich.destructure j
  = mret {| Rich.lastFetched := prop "lastFetched" j; Rich.data := prop "data" j |}.
Proof. destruct j; [congruence | reflexivity ..]. Qed.

Lemma run_readSnapshot (E : Env) (s : State) (f : string) (j : json) :
  fs s !! f = Some (Doc j) -> j <> JNull ->
  Rich.readSnapshot f E s
  = (Return {| Rich.lastFetched := prop "lastFetched" j;
               Rich.data := prop "data" j |}, s).
Proof.
  intros Hf Hj. unfold Rich.readSnapshot.
  rewrite run_bind. unfold readTextFile. rewrite Hf.
  rewrite run_bind. cbn [JSON_parse]. rewrite run_ret.
  now rewrite destructure_not_null.
Qed.

Lemma quiet_readSnapshot (f : string) : quiet (Rich.readSnapshot f).
Proof.
  unfold Rich.readSnapshot. quiet_steps.
  unfold Rich.destructure. destruct a0; auto with quiet.
Qed.

(** [saveSnapshot] of the extended entry point: one reading of the
    clock, one write of the envelope. *)
Lemma run_saveSnapshot (E : Env) (s : State) (payload : json) (f : string) :
  exists s',
    Rich.saveSnapshot payload f E s = (Return tt, s')
    /\ fs s' = <[f := Doc (Rich.envelope (clock E (ticks s)) payload)]> (fs s)
    /\ ticks s' = S (ticks s)
    /\ calls s' = calls s
    /\ fetches (trace s') = fetches (trace s)
    /\ writes (trace s')
       = (writes (trace s)
          ++ [EvWrite f (Doc (Rich.envelope (clock E (ticks s)) payload))])%list.
Proof.
  eexists. split; [run_prims; reflexivity|]. cbn.
  rewrite !fetches_app, !writes_app. cbn. rewrite !app_nil_r.
  now repeat split.
Qed.

Lemma run_reduced_saveSnapshot (E : Env) (s : State) (payload : json) (f : string) :
  exists s',
    Reduced.saveSnapshot payload f E s = (Return tt, s')
    /\ fs s' = <[f := Doc payload]> (fs s)
    /\ ticks s' = ticks s
    /\ calls s' = calls s
    /\ fetches (trace s') = fetches (trace s)
    /\ writes (trace s') = (writes (trace s) ++ [EvWrite f (Doc payload)])%list.
Proof.
  eexists. split; [run_prims; reflexivity|]. cbn.
  rewrite !fetches_app, !writes_app. cbn. rewrite !app_nil_r.
  now repeat split.
Qed.

Lemma run_fetch_path (E : Env) (s : State) (endpoint : string) (useSnapshot : bool) :
  attempts s endpoint useSnapshot ->
  exists o s',
    Rich.fetchEsportsData endpoint useSnapshot E s = (o, s')
    /\ calls s' = S (calls s)
    /\ fetches (trace s') = (fetches (trace s) ++ [request E endpoint])%list
    /\ fetched E s endpoint o s'.
Proof.
  intros Hc. unfold Rich.fetchEsportsData.
  assert (Cached :
    (if useSnapshot then exists_ (snapshotFile endpoint) else mret false) E s
    = (Return false, s)).
  { destruct Hc as [-> | Hf]; [reflexivity|].
    destruct useSnapshot; [|reflexivity].
    unfold exists_. rewrite Hf. reflexivity. }
  rewrite run_bind, Cached. unfold fetched, next_reply, request.
  run_prims.
  destruct (network E (calls s) (BASE_URL +:+ endpoint)) as [r | why].
  - cbn -[snapshotFile ok]. destruct (ok r).
    + cbn -[snapshotFile]. destruct (body r) as [payload|].
      * eexists _, _. split; [reflexivity|]. cbn -[snapshotFile].
        rewrite !fetches_app, !writes_app. cbn -[snapshotFile].
        rewrite !app_nil_r. now repeat split.
      * eexists _, _. split; [reflexivity|]. cbn -[snapshotFile].
        rewrite !fetches_app, !writes_app. cbn -[snapshotFile].
        rewrite !app_nil_r. now repeat split.
    + eexists _, _. split; [reflexivity|]. cbn -[snapshotFile].
      rewrite !fetches_app, !writes_app. cbn -[snapshotFile].
      rewrite !app_nil_r. now repeat split.
  - eexists _, _. split; [reflexivity|]. cbn -[snapshotFile].
    rewrite !fetches_app, !writes_app. cbn -[snapshotFile].
    rewrite !app_nil_r. now repeat split.
Qed.

Lemma run_reduced_fetch_path (E : Env) (s : State) (endpoint : string)
    (useSnapshot : bool) :
  attempts s endpoint useSnapshot ->
  exists o s',
    Reduced.fetchEsportsData endpoint useSnapshot E s = (o, s')
    /\ calls s' = S (calls s)
    /\ fetches (trace s') = (fetches (trace s) ++ [request E endpoint])%list
    /\ reduced_fetched E s endpoint o s'.
Proof.
  intros Hc. unfold Reduced.fetchEsportsData.
  assert (Cached :
    (if useSnapshot then exists_ (snapshotFile endpoint) else mret false) E s
    = (Return false, s)).
  { destruct Hc as [-> | Hf]; [reflexivity|].
    destruct useSnapshot; [|reflexivity].
    unfold exists_. rewrite Hf. reflexivity. }
  rewrite run_bind, Cached. unfold reduced_fetched, next_reply, request.
  run_prims.
  destruct (network E (calls s) (BASE_URL +:+ endpoint)) as [r | why].
  - cbn -[snapshotFile ok]. destruct (ok r).
    + cbn -[snapshotFile]. destruct (body r) as [payload|].
      * eexists _, _. split; [reflexivity|]. cbn -[snapshotFile].
        rewrite !fetches_app, !writes_app. cbn -[snapshotFile].
        rewrite !app_nil_r. now repeat split.
      * eexists _, _. split; [reflexivity|]. cbn -[snapshotFile].
        rewrite !fetches_app, !writes_app. cbn -[snapshotFile].
        rewrite !app_nil_r. now repeat split.
    + eexists _, _. split; [reflexivity|]. cbn -[snapshotFile].
      rewrite !fetches_app, !writes_app. cbn -[snapshotFile].
      rewrite !app_nil_r. now repeat split.
  - eexists _, _. split; [reflexivity|]. cbn -[snapshotFile].
    rewrite !fetches_app, !writes_app. cbn -[snapshotFile].
    rewrite !app_nil_r. now repeat split.
Qed.

(** The cached path: the snapshot is read, nothing else happens. *)
Lemma run_cached_path (E : Env) (s : State) (endpoint : string) (j : json) :
  fs s !! snapshotFile endpoint = Some (Doc j) -> j <> JNull ->
  Rich.fetchEsportsData endpoint true E s
  = (Return (Some {| Rich.lastFetched := prop "lastFetched" j;
                     Rich.data := prop "data" j |}), s).
Proof.
  intros Hf Hj. unfold Rich.fetchEsportsData.
  rewrite run_bind. unfold exists_ at 1. rewrite Hf.
  rewrite bool_decide_eq_true_2 by eauto.
  now rewrite run_bind, (run_readSnapshot _ _ _ j).
Qed.

Lemma run_reduced_cached_path (E : Env) (s : State) (endpoint : string) (j : json) :
  fs s !! snapshotFile endpoint = Some (Doc j) ->
  Reduced.fetchEsportsData endpoint true E s
  = (Return j, record (EvLog ("Using snapshot: " +:+ snapshotFile endpoint)) s).
Proof.
  intros Hf. unfold Reduced.fetchEsportsData.
  rewrite run_bind. unfold exists_ at 1. rewrite Hf.
  rewrite bool_decide_eq_true_2 by eauto.
  run_prims. unfold readTextFile. cbn -[snapshotFile]. now rewrite Hf.
Qed.

Lemma envelope_fields (t : Z) (payload : json) :
  prop "lastFetched" (Rich.envelope t payload) = Some (JStr (toISOString t))
  /\ prop "data" (Rich.envelope t payload) = Some payload
  /\ Rich.envelope t payload <> JNull.
Proof.
  unfold Rich.envelope, prop. split; [apply lookup_insert_eq|].
  split; [|discriminate].
  rewrite lookup_insert_ne by discriminate. apply lookup_insert_eq.
Qed.

End StoreFacts.

(** ** The freshness policy *)

Section PolicyFacts.
Context `{Runtime}.

Lemma elapsed_nonneg (now last : Z) (d : Q) :
  (d <= Rich.elapsedMinutes now last)%Q -> (0 <= d)%Q -> (last <= now)%Z.
Proof.
  destruct d as [dn dd]. unfold Rich.elapsedMinutes, Qle. cbn.
  pose proof (Pos2Z.is_pos dd). nia.
Qed.

Lemma elapsed_pos (now last : Z) (d : Q) :
  (d <= Rich.elapsedMinutes now last)%Q -> (0 < d)%Q -> (last < now)%Z.
Proof.
  destruct d as [dn dd]. unfold Rich.elapsedMinutes, Qle, Qlt. cbn.
  pose proof (Pos2Z.is_pos dd). nia.
Qed.

(** Past the test, [fetchIfNeeded] is [fetchEsportsData] without the
    cache, after the clock readings made so far. *)
Lemma fetchIfNeeded_due (E : Env) (s : State) (endpoint : string) (d : Q)
    (prev : option (json * Z)) :
  due E s endpoint d prev ->
  Rich.fetchIfNeeded endpoint d E s
  = Rich.fetchEsportsData endpoint false E
      (set_ticks (ticks s + readings_before_write prev) s).
Proof.
  unfold due, Rich.fetchIfNeeded. rewrite run_bind. unfold exists_ at 1.
  destruct prev as [[j last]|].
  - intros (Hf & Hj & Ht & He%Qltb_ge). rewrite Hf.
    rewrite bool_decide_eq_true_2 by eauto.
    rewrite 2!run_bind, (run_readSnapshot _ _ _ j) by assumption.
    rewrite run_bind. unfold new_Date at 1. cbn [Rich.lastFetched].
    rewrite Ht, He, run_ret. cbn [readings_before_write].
    now replace (ticks s + 1)%nat with (S (ticks s)) by lia.
  - intros Hf. rewrite Hf.
    rewrite bool_decide_eq_false_2 by (intros [? ?]; discriminate).
    rewrite run_bind, run_ret. cbn [readings_before_write].
    rewrite Nat.add_0_r. now destruct s.
Qed.

End PolicyFacts.

(** C1. When the snapshot of a key exists and less than the cooldown has
    elapsed since the timestamp it records, [fetchIfNeeded] resolves to
    that snapshot, timestamp and payload as stored, makes no request and
    writes no file; this for every cooldown, positive or not. *)
Theorem fetchIfNeeded_recent_hit `{Runtime} (E : Env) (s : State)
    (endpoint : string) (d : Q) (j : json) (last : Z) :
  fs s !! snapshotFile endpoint = Some (Doc j) ->
  j <> JNull ->
  Date_getTime (prop "lastFetched" j) = Some last ->
  (Rich.elapsedMinutes (clock E (ticks s)) last < d)%Q ->
  exists s',
    Rich.fetchIfNeeded endpoint d E s
    = (Return (Some {| Rich.lastFetched := prop "lastFetched" j;
                       Rich.data := prop "data" j |}), s')
    /\ offline s s'.
Proof.
  intros Hf Hj Ht He%Qltb_lt.
  unfold Rich.fetchIfNeeded.
  rewrite run_bind. unfold exists_ at 1. rewrite Hf.
  rewrite bool_decide_eq_true_2 by eauto.
  rewrite 2!run_bind, (run_readSnapshot _ _ _ j) by assumption.
  rewrite run_bind. unfold new_Date at 1. cbn [Rich.lastFetched].
  rewrite Ht, He.
  eexists. split; [run_prims; reflexivity|].
  eapply offline_trans; [apply (offline_set_ticks (S (ticks s)))|].
  now apply offline_record.
Qed.

Lemma fetchIfNeeded_recent_hit_witness :
  exists s',
    Rich.fetchIfNeeded (H := Sample.RT) upcoming 10 Sample.online
      (Sample.cached (Sample.T0 - 300000))
    = (Return (Some {| Rich.lastFetched := Some (JStr "2023-11-14T22:08:20.000Z");
                       Rich.data := Some Sample.payload |}), s')
    /\ offline (Sample.cached (Sample.T0 - 300000)) s'.
Proof.
  apply (fetchIfNeeded_recent_hit (H := Sample.RT) Sample.online
           (Sample.cached (Sample.T0 - 300000)) upcoming 10
           (Rich.envelope (H := Sample.RT) (Sample.T0 - 300000) Sample.payload)
           (Sample.T0 - 300000)).
  - reflexivity.
  - discriminate.
  - vm_compute. reflexivity.
  - vm_compute. reflexivity.
Defined.

(** C2 (amended). When the snapshot is absent, or at least the cooldown
    has elapsed since its timestamp, [fetchIfNeeded] makes exactly one
    request and, on a successful response, overwrites the snapshot with the
    instant read at the write. With a clock that never runs backwards that
    instant is no earlier than the previous timestamp when the cooldown is
    not negative, and strictly later when the cooldown is positive. *)
Theorem fetchIfNeeded_refetches `{Runtime} (E : Env) (s : State)
    (endpoint : string) (d : Q) (prev : option (json * Z)) :
  clock_monotone E ->
  due E s endpoint d prev ->
  exists o s',
    Rich.fetchIfNeeded endpoint d E s = (o, s')
    /\ calls s' = S (calls s)
    /\ fetches (trace s') = (fetches (trace s) ++ [request E endpoint])%list
    /\ forall payload,
         payload_of (next_reply E s endpoint) = Some payload ->
         let t_new := clock E (ticks s + readings_before_write prev) in
         let doc := Doc (Rich.envelope t_new payload) in
         fs s' = <[snapshotFile endpoint := doc]> (fs s)
         /\ writes (trace s')
            = (writes (trace s) ++ [EvWrite (snapshotFile endpoint) doc])%list
         /\ match prev with
            | Some (_, last) =>
                ((0 <= d)%Q -> (last <= t_new)%Z) /\ ((0 < d)%Q -> (last < t_new)%Z)
            | None => True
            end.
Proof.
  intros Mono Due. rewrite (fetchIfNeeded_due E s endpoint d prev Due).
  set (s1 := set_ticks (ticks s + readings_before_write prev) s).
  destruct (run_fetch_path E s1 endpoint false (or_introl eq_refl))
    as (o & s' & Run & Calls & Fetches & Fetched).
  exists o, s'. split; [exact Run|]. split; [exact Calls|]. split; [exact Fetches|].
  intros payload Hp t_new doc.
  unfold fetched in Fetched. change (next_reply E s1 endpoint)
    with (next_reply E s endpoint) in Fetched.
  unfold payload_of in Hp.
  destruct (next_reply E s endpoint) as [r | why]; [|discriminate].
  destruct (ok r); [|discriminate]. rewrite Hp in Fetched.
  destruct Fetched as (_ & Fs & Ws). split; [exact Fs|]. split; [exact Ws|].
  destruct prev as [[j last]|]; [|exact I].
  destruct Due as (_ & _ & _ & He).
  assert (Later : (clock E (ticks s) <= t_new)%Z) by (apply Mono; lia).
  split; intros Hd.
  - pose proof (elapsed_nonneg _ _ _ He Hd). lia.
  - pose proof (elapsed_pos _ _ _ He Hd). lia.
Qed.

Lemma fetchIfNeeded_refetches_witness :
  exists o s',
    Rich.fetchIfNeeded (H := Sample.RT) upcoming 10 Sample.online
      (Sample.cached (Sample.T0 - Sample.one_day)) = (o, s')
    /\ calls s' = 1%nat
    /\ fetches (trace s') = [request Sample.online upcoming]
    /\ forall payload,
         Some Sample.payload = Some payload ->
         fs s' = <[snapshotFile upcoming :=
                     Doc (Rich.envelope (H := Sample.RT) (Sample.T0 + 1000) payload)]>
                   (fs (Sample.cached (Sample.T0 - Sample.one_day)))
         /\ writes (trace s')
            = [EvWrite (snapshotFile upcoming)
                 (Doc (Rich.envelope (H := Sample.RT) (Sample.T0 + 1000) payload))]
         /\ (((0 <= 10)%Q -> (Sample.T0 - Sample.one_day <= Sample.T0 + 1000)%Z)
             /\ ((0 < 10)%Q -> (Sample.T0 - Sample.one_day < Sample.T0 + 1000)%Z)).
Proof.
  apply (fetchIfNeeded_refetches (H := Sample.RT) Sample.online
           (Sample.cached (Sample.T0 - Sample.one_day)) upcoming 10
           (Some (Rich.envelope (H := Sample.RT) (Sample.T0 - Sample.one_day)
                    Sample.payload,
                  (Sample.T0 - Sample.one_day)%Z))).
  - intros i j Hij. cbn. lia.
  - repeat split.
    + discriminate.
    + vm_compute. discriminate.
Defined.

(** C2, the claim as stated fails. With a cooldown of zero, when the write
    happens in the millisecond that the previous snapshot records, the new
    timestamp equals the previous one. With any cooldown, when the clock is
    set back between the test and the write, the new timestamp is earlier
    than the previous one. *)
Lemma fetchIfNeeded_timestamp_not_later :
  (clock_monotone Sample.instant
   /\ due (H := Sample.RT) Sample.instant (Sample.cached Sample.T0) upcoming 0
        (Some (Rich.envelope (H := Sample.RT) Sample.T0 Sample.payload, Sample.T0))
   /\ payload_of (next_reply Sample.instant (Sample.cached Sample.T0) upcoming)
      = Some Sample.payload
   /\ exists o s' doc t_new,
        Rich.fetchIfNeeded (H := Sample.RT) upcoming 0 Sample.instant
          (Sample.cached Sample.T0) = (o, s')
        /\ fs s' !! snapshotFile upcoming = Some (Doc doc)
        /\ SampleRuntime.getTime (prop "lastFetched" doc) = Some t_new
        /\ ~ (Sample.T0 < t_new)%Z)
  /\ (due (H := Sample.RT) Sample.rewinding (Sample.cached (Sample.T0 - 900000))
        upcoming 10
        (Some (Rich.envelope (H := Sample.RT) (Sample.T0 - 900000) Sample.payload,
               (Sample.T0 - 900000)%Z))
      /\ exists o s' doc t_new,
           Rich.fetchIfNeeded (H := Sample.RT) upcoming 10 Sample.rewinding
             (Sample.cached (Sample.T0 - 900000)) = (o, s')
           /\ fs s' !! snapshotFile upcoming = Some (Doc doc)
           /\ SampleRuntime.getTime (prop "lastFetched" doc) = Some t_new
           /\ ~ (Sample.T0 - 900000 < t_new)%Z).
Proof.
  split.
  - split; [intros i j Hij; cbn; lia|].
    split; [repeat split; [discriminate | vm_compute; discriminate]|].
    split; [reflexivity|].
    eexists _, _, _, _. split; [vm_compute; reflexivity|].
    split; [vm_compute; reflexivity|].
    split; [vm_compute; reflexivity|].
    vm_compute. discriminate.
  - split; [repeat split; [discriminate | vm_compute; discriminate]|].
    eexists _, _, _, _. split; [vm_compute; reflexivity|].
    split; [vm_compute; reflexivity|].
    split; [vm_compute; reflexivity|].
    vm_compute. discriminate.
Qed.

(** ** Failed fetches *)

Section FailureFacts.
Context `{Runtime}.

Lemma failed_fetch_path (E : Env) (s : State) (endpoint : string)
    (useSnapshot : bool) :
  attempts s endpoint useSnapshot ->
  failed (next_reply E s endpoint) = true ->
  exists s',
    Rich.fetchEsportsData endpoint useSnapshot E s
    = (failure_outcome None (next_reply E s endpoint), s')
    /\ calls s' = S (calls s)
    /\ fs s' = fs s
    /\ writes (trace s') = writes (trace s).
Proof.
  intros Hc Hfail.
  destruct (run_fetch_path E s endpoint useSnapshot Hc)
    as (o & s' & Run & Calls & _ & Fetched).
  exists s'. unfold fetched in Fetched. unfold failed in Hfail.
  destruct (next_reply E s endpoint) as [r | why]; cbn [failure_outcome].
  - destruct (ok r); [discriminate|].
    destruct Fetched as (-> & Fs & Ws). now repeat split.
  - destruct Fetched as (-> & Fs & Ws). now repeat split.
Qed.


(** Whatever path [fetchIfNeeded] takes, a failing server leaves the
    store as it was. *)
Lemma failed_fetchIfNeeded (E : Env) (s : State) (endpoint : string) (d : Q) :
  failed (next_reply E s endpoint) = true ->
  exists o s',
    Rich.fetchIfNeeded endpoint d E s = (o, s')
    /\ fs s' = fs s
    /\ writes (trace s') = writes (trace s).
Proof.
  intros Hfail. unfold Rich.fetchIfNeeded.
  rewrite run_bind. unfold exists_ at 1.
  destruct (bool_decide _).
  - rewrite 2!run_bind.
    pose proof (quiet_readSnapshot (snapshotFile endpoint) E s) as Q.
    destruct (Rich.readSnapshot (snapshotFile endpoint) E s) as [[snap|e|] s1];
      cbn [snd] in Q; destruct Q as (Fs1 & Cs1 & _ & Ws1);
      [| now eexists _, _ ..].
    rewrite run_bind. unfold new_Date at 1.
    set (s2 := set_ticks (S (ticks s1)) s1).
    assert (Hfail2 : failed (next_reply E s2 endpoint) = true).
    { unfold next_reply in *. cbn [calls s2 set_ticks]. now rewrite Cs1. }
    destruct (failed_fetch_path E s2 endpoint false (or_introl eq_refl) Hfail2)
      as (s' & Run & _ & Fs & Ws).
    destruct (Date_getTime (Rich.lastFetched snap)) as [last|].
    + destruct (Qltb _ _).
      * eexists _, _. split; [run_prims; reflexivity|]. cbn.
        rewrite writes_app, Ws1. cbn. now rewrite app_nil_r.
      * rewrite run_ret. eexists _, _. split; [exact Run|].
        rewrite Fs, Ws. now split.
    + rewrite run_ret. eexists _, _. split; [exact Run|].
      rewrite Fs, Ws. now split.
  - rewrite run_bind, run_ret.
    destruct (failed_fetch_path E s endpoint false (or_introl eq_refl) Hfail)
      as (s' & Run & _ & Fs & Ws).
    eexists _, _. split; [exact Run|]. now split.
Qed.

End FailureFacts.





(** ** What a snapshot file holds *)

(** C4 (amended). In the extended entry point, writing a snapshot for a
    key stores, at the path computed from the key, an object with exactly
    the two fields [lastFetched], the instant read at the write, and
    [data], the payload as received. In the reduced entry point the file
    holds the payload itself, without a timestamp. *)
Theorem saveSnapshot_envelope `{Runtime} (E : Env) (s : State) (key : string)
    (payload : json) :
  (exists s' fields,
     Rich.saveSnapshot payload (snapshotFile key) E s = (Return tt, s')
     /\ fs s' = <[snapshotFile key := Doc (JObj fields)]> (fs s)
     /\ dom fields = {[ "lastFetched"; "data" ]}
     /\ size fields = 2%nat
     /\ fields !! "lastFetched" = Some (JStr (toISOString (clock E (ticks s))))
     /\ fields !! "data" = Some payload)
  /\ (exists s',
        Reduced.saveSnapshot payload (snapshotFile key) E s = (Return tt, s')
        /\ fs s' = <[snapshotFile key := Doc payload]> (fs s)).
Proof.
  split.
  - destruct (run_saveSnapshot E s payload (snapshotFile key))
      as (s' & Run & Fs & _).
    exists s'. eexists. split; [exact Run|]. split; [exact Fs|].
    destruct (envelope_fields (clock E (ticks s)) payload) as (Lf & Dt & _).
    split; [|split; [|split; [exact Lf | exact Dt]]].
    + rewrite dom_insert_L, dom_singleton_L. reflexivity.
    + rewrite map_size_insert_None, map_size_singleton; [reflexivity|].
      now rewrite lookup_singleton_ne.
  - destruct (run_reduced_saveSnapshot E s payload (snapshotFile key))
      as (s' & Run & Fs & _).
    now exists s'.
Qed.

(** C4, the claim as stated fails in [src/main.ts]: the file written for
    an empty list of matches holds the list, not an object of two fields. *)
Lemma reduced_saveSnapshot_bare_payload :
  exists s',
    Reduced.saveSnapshot (H := Sample.RT) (JArr []) (snapshotFile upcoming)
      Sample.online Sample.empty = (Return tt, s')
    /\ fs s' !! snapshotFile upcoming = Some (Doc (JArr []))
    /\ forall fields, JArr [] <> JObj fields.
Proof.
  eexists. split; [vm_compute; reflexivity|].
  split; [vm_compute; reflexivity | discriminate].
Qed.

(** C8 (amended). Writing a snapshot and reading it back yields the
    payload that was written. In the extended entry point the read also
    yields the timestamp taken at the write, which a clock that never runs
    backwards makes no earlier than the start of the write; the reduced
    entry point stores no timestamp and returns the payload alone. *)
Theorem snapshot_roundtrip `{Runtime} (E : Env) (s : State) (key : string)
    (payload : json) :
  clock_monotone E ->
  (exists s' t,
     write_then_read key payload E s
     = (Return (clock E (ticks s),
                Some {| Rich.lastFetched := Some (JStr (toISOString t));
                        Rich.data := Some payload |}), s')
     /\ (clock E (ticks s) <= t)%Z)
  /\ (exists s',
        reduced_write_then_read key payload E s = (Return payload, s')
        /\ fs s' !! snapshotFile key = Some (Doc payload)).
Proof.
  intros Mono. split.
  - unfold write_then_read. rewrite run_bind. unfold new_Date at 1.
    set (s1 := set_ticks (S (ticks s)) s).
    destruct (run_saveSnapshot E s1 payload (snapshotFile key))
      as (s2 & Run & Fs & _).
    rewrite run_bind, Run.
    destruct (envelope_fields (clock E (ticks s1)) payload) as (Lf & Dt & Nn).
    rewrite run_bind.
    rewrite (run_cached_path E s2 key (Rich.envelope (clock E (ticks s1)) payload));
      [| rewrite Fs; apply lookup_insert_eq | exact Nn].
    rewrite Lf, Dt, run_ret.
    eexists _, _. split; [reflexivity|]. apply Mono. cbn. lia.
  - unfold reduced_write_then_read.
    destruct (run_reduced_saveSnapshot E s payload (snapshotFile key))
      as (s1 & Run & Fs & _).
    rewrite run_bind, Run.
    rewrite (run_reduced_cached_path E s1 key payload);
      [| rewrite Fs; apply lookup_insert_eq].
    eexists. split; [reflexivity|]. cbn [fs record]. rewrite Fs.
    apply lookup_insert_eq.
Qed.

Lemma snapshot_roundtrip_witness :
  (exists s' t,
     write_then_read (H := Sample.RT) upcoming Sample.payload Sample.online
       Sample.empty
     = (Return (Sample.T0,
                Some {| Rich.lastFetched := Some (JStr (SampleRuntime.iso t));
                        Rich.data := Some Sample.payload |}), s')
     /\ (Sample.T0 <= t)%Z)
  /\ (exists s',
        reduced_write_then_read (H := Sample.RT) upcoming Sample.payload
          Sample.online Sample.empty = (Return Sample.payload, s')
        /\ fs s' !! snapshotFile upcoming = Some (Doc Sample.payload)).
Proof.
  apply (snapshot_roundtrip (H := Sample.RT) Sample.online Sample.empty upcoming
           Sample.payload).
  intros i j Hij. cbn. lia.
Defined.

(** C8, the claim as stated fails in [src/main.ts]: what is read back
    after a write is the payload, and the file records no timestamp. *)
Lemma reduced_snapshot_has_no_timestamp :
  exists s',
    reduced_write_then_read (H := Sample.RT) upcoming Sample.payload
      Sample.online Sample.empty = (Return Sample.payload, s')
    /\ fs s' !! snapshotFile upcoming = Some (Doc Sample.payload)
    /\ prop "lastFetched" Sample.payload = None
    /\ SampleRuntime.getTime (prop "lastFetched" Sample.payload) = None.
Proof.
  eexists. split; [vm_compute; reflexivity|].
  repeat split; vm_compute; reflexivity.
Qed.

(** ** The interactive session *)

Section SessionFacts.
Context `{Runtime}.

Lemma quiet_on_of_quiet {A} (F : gmap string file) (m : Async A) :
  quiet m -> quiet_on F m.
Proof. intros Q E s _. apply Q. Qed.

(** Sequencing, with what is known of the value passed on. *)
Lemma quiet_on_bind {A B} (F : gmap string file) (m : Async A)
    (k : A -> Async B) (P : A -> Prop) :
  quiet_on F m ->
  (forall E s a s', m E s = (Return a, s') -> P a) ->
  (forall a, P a -> quiet_on F (k a)) ->
  quiet_on F (m ≫= k).
Proof.
  intros Qm Post Qk E s Hs. rewrite run_bind.
  specialize (Qm E s Hs). specialize (Post E s).
  destruct (m E s) as [[a|e|] s']; cbn [snd] in *; [|assumption..].
  eapply offline_trans; [eassumption|].
  apply Qk; [now eapply Post|]. destruct Qm as (Fs & _). congruence.
Qed.

Lemma quiet_log_lines (lines : list string) (acc : Async unit) :
  quiet acc ->
  quiet (foldl (fun acc line => acc;; console_log line) acc lines).
Proof.
  revert acc. induction lines as [|line lines IH]; intros acc Qacc; [exact Qacc|].
  cbn [foldl]. apply IH. quiet_steps.
Qed.

Lemma quiet_displayMatchDetails (m : Match) : quiet (displayMatchDetails m).
Proof.
  unfold displayMatchDetails.
  repeat (apply quiet_bind; [auto with quiet | intros ?]).
  apply quiet_log_lines. auto with quiet.
Qed.

Lemma quiet_matchListMenu (matches : list Match) (answer : option string) :
  quiet (matchListMenu matches answer).
Proof.
  unfold matchListMenu. apply quiet_bind; [auto with quiet | intros selectedId].
  destruct (String.eqb selectedId "go_back"); [auto with quiet|].
  destruct (List.find _ matches); [|auto with quiet].
  apply quiet_bind; [apply quiet_displayMatchDetails | auto with quiet].
Qed.

Lemma quiet_as_Match_array (v : json) : quiet (as_Match_array v).
Proof. unfold as_Match_array. destruct (Decode.as_matches v); auto with quiet. Qed.

Lemma quiet_show (filtered : list Match) (msg : string) (answer : option string) :
  quiet (Rich.show filtered msg answer).
Proof.
  unfold Rich.show. apply quiet_if; [apply quiet_matchListMenu | auto with quiet].
Qed.

Lemma quiet_timeSince (lastFetched : jsval) : quiet (Rich.timeSince lastFetched).
Proof. unfold Rich.timeSince. quiet_steps. Qed.

Hint Resolve quiet_matchListMenu quiet_as_Match_array quiet_show
  quiet_timeSince quiet_readSnapshot : quiet.

(** Every entry of the extended menu but "Fetch New Data" works on the
    data in memory. *)
Lemma quiet_dispatch (turn : Turn) (act : string) (payload : json) :
  act <> "Fetch New Data" -> quiet (Rich.dispatch turn act payload).
Proof.
  intros Hact%String.eqb_neq. unfold Rich.dispatch. rewrite Hact.
  repeat (apply quiet_if; [quiet_steps|]). auto with quiet.
Qed.

(** Every entry of the reduced menu works on the data in memory. *)
Lemma quiet_reduced_dispatch (turn : Turn) (act : string) (payload : json) :
  quiet (Reduced.dispatch turn act payload).
Proof.
  unfold Reduced.dispatch.
  repeat (apply quiet_if; [quiet_steps|]). auto with quiet.
Qed.

(** With a snapshot in the store, the acquisition reads it. *)
Lemma quiet_on_acquire (F : gmap string file) :
  is_Some (F !! snapshotFile upcoming) -> quiet_on F Rich.acquire.
Proof.
  intros Hf E s Hs. unfold Rich.acquire, Rich.fetchEsportsData.
  rewrite run_bind. unfold exists_ at 1. rewrite Hs.
  rewrite bool_decide_eq_true_2 by assumption.
  apply (quiet_bind (Rich.readSnapshot _)); auto with quiet.
Qed.

Lemma quiet_on_reduced_acquire (F : gmap string file) :
  is_Some (F !! snapshotFile upcoming) -> quiet_on F Reduced.acquire.
Proof.
  intros Hf E s Hs. unfold Reduced.acquire, Reduced.fetchEsportsData.
  rewrite run_bind. unfold exists_ at 1. rewrite Hs.
  rewrite bool_decide_eq_true_2 by assumption.
  assert (Q : quiet (console_log ("Using snapshot: " +:+ snapshotFile upcoming);;
                     snapshot ← readTextFile (snapshotFile upcoming);
                     JSON_parse snapshot)) by quiet_steps.
  apply Q.
Qed.

Lemma prompt_answer (message : string) (options : list string)
    (answer : option string) (E : Env) (s : State) (a : string) (s' : State) :
  prompt message options answer E s = (Return a, s') -> answer = Some a.
Proof. unfold prompt. destruct answer; congruence. Qed.

Lemma quiet_on_cycle (F : gmap string file) (turn : option Turn)
    (again : Async unit) :
  is_Some (F !! snapshotFile upcoming) ->
  (forall t, turn = Some t -> action t <> "Fetch New Data") ->
  quiet_on F again ->
  quiet_on F (Rich.cycle turn again).
Proof.
  intros Hf Hturn Qagain. unfold Rich.cycle.
  apply (quiet_on_bind F _ _ (fun _ => True));
    [now apply quiet_on_acquire | done | intros response _].
  destruct (Rich.no_matches response);
    [apply quiet_on_of_quiet; auto with quiet|].
  destruct response as [[lastFetched [payload|]]|];
    try solve [apply quiet_on_of_quiet; auto with quiet].
  apply (quiet_on_bind F _ _ (fun _ => True));
    [apply quiet_on_of_quiet; auto with quiet | done | intros elapsedTime _].
  apply (quiet_on_bind F _ _ (fun _ => True));
    [apply quiet_on_of_quiet; auto with quiet | done | intros _ _].
  apply (quiet_on_bind F _ _ (fun act => action <$> turn = Some act));
    [apply quiet_on_of_quiet; auto with quiet
    | intros E s a s'; apply prompt_answer
    | intros act Hact].
  destruct turn as [t|]; [|apply quiet_on_of_quiet; auto with quiet].
  injection Hact as <-.
  apply (quiet_on_bind F _ _ (fun _ => True));
    [apply quiet_on_of_quiet, quiet_dispatch; now apply Hturn | done
    | intros continue _].
  destruct continue; [exact Qagain | apply quiet_on_of_quiet; auto with quiet].
Qed.

Lemma quiet_on_reduced_cycle (F : gmap string file) (turn : option Turn)
    (again : Async unit) :
  is_Some (F !! snapshotFile upcoming) ->
  quiet_on F again ->
  quiet_on F (Reduced.cycle turn again).
Proof.
  intros Hf Qagain. unfold Reduced.cycle.
  apply (quiet_on_bind F _ _ (fun _ => True));
    [now apply quiet_on_reduced_acquire | done | intros payload _].
  destruct (Reduced.no_matches payload);
    [apply quiet_on_of_quiet; auto with quiet|].
  apply (quiet_on_bind F _ _ (fun _ => True));
    [apply quiet_on_of_quiet; auto with quiet | done | intros act _].
  destruct turn as [t|]; [|apply quiet_on_of_quiet; auto with quiet].
  apply (quiet_on_bind F _ _ (fun _ => True));
    [apply quiet_on_of_quiet, quiet_reduced_dispatch | done | intros continue _].
  destruct continue; [exact Qagain | apply quiet_on_of_quiet; auto with quiet].
Qed.

(** A session in which the user never asks for new data, started with a
    snapshot in the store, never leaves the store. *)
Lemma quiet_on_mainMenu (F : gmap string file) (user : list Turn) :
  is_Some (F !! snapshotFile upcoming) ->
  never_refreshes user ->
  quiet_on F (Rich.mainMenu user).
Proof.
  intros Hf. induction 1 as [|turn rest Hturn _ IH]; cbn [Rich.mainMenu].
  - apply quiet_on_cycle; [assumption | discriminate|].
    apply quiet_on_of_quiet; auto with quiet.
  - apply quiet_on_cycle; [assumption | now intros t [= <-] | exact IH].
Qed.

Lemma quiet_on_reduced_mainMenu (F : gmap string file) (user : list Turn) :
  is_Some (F !! snapshotFile upcoming) ->
  quiet_on F (Reduced.mainMenu user).
Proof.
  intros Hf. induction user as [|turn rest IH]; cbn [Reduced.mainMenu].
  - apply quiet_on_reduced_cycle; [assumption|].
    apply quiet_on_of_quiet; auto with quiet.
  - now apply quiet_on_reduced_cycle.
Qed.

End SessionFacts.

(** C5 (amended). At the start of each cycle of the main menu the session
    acquires the data with the cache enabled and without the freshness
    policy. A snapshot that exists is reused whatever its age, with no
    request and no write, and a session in which the user never asks for
    new data never leaves the store; when no snapshot exists the
    acquisition makes one request and, on success, writes the snapshot. *)
Theorem acquisition_uses_cache `{Runtime} (E : Env) (s : State)
    (user : list Turn) (stored : option json) :
  holds s upcoming stored ->
  never_refreshes user ->
  match stored with
  | Some j =>
      Rich.acquire E s
      = (Return (Some {| Rich.lastFetched := prop "lastFetched" j;
                         Rich.data := prop "data" j |}), s)
      /\ offline s (Rich.mainMenu user E s).2
      /\ (exists s', Reduced.acquire E s = (Return j, s') /\ offline s s')
      /\ offline s (Reduced.mainMenu user E s).2
  | None =>
      (exists o s',
         Rich.acquire E s = (o, s')
         /\ calls s' = S (calls s)
         /\ fetches (trace s') = (fetches (trace s) ++ [request E upcoming])%list
         /\ fetched E s upcoming o s')
      /\ (exists o s',
            Reduced.acquire E s = (o, s')
            /\ calls s' = S (calls s)
            /\ fetches (trace s') = (fetches (trace s) ++ [request E upcoming])%list
            /\ reduced_fetched E s upcoming o s')
  end.
Proof.
  intros Hs Huser. destruct stored as [j|]; cbn [holds] in Hs.
  - destruct Hs as [Hf Hj].
    assert (Some_f : is_Some (fs s !! snapshotFile upcoming)) by eauto.
    split; [now apply run_cached_path|].
    split; [now apply (quiet_on_mainMenu (fs s))|].
    split; [|now apply (quiet_on_reduced_mainMenu (fs s))].
    eexists. split; [now apply run_reduced_cached_path|].
    now apply offline_record.
  - split.
    + apply run_fetch_path. now right.
    + apply run_reduced_fetch_path. now right.
Qed.

Lemma acquisition_uses_cache_witness :
  Rich.acquire (H := Sample.RT) Sample.online (Sample.cached Sample.T0)
  = (Return (Some {| Rich.lastFetched := Some (JStr "2023-11-14T22:13:20.000Z");
                     Rich.data := Some Sample.payload |}),
     Sample.cached Sample.T0)
  /\ offline (Sample.cached Sample.T0)
       (Rich.mainMenu (H := Sample.RT)
          [ {| action := "View All Matches"; typed := None; picked := Some "7" |};
            {| action := "Exit"; typed := None; picked := None |} ]
          Sample.online (Sample.cached Sample.T0)).2
  /\ (exists s',
        Reduced.acquire (H := Sample.RT) Sample.online (Sample.cached Sample.T0)
        = (Return (Rich.envelope (H := Sample.RT) Sample.T0 Sample.payload), s')
        /\ offline (Sample.cached Sample.T0) s')
  /\ offline (Sample.cached Sample.T0)
       (Reduced.mainMenu (H := Sample.RT)
          [ {| action := "View All Matches"; typed := None; picked := Some "7" |};
            {| action := "Exit"; typed := None; picked := None |} ]
          Sample.online (Sample.cached Sample.T0)).2.
Proof.
  apply (acquisition_uses_cache (H := Sample.RT) Sample.online
           (Sample.cached Sample.T0)
           [ {| action := "View All Matches"; typed := None; picked := Some "7" |};
             {| action := "Exit"; typed := None; picked := None |} ]
           (Some (Rich.envelope (H := Sample.RT) Sample.T0 Sample.payload))).
  - split; [reflexivity | discriminate].
  - repeat constructor; discriminate.
Defined.

(** C5, the claim as stated fails: with a snapshot a day old, far beyond
    the cooldown of ten minutes, the acquisition at the start of the cycle
    returns the old snapshot, and the whole session makes no request and
    writes no file. *)
Lemma session_reuses_stale_snapshot :
  due (H := Sample.RT) Sample.online (Sample.cached (Sample.T0 - Sample.one_day))
    upcoming 10
    (Some (Rich.envelope (H := Sample.RT) (Sample.T0 - Sample.one_day) Sample.payload,
           (Sample.T0 - Sample.one_day)%Z))
  /\ Rich.acquire (H := Sample.RT) Sample.online
       (Sample.cached (Sample.T0 - Sample.one_day))
     = (Return (Some {| Rich.lastFetched := Some (JStr "2023-11-13T22:13:20.000Z");
                        Rich.data := Some Sample.payload |}),
        Sample.cached (Sample.T0 - Sample.one_day))
  /\ exists s',
       Rich.mainMenu (H := Sample.RT)
         [ {| action := "View All Matches"; typed := None; picked := Some "7" |};
           {| action := "Exit"; typed := None; picked := None |} ]
         Sample.online (Sample.cached (Sample.T0 - Sample.one_day))
       = (Return tt, s')
       /\ calls s' = 0%nat
       /\ fetches (trace s') = []
       /\ writes (trace s') = [].
Proof.
  split; [repeat split; [discriminate | vm_compute; discriminate]|].
  split; [vm_compute; reflexivity|].
  eexists. split; [vm_compute; reflexivity|].
  repeat split; vm_compute; reflexivity.
Qed.

(** ** Network failures in the session *)

Section CrashFacts.
Context `{Runtime}.

Lemma run_console_log (msg : string) (E : Env) (s : State) :
  console_log msg E s = (Return tt, record (EvLog msg) s).
Proof. reflexivity. Qed.

Lemma run_timeSince (lastFetched : jsval) (E : Env) (s : State) :
  exists text,
    Rich.timeSince lastFetched E s = (Return text, set_ticks (S (ticks s)) s).
Proof. eexists. reflexivity. Qed.

Lemma run_prompt (message : string) (options : list string) (a : string)
    (E : Env) (s : State) :
  prompt message options (Some a) E s
  = (Return a, record (EvPrompt message options) s).
Proof. reflexivity. Qed.


End CrashFacts.




Lemma filters_pure_witness :
  (Arr.fresh_result Sample.heap (Arr.filterByGame (H := BasicLatin) Sample.heap 1%positive "valorant")
     [with_game "Valorant" Sample.semifinal]
   /\ sublist [with_game "Valorant" Sample.semifinal]
        [Sample.semifinal; with_game "Valorant" Sample.semifinal])
  /\ (Arr.fresh_result Sample.heap (Arr.filterByLeague (H := BasicLatin) Sample.heap 1%positive "esl")
        [Sample.semifinal; with_game "Valorant" Sample.semifinal]
      /\ sublist [Sample.semifinal; with_game "Valorant" Sample.semifinal]
           [Sample.semifinal; with_game "Valorant" Sample.semifinal])
  /\ (Arr.fresh_result Sample.heap (Arr.filterLiveMatches Sample.heap 1%positive)
        [Sample.semifinal; with_game "Valorant" Sample.semifinal]
      /\ sublist [Sample.semifinal; with_game "Valorant" Sample.semifinal]
           [Sample.semifinal; with_game "Valorant" Sample.semifinal])
  /\ (Arr.fresh_result Sample.heap (Arr.searchMatches (H := BasicLatin) Sample.heap 1%positive "final b")
        []
      /\ sublist [] [Sample.semifinal; with_game "Valorant" Sample.semifinal]).
Proof.
  apply (filters_pure (H := BasicLatin) Sample.heap 1%positive
           [Sample.semifinal; with_game "Valorant" Sample.semifinal]
           "valorant" "esl" "final b").
  reflexivity.
Defined.

(** ** The examples of the specification *)

Example searchMatches_semi `{CaseMapping} (m0 m1 m2 : Match) :
  searchMatches [ named "Semifinal A" m0; named "Quarterfinal B" m1;
                  named "Grand Semifinal" m2 ] "semi"
  = [ named "Semifinal A" m0; named "Grand Semifinal" m2 ].
Proof.
  unfold searchMatches. cbn [List.filter named match_name].
  lower_literals. reflexivity.
Qed.

(** What is kept depends on the case mapping where the names leave Basic
    Latin: a runtime that knows the accented letters keeps a match that a
    letter-by-letter comparison of A to Z would drop. *)
Example filterByGame_accents (m : Match) :
  filterByGame (H := Latin1) [ with_game "Pokémon UNITE" m ] "POKÉMON unite"
  = [ with_game "Pokémon UNITE" m ]
  /\ eq_ignoring_case "Pokémon UNITE" "POKÉMON unite" = false.
Proof. split; reflexivity. Qed.

Example filterLiveMatches_positions (m0 m1 m2 m3 : Match) :
  filterLiveMatches [ in_state "live" m0; in_state "finished" m1;
                      in_state "live" m2; in_state "not_started" m3 ]
  = [ in_state "live" m0; in_state "live" m2 ].
Proof. reflexivity. Qed.

Example snapshotFile_upcoming :
  snapshotFile upcoming = "snapshot__matches/upcoming.json".
Proof. reflexivity. Qed.

(** * Further properties of the code *)

(** ** Queries of the filters *)

Section QueryFacts.

Lemma filter_filter_comm {A} (p q : A -> bool) (l : list A) :
  List.filter p (List.filter q l) = List.filter q (List.filter p l).
Proof.
  induction l as [|x l IH]; [reflexivity|]. cbn [List.filter].
  destruct (p x) eqn:P, (q x) eqn:Q; cbn [List.filter];
    rewrite ?P, ?Q, IH; reflexivity.
Qed.

Lemma filter_filter_idem {A} (p : A -> bool) (l : list A) :
  List.filter p (List.filter p l) = List.filter p l.
Proof.
  induction l as [|x l IH]; [reflexivity|]. cbn [List.filter].
  destruct (p x) eqn:P; cbn [List.filter]; rewrite ?P, IH; reflexivity.
Qed.

Lemma filter_sublist_weaken {A} (p q : A -> bool) (l : list A) :
  (forall x, p x = true -> q x = true) ->
  sublist (List.filter p l) (List.filter q l).
Proof.
  intros Imp. induction l as [|x l IH]; [constructor|]. cbn [List.filter].
  destruct (p x) eqn:P.
  - rewrite (Imp x P). now constructor.
  - destruct (q x); [now constructor | exact IH].
Qed.

Lemma string_app_assoc (a b c : string) : (a +:+ b) +:+ c = a +:+ (b +:+ c).
Proof.
  induction a as [|x a IH]; [reflexivity|].
  change ((String x a +:+ b) +:+ c) with (String x ((a +:+ b) +:+ c)).
  change (String x a +:+ (b +:+ c)) with (String x (a +:+ (b +:+ c))).
  now rewrite IH.
Qed.

Lemma substring_of_trans (a b c : string) :
  substring_of a b -> substring_of b c -> substring_of a c.
Proof.
  intros (p1 & q1 & ->) (p2 & q2 & ->).
  exists (p2 +:+ p1), (q1 +:+ q2). now rewrite !string_app_assoc.
Qed.

(** What holds a string holds its parts. *)
Lemma includes_narrow (s t1 t2 : string) :
  substring_of t1 t2 -> includes s t2 = true -> includes s t1 = true.
Proof.
  intros Sub Inc%includes_spec. apply includes_spec.
  now apply (substring_of_trans t1 t2 s).
Qed.

End QueryFacts.



(** X2. A longer query narrows the result: when [q1] occurs in [q2]
    ignoring case, that is, when the lower-case form of [q1] occurs in that
    of [q2], what [searchMatches] and [filterByLeague] return for [q2] is a
    subsequence of what they return for [q1]. *)
Theorem longer_query_narrows `{CaseMapping} (matches : list Match)
    (q1 q2 : string) :
  substring_of (toLowerCase q1) (toLowerCase q2) ->
  sublist (searchMatches matches q2) (searchMatches matches q1)
  /\ sublist (filterByLeague matches q2) (filterByLeague matches q1).
Proof.
  intros Sub. split; apply filter_sublist_weaken; intros m;
    now apply includes_narrow.
Qed.

Lemma longer_query_narrows_witness :
  sublist
    (searchMatches (H := BasicLatin)
       [Sample.semifinal; named "Grand Final" Sample.semifinal] "semiFINAL")
    (searchMatches (H := BasicLatin)
       [Sample.semifinal; named "Grand Final" Sample.semifinal] "Final")
  /\ sublist
       (filterByLeague (H := BasicLatin)
          [Sample.semifinal; named "Grand Final" Sample.semifinal] "semiFINAL")
       (filterByLeague (H := BasicLatin)
          [Sample.semifinal; named "Grand Final" Sample.semifinal] "Final").
Proof.
  apply (longer_query_narrows (H := BasicLatin)
           [Sample.semifinal; named "Grand Final" Sample.semifinal]
           "Final" "semiFINAL").
  now exists "semi", "".
Defined.

(** X3. The filters can be applied in any order and applying one twice
    changes nothing: each pair commutes and each is idempotent. *)
Theorem filters_commute `{CaseMapping} (matches : list Match)
    (game league_q query : string) :
  filterByGame (filterByLeague matches league_q) game
  = filterByLeague (filterByGame matches game) league_q
  /\ filterByGame (filterLiveMatches matches) game
     = filterLiveMatches (filterByGame matches game)
  /\ filterByGame (searchMatches matches query) game
     = searchMatches (filterByGame matches game) query
  /\ filterByLeague (filterLiveMatches matches) league_q
     = filterLiveMatches (filterByLeague matches league_q)
  /\ filterByLeague (searchMatches matches query) league_q
     = searchMatches (filterByLeague matches league_q) query
  /\ filterLiveMatches (searchMatches matches query)
     = searchMatches (filterLiveMatches matches) query
  /\ filterByGame (filterByGame matches game) game = filterByGame matches game
  /\ filterByLeague (filterByLeague matches league_q) league_q
     = filterByLeague matches league_q
  /\ filterLiveMatches (filterLiveMatches matches) = filterLiveMatches matches
  /\ searchMatches (searchMatches matches query) query = searchMatches matches query.
Proof.
  unfold filterByGame, filterByLeague, filterLiveMatches, searchMatches.
  repeat split; first [apply filter_filter_comm | apply filter_filter_idem].
Qed.

(** ** The path of a snapshot *)

Section PathFacts.

Lemma substring_all (s : string) : String.substring 0 (String.length s) s = s.
Proof. induction s as [|c s IH]; [reflexivity|]. cbn. now rewrite IH. Qed.

Lemma includes_char_cons (a c : ascii) (s : string) :
  includes (String a s) (String c EmptyString) = false ->
  c <> a /\ includes s (String c EmptyString) = false.
Proof.
  rewrite includes_cons. intros [P I]%orb_false_elim. split; [|exact I].
  intros ->. cbn in P. destruct (ascii_dec a a); [|congruence].
  now rewrite prefix_empty in P.
Qed.

Lemma prefix_char_ne (a c : ascii) (s : string) :
  c <> a -> String.prefix (String c EmptyString) (String a s) = false.
Proof. intros Ne. cbn. now destruct (ascii_dec c a). Qed.

(** [replace] with a one-character pattern rewrites the first occurrence
    and nothing after it. *)
Lemma replace_first_char (pre post rep : string) (c : ascii) :
  includes pre (String c EmptyString) = false ->
  replace (pre +:+ String c post) (String c EmptyString) rep
  = pre +:+ rep +:+ post.
Proof.
  induction pre as [|a pre IH]; intros Hpre.
  - change ("" +:+ String c post) with (String c post).
    change ("" +:+ rep +:+ post) with (rep +:+ post).
    cbn [replace]. replace (String.prefix (String c "") (String c post)) with true.
    + cbn [String.length]. rewrite Nat.sub_succ, Nat.sub_0_r.
      change (String.substring 1 (String.length post) (String c post))
        with (String.substring 0 (String.length post) post).
      now rewrite substring_all.
    + cbn. destruct (ascii_dec c c); [|congruence]. now rewrite prefix_empty.
  - apply includes_char_cons in Hpre as [Ne Hpre].
    change (String a pre +:+ String c post) with (String a (pre +:+ String c post)).
    change (String a pre +:+ rep +:+ post) with (String a (pre +:+ rep +:+ post)).
    cbn [replace]. rewrite (prefix_char_ne a c _ Ne). now rewrite IH.
Qed.

Lemma replace_absent_char (s rep : string) (c : ascii) :
  includes s (String c EmptyString) = false ->
  replace s (String c EmptyString) rep = s.
Proof.
  induction s as [|a s IH]; intros Hs; [reflexivity|].
  apply includes_char_cons in Hs as [Ne Hs].
  cbn [replace]. rewrite (prefix_char_ne a c _ Ne). now rewrite IH.
Qed.

Lemma snapshotFile_plain (endpoint : string) :
  includes endpoint "/" = false ->
  snapshotFile endpoint = "snapshot_" +:+ endpoint +:+ ".json".
Proof. intros Hs. unfold snapshotFile. now rewrite replace_absent_char. Qed.

Lemma snapshotFile_slash (pre post : string) :
  includes pre "/" = false ->
  snapshotFile (pre +:+ "/" +:+ post)
  = "snapshot_" +:+ pre +:+ "_" +:+ post +:+ ".json".
Proof.
  intros Hpre. unfold snapshotFile.
  change ("/" +:+ post) with (String "/"%char post).
  rewrite (replace_first_char pre post "_" "/"%char Hpre).
  now rewrite !string_app_assoc.
Qed.

End PathFacts.

(** X4. The path of a snapshot rewrites the first slash of the endpoint
    only: an endpoint without a slash is kept as it is, and in an endpoint
    with slashes everything after the first one, further slashes included,
    is kept, so that the file lies in a directory. *)
Theorem snapshotFile_first_slash (pre : string) :
  includes pre "/" = false ->
  snapshotFile pre = "snapshot_" +:+ pre +:+ ".json"
  /\ forall post,
       snapshotFile (pre +:+ "/" +:+ post)
       = "snapshot_" +:+ pre +:+ "_" +:+ post +:+ ".json".
Proof.
  intros Hpre. split; [now apply snapshotFile_plain|].
  intros post. now apply snapshotFile_slash.
Qed.

Lemma snapshotFile_first_slash_witness :
  snapshotFile "matches" = "snapshot_matches.json"
  /\ forall post,
       snapshotFile ("matches" +:+ "/" +:+ post)
       = "snapshot_" +:+ "matches" +:+ "_" +:+ post +:+ ".json".
Proof.
  apply (snapshotFile_first_slash "matches"). reflexivity.
Defined.

(** X5. Two endpoints can share a snapshot file: an endpoint that starts
    with a slash and the same endpoint with an underscore in its place are
    different keys with the same path. *)
Theorem snapshotFile_collision (rest : string) :
  includes rest "/" = false ->
  snapshotFile ("/" +:+ rest) = snapshotFile ("_" +:+ rest)
  /\ "/" +:+ rest <> "_" +:+ rest.
Proof.
  intros Hrest. split; [|discriminate].
  pose proof (snapshotFile_slash "" rest eq_refl) as Slash.
  change ("" +:+ "/" +:+ rest) with ("/" +:+ rest) in Slash. rewrite Slash.
  assert (Hu : includes ("_" +:+ rest) "/" = false).
  { change ("_" +:+ rest) with (String "_"%char rest).
    rewrite includes_cons, Hrest. reflexivity. }
  rewrite (snapshotFile_plain ("_" +:+ rest) Hu). reflexivity.
Qed.

Lemma snapshotFile_collision_witness :
  snapshotFile ("/" +:+ "matches") = snapshotFile ("_" +:+ "matches")
  /\ "/" +:+ "matches" <> "_" +:+ "matches".
Proof.
  apply (snapshotFile_collision "matches"). reflexivity.
Defined.

(** ** The age shown in the menu *)

(** X6. For a snapshot whose timestamp is not in the future, [timeSince]
    reads the clock once and prints whole hours and the minutes of the
    last hour: the minutes are between 0 and 59, and hours and minutes
    together are the elapsed time rounded down to the minute. *)
Theorem timeSince_elapsed `{Runtime} (E : Env) (s : State) (lastFetched : jsval)
    (last : Z) :
  Date_getTime lastFetched = Some last ->
  (last <= clock E (ticks s))%Z ->
  exists hours minutes : Z,
    Rich.timeSince lastFetched E s
    = (Return (pretty hours +:+ "hr" +:+ pretty minutes +:+ "m"),
       set_ticks (S (ticks s)) s)
    /\ (0 <= hours)%Z
    /\ (0 <= minutes < 60)%Z
    /\ (hours * 3600000 + minutes * 60000 <= clock E (ticks s) - last
        < hours * 3600000 + minutes * 60000 + 60000)%Z.
Proof.
  intros Ht Hle. unfold Rich.timeSince.
  rewrite run_bind. unfold new_Date at 1. rewrite Ht.
  set (diff := (clock E (ticks s) - last)%Z).
  assert (Hd : (0 <= diff)%Z) by (unfold diff; lia).
  exists (diff / 3600000)%Z, (Z.rem diff 3600000 / 60000)%Z.
  split; [reflexivity|].
  rewrite Z.rem_mod_nonneg by lia.
  pose proof (Z.div_mod diff 3600000 ltac:(lia)) as Hh.
  pose proof (Z.mod_pos_bound diff 3600000 ltac:(lia)) as Hr.
  pose proof (Z.div_mod (diff mod 3600000) 60000 ltac:(lia)) as Hm.
  pose proof (Z.mod_pos_bound (diff mod 3600000) 60000 ltac:(lia)) as Hr'.
  assert (0 <= diff / 3600000)%Z by (apply Z.div_pos; lia).
  assert (0 <= diff mod 3600000 / 60000)%Z by (apply Z.div_pos; lia).
  repeat split; lia.
Qed.

Lemma timeSince_elapsed_witness :
  exists hours minutes : Z,
    Rich.timeSince (H := Sample.RT) (Some (JStr "2023-11-14T20:03:20.000Z"))
      Sample.online Sample.empty
    = (Return (pretty hours +:+ "hr" +:+ pretty minutes +:+ "m"),
       set_ticks 1 Sample.empty)
    /\ (0 <= hours)%Z
    /\ (0 <= minutes < 60)%Z
    /\ (hours * 3600000 + minutes * 60000 <= Sample.T0 - (Sample.T0 - 7800000)
        < hours * 3600000 + minutes * 60000 + 60000)%Z.
Proof.
  apply (timeSince_elapsed (H := Sample.RT) Sample.online Sample.empty
           (Some (JStr "2023-11-14T20:03:20.000Z")) (Sample.T0 - 7800000)).
  - vm_compute. reflexivity.
  - vm_compute. discriminate.
Defined.

(** X7. For a snapshot whose timestamp lies in the future by other than a
    whole number of hours, the hours are rounded down and the minutes are
    taken from the truncated remainder, so that the text is off by more
    than an hour: one millisecond ahead prints as minus one hour and minus
    one minute. *)
Theorem timeSince_future `{Runtime} (E : Env) (s : State) (lastFetched : jsval)
    (last : Z) :
  Date_getTime lastFetched = Some last ->
  (clock E (ticks s) < last)%Z ->
  Z.rem (clock E (ticks s) - last) 3600000 <> 0%Z ->
  exists hours minutes : Z,
    Rich.timeSince lastFetched E s
    = (Return (pretty hours +:+ "hr" +:+ pretty minutes +:+ "m"),
       set_ticks (S (ticks s)) s)
    /\ (hours < 0)%Z
    /\ (-60 <= minutes < 0)%Z
    /\ (hours * 3600000 + minutes * 60000
        <= clock E (ticks s) - last - 3600000)%Z.
Proof.
  intros Ht Hlt Hrem. unfold Rich.timeSince.
  rewrite run_bind. unfold new_Date at 1. rewrite Ht.
  set (diff := (clock E (ticks s) - last)%Z) in *.
  assert (Hd : (diff < 0)%Z) by (unfold diff; lia).
  exists (diff / 3600000)%Z, (Z.rem diff 3600000 / 60000)%Z.
  split; [reflexivity|].
  pose proof (Z.quot_rem' diff 3600000) as Hq.
  pose proof (Z.rem_bound_pos_neg diff 3600000 ltac:(lia) ltac:(lia)) as Hr.
  pose proof (Z.div_mod diff 3600000 ltac:(lia)) as Hh.
  pose proof (Z.mod_pos_bound diff 3600000 ltac:(lia)) as Hmod.
  pose proof (Z.div_mod (Z.rem diff 3600000) 60000 ltac:(lia)) as Hm.
  pose proof (Z.mod_pos_bound (Z.rem diff 3600000) 60000 ltac:(lia)) as Hmod'.
  assert (Hne : (diff mod 3600000 <> 0)%Z).
  { intros Hz. apply Hrem. apply Z.rem_divide; [lia|].
    apply Z.mod_divide; [lia | exact Hz]. }
  repeat split; lia.
Qed.

Lemma timeSince_future_witness :
  exists hours minutes : Z,
    Rich.timeSince (H := Sample.RT) (Some (JStr "2023-11-14T22:13:20.001Z"))
      Sample.online Sample.empty
    = (Return (pretty hours +:+ "hr" +:+ pretty minutes +:+ "m"),
       set_ticks 1 Sample.empty)
    /\ (hours < 0)%Z
    /\ (-60 <= minutes < 0)%Z
    /\ (hours * 3600000 + minutes * 60000
        <= Sample.T0 - (Sample.T0 + 1) - 3600000)%Z.
Proof.
  apply (timeSince_future (H := Sample.RT) Sample.online Sample.empty
           (Some (JStr "2023-11-14T22:13:20.001Z")) (Sample.T0 + 1)).
  - vm_compute. reflexivity.
  - vm_compute. reflexivity.
  - vm_compute. discriminate.
Defined.

(** ** Snapshots that cannot be used *)

Section UnusableFacts.
Context `{Runtime}.

Lemma run_readSnapshot_garbled (E : Env) (s : State) (f text : string) :
  fs s !! f = Some (Garbled text) ->
  Rich.readSnapshot f E s = (Throw SyntaxError, s).
Proof.
  intros Hf. unfold Rich.readSnapshot.
  rewrite run_bind. unfold readTextFile. now rewrite Hf.
Qed.

Lemma run_cached_garbled (E : Env) (s : State) (endpoint text : string) :
  fs s !! snapshotFile endpoint = Some (Garbled text) ->
  Rich.fetchEsportsData endpoint true E s = (Throw SyntaxError, s).
Proof.
  intros Hf. unfold Rich.fetchEsportsData.
  rewrite run_bind. unfold exists_ at 1. rewrite Hf.
  rewrite bool_decide_eq_true_2 by eauto.
  now rewrite run_bind, (run_readSnapshot_garbled E s _ text).
Qed.

Lemma run_reduced_cached_garbled (E : Env) (s : State) (endpoint text : string) :
  fs s !! snapshotFile endpoint = Some (Garbled text) ->
  Reduced.fetchEsportsData endpoint true E s
  = (Throw SyntaxError,
     record (EvLog ("Using snapshot: " +:+ snapshotFile endpoint)) s).
Proof.
  intros Hf. unfold Reduced.fetchEsportsData.
  rewrite run_bind. unfold exists_ at 1. rewrite Hf.
  rewrite bool_decide_eq_true_2 by eauto.
  run_prims. unfold readTextFile. cbn -[snapshotFile]. now rewrite Hf.
Qed.

(** A cycle whose acquisition rejects ends by that rejection. *)
Lemma cycle_acquire_throws (E : Env) (s s' : State) (e : error)
    (turn : option Turn) (again : Async unit) :
  Rich.acquire E s = (Throw e, s') ->
  Rich.cycle turn again E s = (Throw e, s').
Proof. intros Ha. unfold Rich.cycle. now rewrite run_bind, Ha. Qed.

Lemma reduced_cycle_acquire_throws (E : Env) (s s' : State) (e : error)
    (turn : option Turn) (again : Async unit) :
  Reduced.acquire E s = (Throw e, s') ->
  Reduced.cycle turn again E s = (Throw e, s').
Proof. intros Ha. unfold Reduced.cycle. now rewrite run_bind, Ha. Qed.

Lemma mainMenu_cycle (user : list Turn) :
  Rich.mainMenu user = Rich.cycle (head user) (Rich.mainMenu (tail user)).
Proof. destruct user; reflexivity. Qed.

Lemma reduced_mainMenu_cycle (user : list Turn) :
  Reduced.mainMenu user
  = Reduced.cycle (head user) (Reduced.mainMenu (tail user)).
Proof. destruct user; reflexivity. Qed.

End UnusableFacts.

(** X8. A snapshot file that is not JSON is not taken for a missing one:
    reading it through the cache rejects with a syntax error, in
    [fetchEsportsData] of both entry points and in [fetchIfNeeded] for
    every cooldown, and nothing is requested or written. *)
Theorem corrupt_snapshot_rejects `{Runtime} (E : Env) (s : State)
    (endpoint text : string) (d : Q) :
  fs s !! snapshotFile endpoint = Some (Garbled text) ->
  Rich.fetchEsportsData endpoint true E s = (Throw SyntaxError, s)
  /\ Rich.fetchIfNeeded endpoint d E s = (Throw SyntaxError, s)
  /\ exists s',
       Reduced.fetchEsportsData endpoint true E s = (Throw SyntaxError, s')
       /\ offline s s'.
Proof.
  intros Hf. split; [now apply (run_cached_garbled E s endpoint text)|]. split.
  - unfold Rich.fetchIfNeeded. rewrite run_bind. unfold exists_ at 1. rewrite Hf.
    rewrite bool_decide_eq_true_2 by eauto.
    now rewrite 2!run_bind, (run_readSnapshot_garbled E s _ text).
  - eexists. split; [now apply (run_reduced_cached_garbled E s endpoint text)|].
    now apply offline_record.
Qed.

Lemma corrupt_snapshot_rejects_witness :
  Rich.fetchEsportsData (H := Sample.RT) upcoming true Sample.online
    (Sample.with_files {[ snapshotFile upcoming := Garbled "{" ]})
  = (Throw SyntaxError, Sample.with_files {[ snapshotFile upcoming := Garbled "{" ]})
  /\ Rich.fetchIfNeeded (H := Sample.RT) upcoming 10 Sample.online
       (Sample.with_files {[ snapshotFile upcoming := Garbled "{" ]})
     = (Throw SyntaxError, Sample.with_files {[ snapshotFile upcoming := Garbled "{" ]})
  /\ exists s',
       Reduced.fetchEsportsData (H := Sample.RT) upcoming true Sample.online
         (Sample.with_files {[ snapshotFile upcoming := Garbled "{" ]})
       = (Throw SyntaxError, s')
       /\ offline (Sample.with_files {[ snapshotFile upcoming := Garbled "{" ]}) s'.
Proof.
  apply (corrupt_snapshot_rejects (H := Sample.RT) Sample.online
           (Sample.with_files {[ snapshotFile upcoming := Garbled "{" ]})
           upcoming "{" 10).
  reflexivity.
Defined.

(** X9. With a snapshot file that is not JSON in the store, every session
    of either entry point ends at its first acquisition by the rejection,
    before any menu is shown and whatever the user would answer; nothing
    is requested, and the file stays as it is. *)
Theorem corrupt_snapshot_ends_session `{Runtime} (E : Env) (s : State)
    (text : string) (user : list Turn) :
  API_TOKEN E <> "" ->
  fs s !! snapshotFile upcoming = Some (Garbled text) ->
  startup (Rich.main user) E s = (Crashes SyntaxError, s)
  /\ exists s',
       startup (Reduced.main user) E s = (Crashes SyntaxError, s')
       /\ offline s s'.
Proof.
  intros Htoken%String.eqb_neq Hf. unfold startup. rewrite Htoken. split.
  - unfold Rich.main. rewrite mainMenu_cycle.
    rewrite (cycle_acquire_throws E s s SyntaxError); [reflexivity|].
    now apply (run_cached_garbled E s upcoming text).
  - unfold Reduced.main. rewrite reduced_mainMenu_cycle.
    erewrite reduced_cycle_acquire_throws;
      [| now apply (run_reduced_cached_garbled E s upcoming text)].
    eexists. split; [reflexivity|]. now apply offline_record.
Qed.

Lemma corrupt_snapshot_ends_session_witness :
  startup
    (Rich.main (H := Sample.RT)
       [ {| action := "Fetch New Data"; typed := None; picked := None |} ])
    Sample.online (Sample.with_files {[ snapshotFile upcoming := Garbled "{" ]})
  = (Crashes SyntaxError, Sample.with_files {[ snapshotFile upcoming := Garbled "{" ]})
  /\ exists s',
       startup
         (Reduced.main (H := Sample.RT)
            [ {| action := "Fetch New Data"; typed := None; picked := None |} ])
         Sample.online (Sample.with_files {[ snapshotFile upcoming := Garbled "{" ]})
       = (Crashes SyntaxError, s')
       /\ offline (Sample.with_files {[ snapshotFile upcoming := Garbled "{" ]}) s'.
Proof.
  apply (corrupt_snapshot_ends_session (H := Sample.RT) Sample.online
           (Sample.with_files {[ snapshotFile upcoming := Garbled "{" ]}) "{"
           [ {| action := "Fetch New Data"; typed := None; picked := None |} ]).
  - discriminate.
  - reflexivity.
Defined.

(** X10. A snapshot whose timestamp the runtime cannot read as a date is
    always refetched: the elapsed time is not a number, the cooldown test
    fails for every cooldown, and [fetchIfNeeded] makes one request and, on
    a successful response, overwrites the snapshot. *)
Theorem fetchIfNeeded_unreadable_timestamp `{Runtime} (E : Env) (s : State)
    (endpoint : string) (d : Q) (j : json) :
  fs s !! snapshotFile endpoint = Some (Doc j) ->
  j <> JNull ->
  Date_getTime (prop "lastFetched" j) = None ->
  exists o s',
    Rich.fetchIfNeeded endpoint d E s = (o, s')
    /\ calls s' = S (calls s)
    /\ fetches (trace s') = (fetches (trace s) ++ [request E endpoint])%list
    /\ forall payload,
         payload_of (next_reply E s endpoint) = Some payload ->
         fs s' = <[snapshotFile endpoint :=
                     Doc (Rich.envelope (clock E (S (ticks s))) payload)]> (fs s).
Proof.
  intros Hf Hj Ht.
  set (s1 := set_ticks (S (ticks s)) s).
  assert (Run : Rich.fetchIfNeeded endpoint d E s
                = Rich.fetchEsportsData endpoint false E s1).
  { unfold Rich.fetchIfNeeded. rewrite run_bind. unfold exists_ at 1. rewrite Hf.
    rewrite bool_decide_eq_true_2 by eauto.
    rewrite 2!run_bind, (run_readSnapshot _ _ _ j) by assumption.
    rewrite run_bind. unfold new_Date at 1. cbn [Rich.lastFetched].
    now rewrite Ht, run_ret. }
  destruct (run_fetch_path E s1 endpoint false (or_introl eq_refl))
    as (o & s' & Run' & Calls & Fetches & Fetched).
  exists o, s'. rewrite Run. split; [exact Run'|].
  split; [exact Calls|]. split; [exact Fetches|].
  intros payload Hp. unfold fetched in Fetched.
  change (next_reply E s1 endpoint) with (next_reply E s endpoint) in Fetched.
  unfold payload_of in Hp.
  destruct (next_reply E s endpoint) as [r | why]; [|discriminate].
  destruct (ok r); [|discriminate]. rewrite Hp in Fetched.
  now destruct Fetched as (_ & Fs & _).
Qed.

Lemma fetchIfNeeded_unreadable_timestamp_witness :
  exists o s',
    Rich.fetchIfNeeded (H := Sample.RT) upcoming 1000000 Sample.online
      (Sample.with_files {[ snapshotFile upcoming := Doc Sample.payload ]}) = (o, s')
    /\ calls s' = 1%nat
    /\ fetches (trace s') = [request Sample.online upcoming]
    /\ forall payload,
         Some Sample.payload = Some payload ->
         fs s' = <[snapshotFile upcoming :=
                     Doc (Rich.envelope (H := Sample.RT) (Sample.T0 + 1000) payload)]>
                   {[ snapshotFile upcoming := Doc Sample.payload ]}.
Proof.
  destruct (fetchIfNeeded_unreadable_timestamp (H := Sample.RT) Sample.online
              (Sample.with_files {[ snapshotFile upcoming := Doc Sample.payload ]})
              upcoming 1000000 Sample.payload)
    as (o & s' & Run & Calls & Fetches & Written).
  - reflexivity.
  - discriminate.
  - reflexivity.
  - exists o, s'. split; [exact Run|]. split; [exact Calls|].
    split; [exact Fetches | exact Written].
Defined.

(** ** Cycles of the main menu *)

Section CycleFacts.
Context `{Runtime}.

(** With usable data in the cache, a cycle shows the age of the data and
    the menu, and goes on as the chosen entry decides. *)
Lemma cycle_dispatches (E : Env) (s : State) (turn : Turn) (again : Async unit)
    (j payload : json) :
  fs s !! snapshotFile upcoming = Some (Doc j) ->
  j <> JNull ->
  prop "data" j = Some payload ->
  falsy (Some payload) || length_is_zero payload = false ->
  exists text s1,
    s1 = record (EvPrompt "Select an action:" Rich.menu)
           (record (EvLog (nl +:+ "Last Fetch: " +:+
                           toLocaleString (Date_getTime (prop "lastFetched" j)) +:+
                           " (" +:+ text +:+ " ago)"))
              (set_ticks (S (ticks s)) s))
    /\ Rich.cycle (Some turn) again E s
       = match Rich.dispatch turn (action turn) payload E s1 with
         | (Return true, s2) => again E s2
         | (Return false, s2) => (Return tt, s2)
         | (Throw e, s2) => (Throw e, s2)
         | (Pending, s2) => (Pending, s2)
         end.
Proof.
  intros Hf Hj Hdata Hsome. unfold Rich.cycle.
  rewrite run_bind. unfold Rich.acquire.
  rewrite (run_cached_path E s upcoming j Hf Hj).
  cbn [Rich.no_matches Rich.data]. rewrite Hdata, Hsome.
  destruct (run_timeSince (prop "lastFetched" j) E s) as [text Hts].
  rewrite run_bind, Hts, run_bind, run_console_log.
  cbn [fmap option_fmap option_map]. rewrite run_bind, run_prompt, run_bind.
  eexists text, _. split; [reflexivity|].
  destruct (Rich.dispatch turn (action turn) payload E _) as [[[|]|e|] s2];
    reflexivity.
Qed.

(** With nothing usable in the cache, a cycle says so and returns. *)
Lemma cycle_no_matches (E : Env) (s : State) (turn : option Turn)
    (again : Async unit) (j : json) :
  fs s !! snapshotFile upcoming = Some (Doc j) ->
  j <> JNull ->
  Rich.no_matches (Some {| Rich.lastFetched := prop "lastFetched" j;
                           Rich.data := prop "data" j |}) = true ->
  Rich.cycle turn again E s = (Return tt, record (EvLog "No matches found.") s).
Proof.
  intros Hf Hj Hno. unfold Rich.cycle.
  rewrite run_bind. unfold Rich.acquire.
  rewrite (run_cached_path E s upcoming j Hf Hj). now rewrite Hno.
Qed.

(** With nothing usable in the cache, a session is that one cycle. *)
Lemma empty_cache_run (E : Env) (s : State) (j : json) (user : list Turn) :
  fs s !! snapshotFile upcoming = Some (Doc j) ->
  j <> JNull ->
  Rich.no_matches (Some {| Rich.lastFetched := prop "lastFetched" j;
                           Rich.data := prop "data" j |}) = true ->
  Rich.mainMenu user E s = (Return tt, record (EvLog "No matches found.") s).
Proof.
  intros Hf Hj Hno. rewrite mainMenu_cycle. now apply (cycle_no_matches E s _ _ j).
Qed.

End CycleFacts.

(** X11. When the cached snapshot holds no matches (an empty list, or a
    document without a [data] field such as a file in the format of the
    reduced entry point), every session of the extended entry point prints
    "No matches found." and returns at once: the menu is never shown, so the
    data cannot be refreshed from within the program. *)
Theorem empty_cache_ends_session `{Runtime} (E : Env) (s : State) (j : json)
    (user : list Turn) :
  fs s !! snapshotFile upcoming = Some (Doc j) ->
  j <> JNull ->
  Rich.no_matches (Some {| Rich.lastFetched := prop "lastFetched" j;
                           Rich.data := prop "data" j |}) = true ->
  Rich.mainMenu user E s = (Return tt, record (EvLog "No matches found.") s).
Proof.
  intros Hf Hj Hno. rewrite mainMenu_cycle. now apply (cycle_no_matches E s _ _ j).
Qed.

Lemma empty_cache_ends_session_witness :
  Rich.mainMenu (H := Sample.RT)
    [ {| action := "Fetch New Data"; typed := None; picked := None |} ]
    Sample.online (Sample.with_files {[ snapshotFile upcoming := Doc Sample.payload ]})
  = (Return tt,
     record (EvLog "No matches found.")
       (Sample.with_files {[ snapshotFile upcoming := Doc Sample.payload ]})).
Proof.
  apply (empty_cache_ends_session (H := Sample.RT) Sample.online
           (Sample.with_files {[ snapshotFile upcoming := Doc Sample.payload ]})
           Sample.payload
           [ {| action := "Fetch New Data"; typed := None; picked := None |} ]).
  - reflexivity.
  - discriminate.
  - reflexivity.
Defined.

(** X12. With usable data in the cache, choosing "Exit" prints "Goodbye!"
    and ends the session: what the user would answer afterwards is never
    read, nothing is requested and the store is untouched. *)
Theorem exit_ends_session `{Runtime} (E : Env) (s : State) (turn : Turn)
    (rest : list Turn) (j payload : json) :
  fs s !! snapshotFile upcoming = Some (Doc j) ->
  j <> JNull ->
  prop "data" j = Some payload ->
  falsy (Some payload) || length_is_zero payload = false ->
  action turn = "Exit" ->
  exists line s',
    Rich.mainMenu (turn :: rest) E s = (Return tt, s')
    /\ offline s s'
    /\ trace s' = (trace s ++ [ EvLog line;
                                EvPrompt "Select an action:" Rich.menu;
                                EvLog "Goodbye!" ])%list.
Proof.
  intros Hf Hj Hdata Hsome Hact.
  destruct (cycle_dispatches E s turn (Rich.mainMenu rest) j payload
              Hf Hj Hdata Hsome) as (text & s1 & -> & Cycle).
  cbn [Rich.mainMenu]. rewrite Cycle. unfold Rich.dispatch. rewrite Hact.
  cbn [String.eqb Ascii.eqb Bool.eqb]. rewrite run_bind, run_console_log, run_ret.
  eexists _, _. split; [reflexivity|]. split.
  - repeat split; cbn; rewrite ?fetches_app, ?writes_app; cbn;
      now rewrite ?app_nil_r.
  - cbn. now rewrite <- !app_assoc.
Qed.

Lemma exit_ends_session_witness :
  exists line s',
    Rich.mainMenu (H := Sample.RT)
      [ {| action := "Exit"; typed := None; picked := None |};
        {| action := "Fetch New Data"; typed := None; picked := None |} ]
      Sample.online (Sample.cached Sample.T0) = (Return tt, s')
    /\ offline (Sample.cached Sample.T0) s'
    /\ trace s' = [ EvLog line; EvPrompt "Select an action:" Rich.menu;
                    EvLog "Goodbye!" ].
Proof.
  apply (exit_ends_session (H := Sample.RT) Sample.online (Sample.cached Sample.T0)
           {| action := "Exit"; typed := None; picked := None |}
           [ {| action := "Fetch New Data"; typed := None; picked := None |} ]
           (Rich.envelope (H := Sample.RT) Sample.T0 Sample.payload) Sample.payload).
  - reflexivity.
  - discriminate.
  - reflexivity.
  - reflexivity.
  - reflexivity.
Defined.

(** ** The two snapshot formats *)

Section FormatFacts.
Context `{Runtime}.

Lemma reduced_cycle_dispatches (E : Env) (s : State) (turn : Turn)
    (again : Async unit) (j : json) :
  fs s !! snapshotFile upcoming = Some (Doc j) ->
  Reduced.no_matches j = false ->
  Reduced.cycle (Some turn) again E s
  = match Reduced.dispatch turn (action turn) j E
            (record (EvPrompt "Select an action:" Reduced.menu)
               (record (EvLog ("Using snapshot: " +:+ snapshotFile upcoming)) s))
    with
    | (Return true, s2) => again E s2
    | (Return false, s2) => (Return tt, s2)
    | (Throw e, s2) => (Throw e, s2)
    | (Pending, s2) => (Pending, s2)
    end.
Proof.
  intros Hf Hno. unfold Reduced.cycle.
  rewrite run_bind. unfold Reduced.acquire.
  rewrite (run_reduced_cached_path E s upcoming j Hf). rewrite Hno.
  cbn [fmap option_fmap option_map]. rewrite run_bind, run_prompt, run_bind.
  destruct (Reduced.dispatch turn (action turn) j E _) as [[[|]|e|] s2];
    reflexivity.
Qed.

End FormatFacts.

(** X13. The reduced entry point cannot use a snapshot in the format of
    the extended one: with an object in the snapshot file the menu is
    shown, and choosing "View All Matches" ends the session by a type
    error, without a request and with the file left as it is. *)
Theorem reduced_session_on_object `{Runtime} (E : Env) (s : State)
    (fields : gmap string json) (turn : Turn) (rest : list Turn) :
  fs s !! snapshotFile upcoming = Some (Doc (JObj fields)) ->
  Reduced.no_matches (JObj fields) = false ->
  action turn = "View All Matches" ->
  exists s',
    Reduced.mainMenu (turn :: rest) E s = (Throw TypeError, s')
    /\ offline s s'.
Proof.
  intros Hf Hno Hact. cbn [Reduced.mainMenu].
  rewrite (reduced_cycle_dispatches E s turn _ (JObj fields) Hf Hno).
  unfold Reduced.dispatch. rewrite Hact.
  cbn [String.eqb Ascii.eqb Bool.eqb].
  eexists. split; [reflexivity|].
  eapply offline_trans; now apply offline_record.
Qed.

Lemma reduced_session_on_object_witness :
  exists s',
    Reduced.mainMenu (H := Sample.RT)
      [ {| action := "View All Matches"; typed := None; picked := Some "7" |} ]
      Sample.online (Sample.cached Sample.T0) = (Throw TypeError, s')
    /\ offline (Sample.cached Sample.T0) s'.
Proof.
  apply (reduced_session_on_object (H := Sample.RT) Sample.online
           (Sample.cached Sample.T0)
           {[ "lastFetched" := JStr (SampleRuntime.iso Sample.T0);
              "data" := Sample.payload ]}
           {| action := "View All Matches"; typed := None; picked := Some "7" |} []).
  - reflexivity.
  - reflexivity.
  - reflexivity.
Defined.

(** ** A fetch and what follows it *)

Section SuccessFacts.
Context `{Runtime}.

(** The state after a successful fetch, clock readings included. *)
Lemma run_fetch_success (E : Env) (s : State) (endpoint : string)
    (useSnapshot : bool) (payload : json) :
  attempts s endpoint useSnapshot ->
  payload_of (next_reply E s endpoint) = Some payload ->
  exists s',
    Rich.fetchEsportsData endpoint useSnapshot E s
    = (Return (Some {| Rich.lastFetched :=
                         Some (JStr (toISOString (clock E (S (ticks s)))));
                       Rich.data := Some payload |}), s')
    /\ fs s' = <[snapshotFile endpoint :=
                   Doc (Rich.envelope (clock E (ticks s)) payload)]> (fs s)
    /\ ticks s' = S (S (ticks s))
    /\ calls s' = S (calls s)
    /\ fetches (trace s') = (fetches (trace s) ++ [request E endpoint])%list.
Proof.
  intros Hc Hp. unfold Rich.fetchEsportsData.
  assert (Cached :
    (if useSnapshot then exists_ (snapshotFile endpoint) else mret false) E s
    = (Return false, s)).
  { destruct Hc as [-> | Hf]; [reflexivity|].
    destruct useSnapshot; [|reflexivity].
    unfold exists_. rewrite Hf. reflexivity. }
  rewrite run_bind, Cached. unfold payload_of, next_reply in Hp. unfold request.
  run_prims.
  destruct (network E (calls s) (BASE_URL +:+ endpoint)) as [r | why];
    [|discriminate].
  cbn -[snapshotFile ok]. destruct (ok r); [|discriminate].
  cbn -[snapshotFile]. rewrite Hp.
  eexists. split; [reflexivity|]. cbn -[snapshotFile].
  rewrite !fetches_app. cbn -[snapshotFile]. rewrite !app_nil_r.
  now repeat split.
Qed.

(** The cache hit of [fetchIfNeeded], with the state it leaves. *)
Lemma run_fetchIfNeeded_hit (E : Env) (s : State) (endpoint : string) (d : Q)
    (j : json) (last : Z) :
  fs s !! snapshotFile endpoint = Some (Doc j) ->
  j <> JNull ->
  Date_getTime (prop "lastFetched" j) = Some last ->
  (Rich.elapsedMinutes (clock E (ticks s)) last < d)%Q ->
  exists s',
    Rich.fetchIfNeeded endpoint d E s
    = (Return (Some {| Rich.lastFetched := prop "lastFetched" j;
                       Rich.data := prop "data" j |}), s')
    /\ fs s' = fs s /\ calls s' = calls s
    /\ fetches (trace s') = fetches (trace s).
Proof.
  intros Hf Hj Ht He%Qltb_lt. unfold Rich.fetchIfNeeded.
  rewrite run_bind. unfold exists_ at 1. rewrite Hf.
  rewrite bool_decide_eq_true_2 by eauto.
  rewrite 2!run_bind, (run_readSnapshot _ _ _ j) by assumption.
  rewrite run_bind. unfold new_Date at 1. cbn [Rich.lastFetched].
  rewrite Ht, He.
  eexists. split; [run_prims; reflexivity|]. cbn.
  rewrite fetches_app. cbn. now rewrite app_nil_r.
Qed.

End SuccessFacts.

(** X14. After a successful fetch the next acquisition is served from the
    cache: it makes no further request and yields the same payload. The
    timestamp it reports is the one stored at the write, while the fetch
    itself reported a later reading of the clock. *)
Theorem fetch_then_cached_read `{Runtime} (E : Env) (s : State)
    (endpoint : string) (useSnapshot : bool) (payload : json) :
  attempts s endpoint useSnapshot ->
  payload_of (next_reply E s endpoint) = Some payload ->
  exists s',
    (first ← Rich.fetchEsportsData endpoint useSnapshot;
     second ← Rich.fetchEsportsData endpoint true;
     mret (first, second)) E s
    = (Return
         (Some {| Rich.lastFetched :=
                    Some (JStr (toISOString (clock E (S (ticks s)))));
                  Rich.data := Some payload |},
          Some {| Rich.lastFetched :=
                    Some (JStr (toISOString (clock E (ticks s))));
                  Rich.data := Some payload |}), s')
    /\ calls s' = S (calls s)
    /\ fetches (trace s') = (fetches (trace s) ++ [request E endpoint])%list.
Proof.
  intros Hc Hp.
  destruct (run_fetch_success E s endpoint useSnapshot payload Hc Hp)
    as (s1 & Run & Fs & _ & Calls & Fetches).
  destruct (envelope_fields (clock E (ticks s)) payload) as (Lf & Dt & Nn).
  rewrite run_bind, Run, run_bind.
  rewrite (run_cached_path E s1 endpoint (Rich.envelope (clock E (ticks s)) payload));
    [| rewrite Fs; apply lookup_insert_eq | exact Nn].
  rewrite Lf, Dt, run_ret. now exists s1.
Qed.

Lemma fetch_then_cached_read_witness :
  exists s',
    (first ← Rich.fetchEsportsData (H := Sample.RT) upcoming true;
     second ← Rich.fetchEsportsData (H := Sample.RT) upcoming true;
     mret (first, second)) Sample.online Sample.empty
    = (Return
         (Some {| Rich.lastFetched := Some (JStr "2023-11-14T22:13:21.000Z");
                  Rich.data := Some Sample.payload |},
          Some {| Rich.lastFetched := Some (JStr "2023-11-14T22:13:20.000Z");
                  Rich.data := Some Sample.payload |}), s')
    /\ calls s' = 1%nat
    /\ fetches (trace s') = [request Sample.online upcoming].
Proof.
  apply (fetch_then_cached_read (H := Sample.RT) Sample.online Sample.empty
           upcoming true Sample.payload).
  - now right.
  - reflexivity.
Defined.

(** X15. Two calls of [fetchIfNeeded] within the cooldown make one request:
    starting without a snapshot, the first call fetches and writes, and the
    second, made before the cooldown has elapsed since the instant of the
    write, returns the stored snapshot. The runtime is taken to read back
    the timestamp it printed. *)
Theorem fetchIfNeeded_twice `{Runtime} (E : Env) (s : State)
    (endpoint : string) (d : Q) (payload : json) :
  fs s !! snapshotFile endpoint = None ->
  payload_of (next_reply E s endpoint) = Some payload ->
  Date_getTime (Some (JStr (toISOString (clock E (ticks s)))))
  = Some (clock E (ticks s)) ->
  (Rich.elapsedMinutes (clock E (S (S (ticks s)))) (clock E (ticks s)) < d)%Q ->
  exists s',
    (Rich.fetchIfNeeded endpoint d;; Rich.fetchIfNeeded endpoint d) E s
    = (Return (Some {| Rich.lastFetched :=
                         Some (JStr (toISOString (clock E (ticks s))));
                       Rich.data := Some payload |}), s')
    /\ calls s' = S (calls s)
    /\ fetches (trace s') = (fetches (trace s) ++ [request E endpoint])%list
    /\ fs s' = <[snapshotFile endpoint :=
                   Doc (Rich.envelope (clock E (ticks s)) payload)]> (fs s).
Proof.
  intros Hf Hp Hread Hrecent.
  rewrite run_bind, (fetchIfNeeded_due E s endpoint d None Hf).
  cbn [readings_before_write]. rewrite Nat.add_0_r.
  replace (set_ticks (ticks s) s) with s by now destruct s.
  destruct (run_fetch_success E s endpoint false payload (or_introl eq_refl) Hp)
    as (s1 & Run & Fs & Ticks & Calls & Fetches).
  rewrite Run.
  destruct (envelope_fields (clock E (ticks s)) payload) as (Lf & Dt & Nn).
  destruct (run_fetchIfNeeded_hit E s1 endpoint d
              (Rich.envelope (clock E (ticks s)) payload) (clock E (ticks s)))
    as (s2 & Run2 & Fs2 & Calls2 & Fetches2).
  - rewrite Fs. apply lookup_insert_eq.
  - exact Nn.
  - now rewrite Lf.
  - now rewrite Ticks.
  - rewrite Run2, Lf, Dt. exists s2. repeat split; congruence.
Qed.

Lemma fetchIfNeeded_twice_witness :
  exists s',
    (Rich.fetchIfNeeded (H := Sample.RT) upcoming 10;;
     Rich.fetchIfNeeded (H := Sample.RT) upcoming 10) Sample.online Sample.empty
    = (Return (Some {| Rich.lastFetched := Some (JStr "2023-11-14T22:13:20.000Z");
                       Rich.data := Some Sample.payload |}), s')
    /\ calls s' = 1%nat
    /\ fetches (trace s') = [request Sample.online upcoming]
    /\ fs s' = {[ snapshotFile upcoming :=
                    Doc (Rich.envelope (H := Sample.RT) Sample.T0 Sample.payload) ]}.
Proof.
  destruct (fetchIfNeeded_twice (H := Sample.RT) Sample.online Sample.empty
              upcoming 10 Sample.payload)
    as (s' & Run & Calls & Fetches & Fs).
  - reflexivity.
  - reflexivity.
  - vm_compute. reflexivity.
  - vm_compute. reflexivity.
  - exists s'. split; [exact Run|]. split; [exact Calls|].
    split; [exact Fetches|]. rewrite Fs. reflexivity.
Defined.

(** ** The list of matches *)

Section ListMenuFacts.
Context `{Runtime}.

Lemma pretty_N_go_ne_g (x : N) (s s' : string) :
  s <> "g" +:+ s' -> pretty_N_go x s <> "g" +:+ s'.
Proof.
  revert s. induction (N.lt_wf_0 x) as [x _ IH]; intros s Hs.
  assert (x = 0 \/ 0 < x)%N as [->|Hx] by lia.
  - now rewrite pretty_N_go_0.
  - rewrite pretty_N_go_step by assumption. apply IH.
    + now apply N.div_lt.
    + unfold pretty_N_char. repeat case_match; discriminate.
Qed.

(** No identifier prints as the value of the "Go Back" entry. *)
Lemma pretty_Z_ne_go_back (z : Z) : pretty z <> "go_back".
Proof.
  destruct z as [|p|p]; [discriminate | | discriminate].
  change (pretty (Z.pos p)) with (pretty_N_go (N.pos p) "").
  now apply (pretty_N_go_ne_g (N.pos p) "" "o_back").
Qed.

(** [find] by identifier returns the first match that carries it. *)
Lemma find_by_id (matches : list Match) (m : Match) :
  In m matches ->
  exists pre shown post,
    matches = (pre ++ shown :: post)%list
    /\ (forall x, In x pre -> match_id x <> match_id m)
    /\ match_id shown = match_id m
    /\ List.find (fun x => String.eqb (pretty (match_id x)) (pretty (match_id m)))
         matches = Some shown.
Proof.
  induction matches as [|x l IH]; intros Hin; [destruct Hin|].
  destruct (decide (match_id x = match_id m)) as [Heq|Hne].
  - exists [], x, l. repeat split; [intros ? []| exact Heq |].
    cbn [List.find]. now rewrite Heq, String.eqb_refl.
  - destruct Hin as [->|Hin]; [congruence|].
    destruct (IH Hin) as (pre & shown & post & -> & Hpre & Hid & Hfind).
    exists (x :: pre), shown, post. repeat split; [|exact Hid|].
    + intros y [<-|Hy]; [exact Hne | now apply Hpre].
    + cbn [List.find].
      replace (String.eqb (pretty (match_id x)) (pretty (match_id m))) with false;
        [exact Hfind|].
      symmetry. apply String.eqb_neq. intros Hp. apply Hne.
      now apply (inj pretty).
Qed.

Lemma run_log_lines (lines : list string) (acc : Async unit) (E : Env) (s s1 : State) :
  acc E s = (Return tt, s1) ->
  exists s', foldl (fun acc line => acc;; console_log line) acc lines E s
             = (Return tt, s').
Proof.
  revert acc s1. induction lines as [|line lines IH]; intros acc s1 Hacc.
  - now exists s1.
  - cbn [foldl]. eapply IH. rewrite run_bind, Hacc. apply run_console_log.
Qed.

Lemma displayMatchDetails_returns (m : Match) (E : Env) (s : State) :
  exists s', displayMatchDetails m E s = (Return tt, s') /\ offline s s'.
Proof.
  pose proof (quiet_displayMatchDetails m E s) as Q.
  assert (R : exists s', displayMatchDetails m E s = (Return tt, s')).
  { unfold displayMatchDetails. rewrite !run_bind, !run_console_log.
    eapply run_log_lines. reflexivity. }
  destruct R as [s' R]. exists s'. rewrite R in Q. now split.
Qed.

End ListMenuFacts.

(** X16. Choosing a match in the list shows the details of the first match
    of the list that carries the chosen identifier, then a blank line, and
    returns; choosing "Go Back" shows nothing. No identifier can be taken
    for the "Go Back" entry. *)
Theorem matchListMenu_selection `{Runtime} (E : Env) (s : State)
    (matches : list Match) (m : Match) :
  In m matches ->
  (exists pre shown post s1 s',
     matches = (pre ++ shown :: post)%list
     /\ (forall x, In x pre -> match_id x <> match_id m)
     /\ match_id shown = match_id m
     /\ s1 = record (EvPrompt "Select a match to view details:"
                       ((fst <$> (match_option <$> matches)) ++ ["Go Back"])) s
     /\ matchListMenu matches (Some (pretty (match_id m))) E s
        = (displayMatchDetails shown;; console_log nl) E s1
     /\ matchListMenu matches (Some (pretty (match_id m))) E s = (Return tt, s')
     /\ offline s s')
  /\ matchListMenu matches (Some "go_back") E s
     = (Return tt,
        record (EvPrompt "Select a match to view details:"
                  ((fst <$> (match_option <$> matches)) ++ ["Go Back"])) s).
Proof.
  intros Hin. split; [|reflexivity].
  destruct (find_by_id matches m Hin) as (pre & shown & post & Heq & Hpre & Hid & Hfind).
  set (s1 := record (EvPrompt "Select a match to view details:"
                       ((fst <$> (match_option <$> matches)) ++ ["Go Back"])) s).
  assert (Run : matchListMenu matches (Some (pretty (match_id m))) E s
                = (displayMatchDetails shown;; console_log nl) E s1).
  { unfold matchListMenu. rewrite run_bind, run_prompt. fold s1.
    replace (String.eqb (pretty (match_id m)) "go_back") with false
      by (symmetry; apply String.eqb_neq, pretty_Z_ne_go_back).
    now rewrite Hfind. }
  destruct (displayMatchDetails_returns shown E s1) as (s2 & Shown & Off).
  exists pre, shown, post, s1, (record (EvLog nl) s2).
  split; [exact Heq|]. split; [exact Hpre|]. split; [exact Hid|].
  split; [reflexivity|]. split; [exact Run|]. split.
  - rewrite Run, run_bind, Shown. apply run_console_log.
  - apply (offline_trans s s1); [now apply offline_record|].
    apply (offline_trans s1 s2); [exact Off | now apply offline_record].
Qed.

Lemma matchListMenu_selection_witness :
  (exists pre shown post s1 s',
     [Sample.semifinal; named "Rematch" Sample.semifinal]
     = (pre ++ shown :: post)%list
     /\ (forall x, In x pre -> match_id x <> 7%Z)
     /\ match_id shown = 7%Z
     /\ s1 = record (EvPrompt "Select a match to view details:"
                       ((fst <$> (match_option (H := Sample.RT) <$>
                                    [Sample.semifinal; named "Rematch" Sample.semifinal]))
                        ++ ["Go Back"])) Sample.empty
     /\ matchListMenu (H := Sample.RT)
          [Sample.semifinal; named "Rematch" Sample.semifinal] (Some "7")
          Sample.online Sample.empty
        = (displayMatchDetails (H := Sample.RT) shown;; console_log nl)
            Sample.online s1
     /\ matchListMenu (H := Sample.RT)
          [Sample.semifinal; named "Rematch" Sample.semifinal] (Some "7")
          Sample.online Sample.empty = (Return tt, s')
     /\ offline Sample.empty s')
  /\ matchListMenu (H := Sample.RT)
       [Sample.semifinal; named "Rematch" Sample.semifinal] (Some "go_back")
       Sample.online Sample.empty
     = (Return tt,
        record (EvPrompt "Select a match to view details:"
                  ((fst <$> (match_option (H := Sample.RT) <$>
                               [Sample.semifinal; named "Rematch" Sample.semifinal]))
                   ++ ["Go Back"])) Sample.empty).
Proof.
  apply (matchListMenu_selection (H := Sample.RT) Sample.online Sample.empty
           [Sample.semifinal; named "Rematch" Sample.semifinal]
           (named "Rematch" Sample.semifinal)).
  right. now left.
Defined.

(** ** A filter entry of the menu *)

Section FilterTurnFacts.
Context `{Runtime}.

Lemma as_opponent_of_opponent (o : Opponent) :
  Decode.as_opponent (Decode.of_opponent o) = Some o.
Proof. destruct o as [i n [a|] [l|]]; reflexivity. Qed.

Lemma as_opponents_of_opponents (ops : list Opponent) :
  mapM Decode.as_opponent (Decode.of_opponent <$> ops) = Some ops.
Proof.
  induction ops as [|o ops IH]; [reflexivity|].
  cbn [fmap list_fmap mapM]. change (list_fmap _ _ Decode.of_opponent ops)
    with (Decode.of_opponent <$> ops).
  rewrite as_opponent_of_opponent. cbn [mbind option_bind].
  rewrite IH. reflexivity.
Qed.

Lemma as_match_of_match (m : Match) :
  Decode.as_match (Decode.of_match m) = Some m.
Proof.
  destruct m as [i n sch st [g] [lg] [tn] ops].
  unfold Decode.as_match.
  replace (prop "opponents" (Decode.of_match _))
    with (Some (JArr (Decode.of_opponent <$> ops))) by reflexivity.
  rewrite as_opponents_of_opponents. reflexivity.
Qed.

(** A list of matches, serialized and decoded, is the list. *)
Lemma as_matches_of_matches (ms : list Match) :
  Decode.as_matches (Decode.of_matches ms) = Some ms.
Proof.
  unfold Decode.as_matches, Decode.of_matches.
  induction ms as [|m ms IH]; [reflexivity|].
  cbn [fmap list_fmap mapM]. change (list_fmap _ _ Decode.of_match ms)
    with (Decode.of_match <$> ms).
  rewrite as_match_of_match. cbn [mbind option_bind]. rewrite IH. reflexivity.
Qed.

End FilterTurnFacts.

Section FilterTurnRun.
Context `{Runtime}.

Lemma run_show_go_back (kept : list Match) (msg : string) (E : Env) (s : State) :
  exists last,
    Rich.show kept msg (Some "go_back") E s = (Return tt, record last s)
    /\ filter_outcome last kept
    /\ is_fetch last = false /\ is_write last = false.
Proof.
  destruct kept as [|m kept].
  - exists (EvLog msg). split; [reflexivity|]. split; [now exists msg | now split].
  - eexists. split; [reflexivity|]. now repeat split.
Qed.

(** A payload that decodes to matches, at least one, is not taken for no
    matches. *)
Lemma nonempty_payload (payload : json) (ms : list Match) :
  Decode.as_matches payload = Some ms ->
  ms <> [] ->
  falsy (Some payload) || length_is_zero payload = false.
Proof.
  destruct payload as [| | | |items|]; try discriminate.
  destruct items as [|item items]; [|reflexivity].
  cbn. intros [= <-]. congruence.
Qed.

Lemma run_query_dispatch (E : Env) (s : State) (turn : Turn) (payload : json)
    (ms : list Match) (filter : list Match -> string -> list Match) (q : string) :
  Decode.as_matches payload = Some ms ->
  query_filter (action turn) = Some filter ->
  typed turn = Some q ->
  picked turn = Some "go_back" ->
  exists question last,
    Rich.dispatch turn (action turn) payload E s
    = (Return true, record last (record (EvPrompt question []) s))
    /\ filter_outcome last (filter ms q)
    /\ is_fetch last = false /\ is_write last = false.
Proof.
  destruct turn as [act ty pk]. cbn [action typed picked].
  intros Hms Hq -> ->. unfold query_filter in Hq.
  destruct (String.eqb act "Filter by Game") eqn:G;
    [|destruct (String.eqb act "Filter by League") eqn:L;
      [|destruct (String.eqb act "Search Matches") eqn:S; [|discriminate]]].
  all: match goal with
       | Hact : String.eqb ?a _ = true |- _ => apply String.eqb_eq in Hact; subst a
       end.
  all: injection Hq as <-.
  all: unfold Rich.dispatch; cbn [String.eqb Ascii.eqb Bool.eqb typed picked].
  all: rewrite run_bind, run_prompt, run_bind.
  all: unfold as_Match_array; rewrite Hms, run_ret, run_bind.
  all: match goal with
       | |- context [Rich.show ?kept ?msg _ ?E0 ?s0] =>
           destruct (run_show_go_back kept msg E0 s0) as (last & Run & Out & Nf & Nw)
       end.
  all: rewrite Run, run_ret; eexists _, last; split; [reflexivity|];
       now repeat split.
Qed.

End FilterTurnRun.

(** X17. Each of the three entries of the extended menu that ask for a text
    applies its filter to all the cached matches: for every cached answer
    that reads as a list of matches, whatever further fields its objects
    carry, the list offered (or the message shown when nothing is kept) is
    that of the filter on the whole cached list, and after "Go Back" the
    session goes on to its next cycle with the store untouched and no
    request made, so that the next filter again starts from the whole
    cached list. *)
Theorem filter_turn_uses_whole_cache `{Runtime} (E : Env) (s : State)
    (turn : Turn) (rest : list Turn) (j payload : json) (ms : list Match)
    (filter : list Match -> string -> list Match) (q : string) :
  fs s !! snapshotFile upcoming = Some (Doc j) ->
  j <> JNull ->
  prop "data" j = Some payload ->
  Decode.as_matches payload = Some ms ->
  ms <> [] ->
  query_filter (action turn) = Some filter ->
  typed turn = Some q ->
  picked turn = Some "go_back" ->
  exists line question last s1,
    Rich.mainMenu (turn :: rest) E s = Rich.mainMenu rest E s1
    /\ offline s s1
    /\ trace s1 = (trace s ++ [ EvLog line;
                                EvPrompt "Select an action:" Rich.menu;
                                EvPrompt question [];
                                last ])%list
    /\ filter_outcome last (filter ms q).
Proof.
  intros Hf Hj Hdata Hdec Hms Hq Hty Hpk.
  destruct (cycle_dispatches E s turn (Rich.mainMenu rest) j payload
              Hf Hj Hdata (nonempty_payload payload ms Hdec Hms))
    as (text & s0 & -> & Cycle).
  cbn [Rich.mainMenu]. rewrite Cycle.
  match goal with
  | |- context [Rich.dispatch _ _ _ _ ?s0] =>
      destruct (run_query_dispatch E s0 turn payload ms filter q Hdec Hq Hty Hpk)
        as (question & last & Run & Out & Nf & Nw)
  end.
  rewrite Run. eexists _, question, last, _. split; [reflexivity|]. split.
  - repeat split; cbn; rewrite ?fetches_app, ?writes_app; cbn;
      rewrite ?Nf, ?Nw; now rewrite ?app_nil_r.
  - split; [|exact Out]. cbn. now rewrite <- !app_assoc.
Qed.

Lemma filter_turn_uses_whole_cache_witness :
  exists line question last s1,
    Rich.mainMenu (H := Sample.RT)
      [ {| action := "Filter by League"; typed := Some "esl";
           picked := Some "go_back" |} ]
      Sample.online (Sample.detailed Sample.T0)
    = Rich.mainMenu (H := Sample.RT) [] Sample.online s1
    /\ offline (Sample.detailed Sample.T0) s1
    /\ trace s1 = [ EvLog line; EvPrompt "Select an action:" Rich.menu;
                    EvPrompt question []; last ]
    /\ filter_outcome (H := Sample.RT) last
         (filterByLeague (H := BasicLatin) [Sample.semifinal] "esl").
Proof.
  apply (filter_turn_uses_whole_cache (H := Sample.RT) Sample.online
           (Sample.detailed Sample.T0)
           {| action := "Filter by League"; typed := Some "esl";
              picked := Some "go_back" |} []
           (Rich.envelope (H := Sample.RT) Sample.T0 Sample.detailed_payload)
           Sample.detailed_payload
           [Sample.semifinal] (filterByLeague (H := BasicLatin)) "esl").
  - reflexivity.
  - discriminate.
  - reflexivity.
  - vm_compute. reflexivity.
  - discriminate.
  - reflexivity.
  - reflexivity.
  - reflexivity.
Defined.

(** ** The requests of a session *)

Section RequestFacts.
Context `{Runtime}.

Lemma steady_of_quiet {A} (m : Async A) : quiet m -> steady 0 m.
Proof.
  intros Q E s Hs. destruct (Q E s) as (Fs & Cs & _).
  unfold has_snapshot in *. rewrite Fs, Cs. split; [lia | exact Hs].
Qed.

Lemma steady_weaken {A} (n n' : nat) (m : Async A) :
  (n <= n')%nat -> steady n m -> steady n' m.
Proof. intros Le St E s Hs. destruct (St E s Hs). split; [lia | assumption]. Qed.

Lemma steady_bind {A B} (n k : nat) (m : Async A) (f : A -> Async B)
    (P : A -> Prop) :
  steady n m ->
  (forall E s a s', m E s = (Return a, s') -> P a) ->
  (forall a, P a -> steady k (f a)) ->
  steady (n + k) (m ≫= f).
Proof.
  intros Sm Post Sf E s Hs. rewrite run_bind.
  destruct (Sm E s Hs) as [Cm Hm]. specialize (Post E s).
  destruct (m E s) as [[a|e|] s1]; cbn [snd] in *;
    [| split; [lia | assumption] ..].
  destruct (Sf a (Post a s1 eq_refl) E s1 Hm). split; [lia | assumption].
Qed.

Lemma steady_seq {A B} (n k : nat) (m : Async A) (f : A -> Async B) :
  steady n m -> (forall a, steady k (f a)) -> steady (n + k) (m ≫= f).
Proof.
  intros Sm Sf. apply (steady_bind n k m f (fun _ => True)); auto.
Qed.

(** The fetch of the extended entry point: at most one request, and what
    it writes is the snapshot file. *)
Lemma steady_fetchEsportsData (useSnapshot : bool) :
  steady 1 (Rich.fetchEsportsData upcoming useSnapshot).
Proof.
  intros E s Hs. destruct useSnapshot.
  - destruct (quiet_on_acquire (fs s) Hs E s eq_refl) as (Fs & Cs & _).
    unfold Rich.acquire in *. unfold has_snapshot. rewrite Fs, Cs.
    split; [lia | exact Hs].
  - destruct (run_fetch_path E s upcoming false (or_introl eq_refl))
      as (o & s' & Run & Calls & _ & Fetched).
    rewrite Run. cbn [snd]. split; [lia|].
    unfold fetched in Fetched. unfold has_snapshot in *.
    destruct (next_reply E s upcoming) as [r|why];
      [destruct (ok r); [destruct (body r)|]|];
      destruct Fetched as (_ & Fs & _); rewrite Fs;
      first [exact Hs | rewrite lookup_insert_eq; eauto].
Qed.

Lemma steady_fetchIfNeeded (d : Q) : steady 1 (Rich.fetchIfNeeded upcoming d).
Proof.
  unfold Rich.fetchIfNeeded.
  apply (steady_seq 0 1); [apply steady_of_quiet; auto with quiet | intros present].
  apply (steady_seq 0 1).
  - apply steady_of_quiet. apply quiet_if; [|auto with quiet].
    apply quiet_bind; [apply quiet_readSnapshot | intros snap].
    apply quiet_bind; [auto with quiet | intros now].
    destruct (Date_getTime _); [|auto with quiet].
    apply quiet_if; [quiet_steps | auto with quiet].
  - intros [snap|]; [apply (steady_weaken 0); [lia|]; apply steady_of_quiet;
                     auto with quiet|].
    apply steady_fetchEsportsData.
Qed.

Lemma steady_dispatch (turn : Turn) (payload : json) :
  steady (asks (Some turn)) (Rich.dispatch turn (action turn) payload).
Proof.
  cbn [asks]. destruct (String.eqb (action turn) "Fetch New Data") eqn:Hact.
  - unfold Rich.dispatch. rewrite Hact.
    apply (steady_seq 0 1); [apply steady_of_quiet; auto with quiet | intros _].
    cbv zeta.
    apply (steady_seq 1 0); [apply steady_fetchIfNeeded | intros newResponse].
    apply steady_of_quiet. destruct newResponse; quiet_steps.
  - apply steady_of_quiet, quiet_dispatch. now apply String.eqb_neq.
Qed.

(** What is known after the acquisition of a cycle. *)
Lemma acquire_requests (E : Env) (s : State) :
  exists o s1,
    Rich.acquire E s = (o, s1)
    /\ (calls s1 <= S (calls s))%nat
    /\ (has_snapshot s -> calls s1 = calls s /\ has_snapshot s1)
    /\ (forall r, o = Return r -> Rich.no_matches r = false -> has_snapshot s1).
Proof.
  destruct (fs s !! snapshotFile upcoming) as [file|] eqn:Hf.
  - assert (Hs : has_snapshot s) by (unfold has_snapshot; eauto).
    destruct (quiet_on_acquire (fs s) Hs E s eq_refl) as (Fs & Cs & _).
    destruct (Rich.acquire E s) as [o s1]. cbn [snd] in *.
    assert (has_snapshot s1) by (unfold has_snapshot in *; now rewrite Fs).
    exists o, s1. split; [reflexivity|]. split; [lia|]. now split.
  - destruct (run_fetch_path E s upcoming true (or_intror Hf))
      as (o & s1 & Run & Calls & _ & Fetched).
    exists o, s1. split; [exact Run|]. split; [lia|]. split.
    + intros [file Hfile]. congruence.
    + intros r -> Hno. unfold fetched in Fetched. unfold has_snapshot.
      destruct (next_reply E s upcoming) as [rp|why];
        [destruct (ok rp); [destruct (body rp)|]|];
        destruct Fetched as (Ho & Fs & _); try discriminate.
      * rewrite Fs, lookup_insert_eq. eauto.
      * injection Ho as ->. discriminate.
Qed.

(** One cycle: the acquisition makes a request only when the store holds
    no snapshot, the chosen entry only when it is "Fetch New Data". *)
Lemma cycle_requests (turn : option Turn) (again : Async unit) (n : nat)
    (E : Env) (s : State) :
  steady n again ->
  (calls (Rich.cycle turn again E s).2 <= calls s + 1 + asks turn + n)%nat
  /\ (has_snapshot s ->
      (calls (Rich.cycle turn again E s).2 <= calls s + asks turn + n)%nat
      /\ has_snapshot (Rich.cycle turn again E s).2).
Proof.
  intros Sagain. unfold Rich.cycle. rewrite run_bind.
  destruct (acquire_requests E s) as (o & s1 & Acq & Le & Cached & Usable).
  rewrite Acq.
  destruct o as [response|e|]; cbn [snd];
    [| split; [lia | intros Hs; destruct (Cached Hs); split; [lia | assumption]] ..].
  specialize (Usable response eq_refl).
  destruct (Rich.no_matches response).
  { rewrite run_console_log. cbn [snd calls fs record].
    split; [lia|]. intros Hs. destruct (Cached Hs). split; [lia | assumption]. }
  specialize (Usable eq_refl).
  match goal with
  | |- context [(?rest E s1).2] =>
      assert (Srest : steady (asks turn + n) rest)
  end.
  { destruct response as [[lastFetched [payload|]]|];
      try solve [apply (steady_weaken 0); [lia|]; apply steady_of_quiet;
                 auto with quiet].
    replace (asks turn + n)%nat with (0 + (0 + (0 + (asks turn + n))))%nat by lia.
    apply steady_seq; [apply steady_of_quiet; auto with quiet | intros text].
    apply steady_seq; [apply steady_of_quiet; auto with quiet | intros _].
    apply (steady_bind 0 _ _ _ (fun act => action <$> turn = Some act));
      [apply steady_of_quiet; auto with quiet
      | intros E0 s0 a s0'; apply prompt_answer
      | intros act Hact].
    destruct turn as [t|]; [|discriminate].
    injection Hact as <-.
    apply steady_seq; [apply steady_dispatch | intros continue].
    destruct continue; [exact Sagain|].
    apply (steady_weaken 0); [lia|]. apply steady_of_quiet; auto with quiet. }
  destruct (Srest E s1 Usable) as [Crest Hrest].
  split; [lia|]. intros Hs. destruct (Cached Hs). split; [lia | assumption].
Qed.

Lemma refreshes_cons (turn : Turn) (rest : list Turn) :
  refreshes (turn :: rest) = (asks (Some turn) + refreshes rest)%nat.
Proof. reflexivity. Qed.

Lemma steady_mainMenu (user : list Turn) :
  steady (refreshes user) (Rich.mainMenu user).
Proof.
  induction user as [|turn rest IH]; cbn [Rich.mainMenu].
  - intros E s Hs.
    destruct (cycle_requests None (mret tt) 0 E s) as [_ St];
      [apply steady_of_quiet; auto with quiet|].
    destruct (St Hs). cbn [asks refreshes] in *. split; [lia | assumption].
  - intros E s Hs. rewrite refreshes_cons.
    destruct (cycle_requests (Some turn) (Rich.mainMenu rest) (refreshes rest) E s IH)
      as [_ St].
    destruct (St Hs). split; [lia | assumption].
Qed.

Lemma first_request_cached (s : State) :
  has_snapshot s -> first_request s = 0%nat.
Proof. intros [file Hf]. unfold first_request. now rewrite Hf. Qed.

(** The same for the reduced entry point, no entry of which fetches. *)
Lemma reduced_acquire_requests (E : Env) (s : State) :
  exists o s1,
    Reduced.acquire E s = (o, s1)
    /\ (calls s1 <= calls s + first_request s)%nat
    /\ (forall payload, o = Return payload -> Reduced.no_matches payload = false ->
        has_snapshot s1).
Proof.
  unfold first_request.
  destruct (fs s !! snapshotFile upcoming) as [file|] eqn:Hf.
  - assert (Hs : has_snapshot s) by (unfold has_snapshot; eauto).
    destruct (quiet_on_reduced_acquire (fs s) Hs E s eq_refl) as (Fs & Cs & _).
    destruct (Reduced.acquire E s) as [o s1]. cbn [snd] in *.
    exists o, s1. split; [reflexivity|]. split; [lia|].
    intros _ _ _. unfold has_snapshot in *. now rewrite Fs.
  - destruct (run_reduced_fetch_path E s upcoming true (or_intror Hf))
      as (o & s1 & Run & Calls & _ & Fetched).
    exists o, s1. split; [exact Run|]. split; [lia|].
    intros payload -> Hno. unfold reduced_fetched in Fetched. unfold has_snapshot.
    destruct (next_reply E s upcoming) as [rp|why];
      [destruct (ok rp); [destruct (body rp)|]|];
      destruct Fetched as (Ho & Fs & _); try discriminate.
    + rewrite Fs, lookup_insert_eq. eauto.
    + injection Ho as ->. discriminate.
Qed.

Lemma reduced_cycle_requests (turn : option Turn) (again : Async unit)
    (E : Env) (s : State) :
  (forall F, is_Some (F !! snapshotFile upcoming) -> quiet_on F again) ->
  (calls (Reduced.cycle turn again E s).2 <= calls s + first_request s)%nat.
Proof.
  intros Qagain. unfold Reduced.cycle. rewrite run_bind.
  destruct (reduced_acquire_requests E s) as (o & s1 & Acq & Le & Usable).
  rewrite Acq. destruct o as [payload|e|]; cbn [snd]; [|lia..].
  specialize (Usable payload eq_refl).
  destruct (Reduced.no_matches payload).
  { rewrite run_console_log. cbn [snd calls record]. lia. }
  specialize (Usable eq_refl).
  match goal with
  | |- context [(?rest E s1).2] => assert (Qrest : quiet_on (fs s1) rest)
  end.
  { apply (quiet_on_bind _ _ _ (fun _ => True));
      [apply quiet_on_of_quiet; auto with quiet | done | intros act _].
    destruct turn as [t|]; [|apply quiet_on_of_quiet; auto with quiet].
    apply (quiet_on_bind _ _ _ (fun _ => True));
      [apply quiet_on_of_quiet, quiet_reduced_dispatch | done | intros continue _].
    destruct continue; [now apply Qagain | apply quiet_on_of_quiet; auto with quiet]. }
  destruct (Qrest E s1 eq_refl) as (_ & Cs & _). lia.
Qed.

End RequestFacts.

(** X18. A session requests the matches only when it must or when it is
    asked to. The extended entry point makes at most one request at its
    first acquisition, and none there when the store holds a snapshot file,
    plus at most one for each "Fetch New Data" chosen; the reduced entry
    point makes the first of these requests only. *)
Theorem session_request_bound `{Runtime} (E : Env) (s : State) (user : list Turn) :
  (calls (Rich.mainMenu user E s).2
   <= calls s + first_request s + refreshes user)%nat
  /\ (calls (Reduced.mainMenu user E s).2 <= calls s + first_request s)%nat.
Proof.
  split.
  - destruct (fs s !! snapshotFile upcoming) as [file|] eqn:Hf.
    + assert (Hs : has_snapshot s) by (unfold has_snapshot; eauto).
      rewrite (first_request_cached s Hs).
      destruct (steady_mainMenu user E s Hs). lia.
    + unfold first_request. rewrite Hf.
      destruct user as [|turn rest]; cbn [Rich.mainMenu].
      * destruct (cycle_requests None (mret tt) 0 E s) as [Le _];
          [apply steady_of_quiet; auto with quiet|].
        cbn [asks] in Le. change (refreshes []) with 0%nat. lia.
      * rewrite refreshes_cons.
        destruct (cycle_requests (Some turn) (Rich.mainMenu rest) (refreshes rest)
                    E s (steady_mainMenu rest)) as [Le _].
        lia.
  - destruct user as [|turn rest]; cbn [Reduced.mainMenu];
      apply reduced_cycle_requests; intros F HF.
    + apply quiet_on_of_quiet; auto with quiet.
    + now apply quiet_on_reduced_mainMenu.
Qed.

(** ** Answers that cannot be used *)

(** X19. A response with a success status whose body is not JSON makes
    the fetch reject with a syntax error after its one request; nothing is
    written, so that a snapshot in the store is as it was. *)
Theorem unreadable_body_rejects `{Runtime} (E : Env) (s : State)
    (endpoint : string) (useSnapshot : bool) :
  attempts s endpoint useSnapshot ->
  unreadable_body (next_reply E s endpoint) = true ->
  (exists s',
     Rich.fetchEsportsData endpoint useSnapshot E s = (Throw SyntaxError, s')
     /\ calls s' = S (calls s) /\ fs s' = fs s
     /\ writes (trace s') = writes (trace s))
  /\ (exists s',
        Reduced.fetchEsportsData endpoint useSnapshot E s = (Throw SyntaxError, s')
        /\ calls s' = S (calls s) /\ fs s' = fs s
        /\ writes (trace s') = writes (trace s)).
Proof.
  intros Hc Hbody. unfold unreadable_body in Hbody. split.
  - destruct (run_fetch_path E s endpoint useSnapshot Hc)
      as (o & s' & Run & Calls & _ & Fetched).
    unfold fetched in Fetched.
    destruct (next_reply E s endpoint) as [r|why]; [|discriminate].
    apply andb_prop in Hbody as [Hok Hb]. rewrite Hok in Fetched.
    destruct (body r); [discriminate|]. destruct Fetched as (-> & Fs & Ws).
    now exists s'.
  - destruct (run_reduced_fetch_path E s endpoint useSnapshot Hc)
      as (o & s' & Run & Calls & _ & Fetched).
    unfold reduced_fetched in Fetched.
    destruct (next_reply E s endpoint) as [r|why]; [|discriminate].
    apply andb_prop in Hbody as [Hok Hb]. rewrite Hok in Fetched.
    destruct (body r); [discriminate|]. destruct Fetched as (-> & Fs & Ws).
    now exists s'.
Qed.

Lemma unreadable_body_rejects_witness :
  (exists s',
     Rich.fetchEsportsData (H := Sample.RT) upcoming false Sample.garbling
       (Sample.cached Sample.T0) = (Throw SyntaxError, s')
     /\ calls s' = 1%nat /\ fs s' = fs (Sample.cached Sample.T0)
     /\ writes (trace s') = [])
  /\ (exists s',
        Reduced.fetchEsportsData (H := Sample.RT) upcoming false Sample.garbling
          (Sample.cached Sample.T0) = (Throw SyntaxError, s')
        /\ calls s' = 1%nat /\ fs s' = fs (Sample.cached Sample.T0)
        /\ writes (trace s') = []).
Proof.
  apply (unreadable_body_rejects (H := Sample.RT) Sample.garbling
           (Sample.cached Sample.T0) upcoming false).
  - now left.
  - reflexivity.
Defined.

(** X20. An answer without matches is cached like any other: when the
    store holds no snapshot and the server answers with a payload that
    counts as no matches, the session writes it, prints "No matches
    found." and returns after its one request; from then on every session,
    whatever the server and the user, ends in the same way without a
    request. *)
Theorem empty_answer_is_cached `{Runtime} (E : Env) (s : State)
    (user : list Turn) (payload : json) :
  fs s !! snapshotFile upcoming = None ->
  payload_of (next_reply E s upcoming) = Some payload ->
  falsy (Some payload) || length_is_zero payload = true ->
  exists s1,
    Rich.mainMenu user E s = (Return tt, s1)
    /\ calls s1 = S (calls s)
    /\ fs s1 = <[snapshotFile upcoming :=
                   Doc (Rich.envelope (clock E (ticks s)) payload)]> (fs s)
    /\ forall E' user',
         Rich.mainMenu user' E' s1
         = (Return tt, record (EvLog "No matches found.") s1).
Proof.
  intros Hf Hp Hempty.
  destruct (run_fetch_success E s upcoming true payload (or_intror Hf) Hp)
    as (s0 & Run & Fs & _ & Calls & _).
  exists (record (EvLog "No matches found.") s0).
  rewrite mainMenu_cycle. unfold Rich.cycle at 1. rewrite run_bind.
  unfold Rich.acquire. rewrite Run. cbn [Rich.no_matches Rich.data].
  rewrite Hempty. split; [apply run_console_log|].
  split; [exact Calls|]. split; [exact Fs|].
  intros E' user'.
  destruct (envelope_fields (clock E (ticks s)) payload) as (Lf & Dt & Nn).
  apply (empty_cache_run E' _ (Rich.envelope (clock E (ticks s)) payload)).
  - cbn [fs record]. rewrite Fs. apply lookup_insert_eq.
  - exact Nn.
  - rewrite Dt. cbn [Rich.no_matches Rich.data]. exact Hempty.
Qed.

Lemma empty_answer_is_cached_witness :
  exists s1,
    Rich.mainMenu (H := Sample.RT)
      [ {| action := "Fetch New Data"; typed := None; picked := None |} ]
      Sample.idle Sample.empty = (Return tt, s1)
    /\ calls s1 = 1%nat
    /\ fs s1 = <[snapshotFile upcoming :=
                   Doc (Rich.envelope (H := Sample.RT) Sample.T0 (JArr []))]> ∅
    /\ forall E' user',
         Rich.mainMenu (H := Sample.RT) user' E' s1
         = (Return tt, record (EvLog "No matches found.") s1).
Proof.
  apply (empty_answer_is_cached (H := Sample.RT) Sample.idle Sample.empty
           [ {| action := "Fetch New Data"; typed := None; picked := None |} ]
           (JArr [])).
  - reflexivity.
  - reflexivity.
  - reflexivity.
Defined.

(** ** The files of a session *)

Section FileFacts.
Context `{Runtime}.

Lemma keeps_store_offline (f : string) (s s' : State) :
  offline s s' -> keeps_store f s s'.
Proof. intros (Fs & _) p. left. now rewrite Fs. Qed.

Lemma keeps_store_trans (f : string) (s1 s2 s3 : State) :
  keeps_store f s1 s2 -> keeps_store f s2 s3 -> keeps_store f s1 s3.
Proof.
  intros K12 K23 p. destruct (K23 p) as [Same|Written]; [|now right].
  rewrite Same. apply K12.
Qed.

Lemma keeps_store_insert (f : string) (j : json) (s s' : State) :
  fs s' = <[f := Doc j]> (fs s) -> keeps_store f s s'.
Proof.
  intros Fs p. rewrite Fs. destruct (decide (p = f)) as [->|Ne].
  - right. split; [reflexivity|]. exists j. apply lookup_insert_eq.
  - left. now apply lookup_insert_ne.
Qed.

Lemma tidy_of_quiet {A} (f : string) (m : Async A) : quiet m -> tidy f m.
Proof. intros Q E s. apply keeps_store_offline, Q. Qed.

Lemma tidy_bind {A B} (f : string) (m : Async A) (k : A -> Async B) :
  tidy f m -> (forall a, tidy f (k a)) -> tidy f (m ≫= k).
Proof.
  intros Tm Tk E s. rewrite run_bind. specialize (Tm E s).
  destruct (m E s) as [[a|e|] s1]; cbn [snd] in *; try exact Tm.
  apply (keeps_store_trans f s s1); [exact Tm | apply Tk].
Qed.

(** A fetch changes no file but the snapshot of its endpoint. *)
Lemma tidy_fetchEsportsData (endpoint : string) (useSnapshot : bool) :
  tidy (snapshotFile endpoint) (Rich.fetchEsportsData endpoint useSnapshot).
Proof.
  intros E s.
  destruct (decide (attempts s endpoint useSnapshot)) as [Hc|Hc].
  - destruct (run_fetch_path E s endpoint useSnapshot Hc)
      as (o & s' & Run & _ & _ & Fetched).
    rewrite Run. cbn [snd]. unfold fetched in Fetched.
    destruct (next_reply E s endpoint) as [r|why];
      [destruct (ok r); [destruct (body r) as [payload|]|]|];
      destruct Fetched as (_ & Fs & _);
      first [ now apply (keeps_store_insert _ _ _ _ Fs)
            | intros p; left; now rewrite Fs ].
  - unfold attempts in Hc. destruct useSnapshot; [|tauto].
    destruct (fs s !! snapshotFile endpoint) as [file|] eqn:Hf; [|tauto].
    apply keeps_store_offline. unfold Rich.fetchEsportsData.
    rewrite run_bind. unfold exists_ at 1. rewrite Hf.
    rewrite bool_decide_eq_true_2 by eauto.
    apply (quiet_bind (Rich.readSnapshot _));
      [apply quiet_readSnapshot | auto with quiet].
Qed.

Lemma tidy_reduced_fetchEsportsData (endpoint : string) (useSnapshot : bool) :
  tidy (snapshotFile endpoint) (Reduced.fetchEsportsData endpoint useSnapshot).
Proof.
  intros E s.
  destruct (decide (attempts s endpoint useSnapshot)) as [Hc|Hc].
  - destruct (run_reduced_fetch_path E s endpoint useSnapshot Hc)
      as (o & s' & Run & _ & _ & Fetched).
    rewrite Run. cbn [snd]. unfold reduced_fetched in Fetched.
    destruct (next_reply E s endpoint) as [r|why];
      [destruct (ok r); [destruct (body r) as [payload|]|]|];
      destruct Fetched as (_ & Fs & _);
      first [ now apply (keeps_store_insert _ _ _ _ Fs)
            | intros p; left; now rewrite Fs ].
  - unfold attempts in Hc. destruct useSnapshot; [|tauto].
    destruct (fs s !! snapshotFile endpoint) as [file|] eqn:Hf; [|tauto].
    apply keeps_store_offline. unfold Reduced.fetchEsportsData.
    rewrite run_bind. unfold exists_ at 1. rewrite Hf.
    rewrite bool_decide_eq_true_2 by eauto.
    assert (Q : quiet (console_log ("Using snapshot: " +:+ snapshotFile endpoint);;
                       snapshot ← readTextFile (snapshotFile endpoint);
                       JSON_parse snapshot)) by quiet_steps.
    apply Q.
Qed.

Lemma tidy_fetchIfNeeded (endpoint : string) (d : Q) :
  tidy (snapshotFile endpoint) (Rich.fetchIfNeeded endpoint d).
Proof.
  unfold Rich.fetchIfNeeded.
  apply tidy_bind; [apply tidy_of_quiet; auto with quiet | intros present].
  apply tidy_bind.
  - apply tidy_of_quiet. apply quiet_if; [|auto with quiet].
    apply quiet_bind; [apply quiet_readSnapshot | intros snap].
    apply quiet_bind; [auto with quiet | intros now].
    destruct (Date_getTime _); [|auto with quiet].
    apply quiet_if; [quiet_steps | auto with quiet].
  - intros [snap|]; [apply tidy_of_quiet; auto with quiet|].
    apply tidy_fetchEsportsData.
Qed.

Lemma tidy_dispatch (turn : Turn) (act : string) (payload : json) :
  tidy (snapshotFile upcoming) (Rich.dispatch turn act payload).
Proof.
  destruct (String.eqb act "Fetch New Data") eqn:Hact.
  - unfold Rich.dispatch. rewrite Hact.
    apply tidy_bind; [apply tidy_of_quiet; auto with quiet | intros _].
    cbv zeta.
    apply tidy_bind; [apply tidy_fetchIfNeeded | intros newResponse].
    apply tidy_of_quiet. destruct newResponse; quiet_steps.
  - apply tidy_of_quiet, quiet_dispatch. now apply String.eqb_neq.
Qed.

Lemma tidy_cycle (turn : option Turn) (again : Async unit) :
  tidy (snapshotFile upcoming) again ->
  tidy (snapshotFile upcoming) (Rich.cycle turn again).
Proof.
  intros Tagain. unfold Rich.cycle.
  apply tidy_bind; [apply tidy_fetchEsportsData | intros response].
  destruct (Rich.no_matches response); [apply tidy_of_quiet; auto with quiet|].
  destruct response as [[lastFetched [payload|]]|];
    try solve [apply tidy_of_quiet; auto with quiet].
  apply tidy_bind; [apply tidy_of_quiet; auto with quiet | intros elapsedTime].
  apply tidy_bind; [apply tidy_of_quiet; auto with quiet | intros _].
  apply tidy_bind; [apply tidy_of_quiet; auto with quiet | intros act].
  destruct turn as [t|]; [|apply tidy_of_quiet; auto with quiet].
  apply tidy_bind; [apply tidy_dispatch | intros continue].
  destruct continue; [exact Tagain | apply tidy_of_quiet; auto with quiet].
Qed.

Lemma tidy_reduced_cycle (turn : option Turn) (again : Async unit) :
  tidy (snapshotFile upcoming) again ->
  tidy (snapshotFile upcoming) (Reduced.cycle turn again).
Proof.
  intros Tagain. unfold Reduced.cycle.
  apply tidy_bind; [apply tidy_reduced_fetchEsportsData | intros payload].
  destruct (Reduced.no_matches payload); [apply tidy_of_quiet; auto with quiet|].
  apply tidy_bind; [apply tidy_of_quiet; auto with quiet | intros act].
  destruct turn as [t|]; [|apply tidy_of_quiet; auto with quiet].
  apply tidy_bind;
    [apply tidy_of_quiet, quiet_reduced_dispatch | intros continue].
  destruct continue; [exact Tagain | apply tidy_of_quiet; auto with quiet].
Qed.

End FileFacts.

(** X21. A session touches one file. Whatever the store, the server and
    the user, after a session of either entry point every file other than
    the snapshot of the matches is as it was (absent files stay absent),
    and the snapshot of the matches is as it was or holds a JSON
    document. The same holds of [fetchIfNeeded] for any endpoint. *)
Theorem session_store_frame `{Runtime} (E : Env) (s : State) (user : list Turn)
    (endpoint : string) (d : Q) :
  keeps_store (snapshotFile upcoming) s (Rich.mainMenu user E s).2
  /\ keeps_store (snapshotFile upcoming) s (Reduced.mainMenu user E s).2
  /\ keeps_store (snapshotFile endpoint) s (Rich.fetchIfNeeded endpoint d E s).2.
Proof.
  split; [|split].
  - revert E s. induction user as [|turn rest IH]; cbn [Rich.mainMenu].
    + apply tidy_cycle, tidy_of_quiet. auto with quiet.
    + apply tidy_cycle. exact IH.
  - revert E s. induction user as [|turn rest IH]; cbn [Reduced.mainMenu].
    + apply tidy_reduced_cycle, tidy_of_quiet. auto with quiet.
    + apply tidy_reduced_cycle. exact IH.
  - apply tidy_fetchIfNeeded.
Qed.

(** ** The requests that a session sends *)

Section AddressFacts.
Context `{Runtime}.

Lemma requests_of_offline (E : Env) (endpoint : string) (s s' : State) :
  offline s s' -> requests_of E endpoint s s'.
Proof.
  intros (_ & Cs & Fe & _). exists 0%nat. rewrite Cs, Fe. cbn [replicate].
  rewrite app_nil_r. split; [lia | reflexivity].
Qed.

Lemma requests_of_trans (E : Env) (endpoint : string) (s1 s2 s3 : State) :
  requests_of E endpoint s1 s2 -> requests_of E endpoint s2 s3 ->
  requests_of E endpoint s1 s3.
Proof.
  intros (n & C12 & F12) (k & C23 & F23). exists (n + k)%nat.
  rewrite C23, C12, F23, F12, replicate_add, <- app_assoc.
  split; [lia | reflexivity].
Qed.

Lemma single_minded_of_quiet {A} (endpoint : string) (m : Async A) :
  quiet m -> single_minded endpoint m.
Proof. intros Q E s. apply requests_of_offline, Q. Qed.

Lemma single_minded_bind {A B} (endpoint : string) (m : Async A)
    (k : A -> Async B) :
  single_minded endpoint m -> (forall a, single_minded endpoint (k a)) ->
  single_minded endpoint (m ≫= k).
Proof.
  intros Tm Tk E s. rewrite run_bind. specialize (Tm E s).
  destruct (m E s) as [[a|e|] s1]; cbn [snd] in *; try exact Tm.
  apply (requests_of_trans E endpoint s s1); [exact Tm | apply Tk].
Qed.

Lemma single_minded_fetchEsportsData (endpoint : string) (useSnapshot : bool) :
  single_minded endpoint (Rich.fetchEsportsData endpoint useSnapshot).
Proof.
  intros E s.
  destruct (decide (attempts s endpoint useSnapshot)) as [Hc|Hc].
  - destruct (run_fetch_path E s endpoint useSnapshot Hc)
      as (o & s' & Run & Calls & Fe & _).
    rewrite Run. cbn [snd]. exists 1%nat. split; [lia | exact Fe].
  - unfold attempts in Hc. destruct useSnapshot; [|tauto].
    destruct (fs s !! snapshotFile endpoint) as [file|] eqn:Hf; [|tauto].
    apply requests_of_offline. unfold Rich.fetchEsportsData.
    rewrite run_bind. unfold exists_ at 1. rewrite Hf.
    rewrite bool_decide_eq_true_2 by eauto.
    apply (quiet_bind (Rich.readSnapshot _));
      [apply quiet_readSnapshot | auto with quiet].
Qed.

Lemma single_minded_reduced_fetchEsportsData (endpoint : string)
    (useSnapshot : bool) :
  single_minded endpoint (Reduced.fetchEsportsData endpoint useSnapshot).
Proof.
  intros E s.
  destruct (decide (attempts s endpoint useSnapshot)) as [Hc|Hc].
  - destruct (run_reduced_fetch_path E s endpoint useSnapshot Hc)
      as (o & s' & Run & Calls & Fe & _).
    rewrite Run. cbn [snd]. exists 1%nat. split; [lia | exact Fe].
  - unfold attempts in Hc. destruct useSnapshot; [|tauto].
    destruct (fs s !! snapshotFile endpoint) as [file|] eqn:Hf; [|tauto].
    apply requests_of_offline. unfold Reduced.fetchEsportsData.
    rewrite run_bind. unfold exists_ at 1. rewrite Hf.
    rewrite bool_decide_eq_true_2 by eauto.
    assert (Q : quiet (console_log ("Using snapshot: " +:+ snapshotFile endpoint);;
                       snapshot ← readTextFile (snapshotFile endpoint);
                       JSON_parse snapshot)) by quiet_steps.
    apply Q.
Qed.

Lemma single_minded_fetchIfNeeded (endpoint : string) (d : Q) :
  single_minded endpoint (Rich.fetchIfNeeded endpoint d).
Proof.
  unfold Rich.fetchIfNeeded.
  apply single_minded_bind;
    [apply single_minded_of_quiet; auto with quiet | intros present].
  apply single_minded_bind.
  - apply single_minded_of_quiet. apply quiet_if; [|auto with quiet].
    apply quiet_bind; [apply quiet_readSnapshot | intros snap].
    apply quiet_bind; [auto with quiet | intros now].
    destruct (Date_getTime _); [|auto with quiet].
    apply quiet_if; [quiet_steps | auto with quiet].
  - intros [snap|]; [apply single_minded_of_quiet; auto with quiet|].
    apply single_minded_fetchEsportsData.
Qed.

Lemma single_minded_dispatch (turn : Turn) (act : string) (payload : json) :
  single_minded upcoming (Rich.dispatch turn act payload).
Proof.
  destruct (String.eqb act "Fetch New Data") eqn:Hact.
  - unfold Rich.dispatch. rewrite Hact.
    apply single_minded_bind;
      [apply single_minded_of_quiet; auto with quiet | intros _].
    cbv zeta.
    apply single_minded_bind;
      [apply single_minded_fetchIfNeeded | intros newResponse].
    apply single_minded_of_quiet. destruct newResponse; quiet_steps.
  - apply single_minded_of_quiet, quiet_dispatch. now apply String.eqb_neq.
Qed.

Lemma single_minded_cycle (turn : option Turn) (again : Async unit) :
  single_minded upcoming again ->
  single_minded upcoming (Rich.cycle turn again).
Proof.
  intros Tagain. unfold Rich.cycle.
  apply single_minded_bind;
    [apply single_minded_fetchEsportsData | intros response].
  destruct (Rich.no_matches response);
    [apply single_minded_of_quiet; auto with quiet|].
  destruct response as [[lastFetched [payload|]]|];
    try solve [apply single_minded_of_quiet; auto with quiet].
  apply single_minded_bind;
    [apply single_minded_of_quiet; auto with quiet | intros elapsedTime].
  apply single_minded_bind;
    [apply single_minded_of_quiet; auto with quiet | intros _].
  apply single_minded_bind;
    [apply single_minded_of_quiet; auto with quiet | intros act].
  destruct turn as [t|]; [|apply single_minded_of_quiet; auto with quiet].
  apply single_minded_bind; [apply single_minded_dispatch | intros continue].
  destruct continue;
    [exact Tagain | apply single_minded_of_quiet; auto with quiet].
Qed.

Lemma single_minded_reduced_cycle (turn : option Turn) (again : Async unit) :
  single_minded upcoming again ->
  single_minded upcoming (Reduced.cycle turn again).
Proof.
  intros Tagain. unfold Reduced.cycle.
  apply single_minded_bind;
    [apply single_minded_reduced_fetchEsportsData | intros payload].
  destruct (Reduced.no_matches payload);
    [apply single_minded_of_quiet; auto with quiet|].
  apply single_minded_bind;
    [apply single_minded_of_quiet; auto with quiet | intros act].
  destruct turn as [t|]; [|apply single_minded_of_quiet; auto with quiet].
  apply single_minded_bind;
    [apply single_minded_of_quiet, quiet_reduced_dispatch | intros continue].
  destruct continue;
    [exact Tagain | apply single_minded_of_quiet; auto with quiet].
Qed.

End AddressFacts.

(** X22. A session asks the server for one thing. Every request that a
    session of either entry point sends, at the start of a cycle or for
    "Fetch New Data", goes to the address of the upcoming matches under the
    base address, with the credential of the environment as its bearer
    token; the requests appear in the trace in the number that the session
    has counted. *)
Theorem session_requests_upcoming `{Runtime} (E : Env) (s : State)
    (user : list Turn) :
  requests_of E upcoming s (Rich.mainMenu user E s).2
  /\ requests_of E upcoming s (Reduced.mainMenu user E s).2.
Proof.
  split.
  - revert E s. induction user as [|turn rest IH]; cbn [Rich.mainMenu].
    + apply single_minded_cycle, single_minded_of_quiet. auto with quiet.
    + apply single_minded_cycle. exact IH.
  - revert E s. induction user as [|turn rest IH]; cbn [Reduced.mainMenu].
    + apply single_minded_reduced_cycle, single_minded_of_quiet.
      auto with quiet.
    + apply single_minded_reduced_cycle. exact IH.
Qed.

(** ** What "Fetch New Data" reports *)

(** X23. "Fetch New Data" within the cooldown reports new data although
    none was fetched: [fetchIfNeeded] returns the stored snapshot, which is
    not null, so that after "Data is recent" the entry prints "New data
    fetched and snapshot updated."; no request is made and the store is
    untouched. *)
Theorem refresh_within_cooldown `{Runtime} (E : Env) (s : State) (turn : Turn)
    (payload j : json) (last : Z) :
  fs s !! snapshotFile upcoming = Some (Doc j) ->
  j <> JNull ->
  Date_getTime (prop "lastFetched" j) = Some last ->
  (Rich.elapsedMinutes (clock E (ticks s)) last < 10)%Q ->
  exists s',
    Rich.dispatch turn "Fetch New Data" payload E s = (Return true, s')
    /\ offline s s'
    /\ trace s'
       = (trace s ++
          [ EvLog "Checking if data fetch is needed...";
            EvLog ("Data is recent (" +:+
                   pretty (Qfloor (Rich.elapsedMinutes (clock E (ticks s)) last))
                   +:+ " minutes ago).");
            EvLog "New data fetched and snapshot updated." ])%list.
Proof.
  intros Hf Hj Ht He%Qltb_lt. unfold Rich.dispatch.
  change (String.eqb "Fetch New Data" "Fetch New Data") with true. cbv iota zeta.
  rewrite run_bind, run_console_log, run_bind.
  unfold Rich.fetchIfNeeded.
  rewrite run_bind. unfold exists_ at 1. cbn [fs record]. rewrite Hf.
  rewrite bool_decide_eq_true_2 by eauto.
  rewrite 2!run_bind, (run_readSnapshot _ _ _ j) by assumption.
  rewrite run_bind. unfold new_Date at 1. cbn [Rich.lastFetched ticks record].
  rewrite Ht, He.
  eexists. split; [run_prims; reflexivity|]. split.
  - repeat split; cbn; rewrite <- ?app_assoc, ?fetches_app, ?writes_app; cbn;
      now rewrite ?app_nil_r.
  - cbn. now rewrite <- !app_assoc.
Qed.

Lemma refresh_within_cooldown_witness :
  exists s',
    Rich.dispatch (H := Sample.RT)
      {| action := "Fetch New Data"; typed := None; picked := None |}
      "Fetch New Data" Sample.payload Sample.online
      (Sample.cached (Sample.T0 - 300000))
    = (Return true, s')
    /\ offline (Sample.cached (Sample.T0 - 300000)) s'
    /\ trace s'
       = [ EvLog "Checking if data fetch is needed...";
           EvLog "Data is recent (5 minutes ago).";
           EvLog "New data fetched and snapshot updated." ].
Proof.
  apply (refresh_within_cooldown (H := Sample.RT) Sample.online
           (Sample.cached (Sample.T0 - 300000))
           {| action := "Fetch New Data"; typed := None; picked := None |}
           Sample.payload
           (Rich.envelope (H := Sample.RT) (Sample.T0 - 300000) Sample.payload)
           (Sample.T0 - 300000)).
  - reflexivity.
  - discriminate.
  - vm_compute. reflexivity.
  - vm_compute. reflexivity.
Defined.

Section RefreshFacts.
Context `{Runtime}.

(** The entry "Fetch New Data", by what [fetchIfNeeded] hands back. *)
Lemma dispatch_refresh (turn : Turn) (payload : json) (E : Env) (s : State) :
  Rich.dispatch turn "Fetch New Data" payload E s
  = match Rich.fetchIfNeeded upcoming 10 E
            (record (EvLog "Checking if data fetch is needed...") s) with
    | (Return (Some _), s1) =>
        (Return true, record (EvLog "New data fetched and snapshot updated.") s1)
    | (Return None, s1) =>
        (Return true, record (EvLog "Cooldown active. Data fetch skipped.") s1)
    | (Throw e, s1) => (Throw e, s1)
    | (Pending, s1) => (Pending, s1)
    end.
Proof.
  unfold Rich.dispatch.
  change (String.eqb "Fetch New Data" "Fetch New Data") with true. cbv iota zeta.
  rewrite run_bind, run_console_log, run_bind.
  destruct (Rich.fetchIfNeeded upcoming 10 E _) as [[[snap|]|e|] s1]; reflexivity.
Qed.

(** The ways in which a fetch that goes to the network ends: it returns
    null exactly when the server refused, and when it rejects the request
    is the last thing that happened. *)
Lemma fetch_outcomes (E : Env) (s : State) (endpoint : string) :
  exists o s1,
    Rich.fetchEsportsData endpoint false E s = (o, s1)
    /\ calls s1 = S (calls s)
    /\ (o = Return None <-> refused (next_reply E s endpoint) = true)
    /\ (o = Return None -> fs s1 = fs s)
    /\ (forall e, o = Throw e ->
        exists pre ev, trace s1 = (pre ++ [ev])%list /\ is_fetch ev = true)
    /\ o <> Pending.
Proof.
  unfold Rich.fetchEsportsData. rewrite run_bind, run_ret. cbv iota zeta.
  unfold next_reply, refused. run_prims.
  destruct (network E (calls s) (BASE_URL +:+ endpoint)) as [r | why].
  - cbn -[snapshotFile ok]. destruct (ok r).
    + cbn -[snapshotFile]. destruct (body r) as [payload|].
      * eexists _, _. split; [reflexivity|]. cbn -[snapshotFile].
        repeat split; try discriminate.
      * eexists _, _. split; [reflexivity|]. cbn -[snapshotFile].
        repeat split; try discriminate.
        intros e _. now eexists _, _.
    + eexists _, _. split; [reflexivity|]. cbn -[snapshotFile].
      repeat split; discriminate.
  - eexists _, _. split; [reflexivity|]. cbn -[snapshotFile].
    repeat split; try discriminate.
    intros e _. now eexists _, _.
Qed.

(** The same for [fetchIfNeeded], which may also end before any request,
    by the cached snapshot or by a snapshot file it cannot read. *)
Lemma fetchIfNeeded_outcomes (E : Env) (s : State) (endpoint : string) (d : Q) :
  exists o s1,
    Rich.fetchIfNeeded endpoint d E s = (o, s1)
    /\ (o = Return None <->
        calls s1 = S (calls s) /\ refused (next_reply E s endpoint) = true)
    /\ (o = Return None -> fs s1 = fs s)
    /\ (forall e, o = Throw e ->
        trace s1 = trace s
        \/ exists pre ev, trace s1 = (pre ++ [ev])%list /\ is_fetch ev = true)
    /\ o <> Pending.
Proof.
  assert (Fetch : forall s0 : State,
            fs s0 = fs s -> calls s0 = calls s -> trace s0 = trace s ->
            exists o s1,
              Rich.fetchEsportsData endpoint false E s0 = (o, s1)
              /\ (o = Return None <->
                  calls s1 = S (calls s) /\ refused (next_reply E s endpoint) = true)
              /\ (o = Return None -> fs s1 = fs s)
              /\ (forall e, o = Throw e ->
                  trace s1 = trace s
                  \/ exists pre ev, trace s1 = (pre ++ [ev])%list /\ is_fetch ev = true)
              /\ o <> Pending).
  { intros s0 Fs0 Cs0 Ts0.
    destruct (fetch_outcomes E s0 endpoint) as (o & s1 & Run & Calls & Iff & Fs & Th & Np).
    exists o, s1. unfold next_reply in *. rewrite Cs0 in *.
    split; [exact Run|]. split; [|split; [|split]].
    - rewrite Iff. tauto.
    - intros Ho. now rewrite (Fs Ho).
    - intros e He. right. now apply (Th e).
    - exact Np. }
  unfold Rich.fetchIfNeeded. rewrite run_bind. unfold exists_ at 1.
  destruct (fs s !! snapshotFile endpoint) as [[j|text]|] eqn:Hf.
  - rewrite bool_decide_eq_true_2 by eauto. rewrite 2!run_bind.
    assert (j = JNull \/ j <> JNull) as [->|Hj]
      by (destruct j; [now left | right; discriminate ..]).
    + unfold Rich.readSnapshot. rewrite run_bind. unfold readTextFile at 1.
      rewrite Hf. eexists _, _. split; [reflexivity|].
      split; [split; [discriminate | intros [C _]; cbn in C; lia]|].
      split; [discriminate|]. split; [now left | discriminate].
    + rewrite (run_readSnapshot _ _ _ j) by assumption.
      rewrite run_bind. unfold new_Date at 1. cbn [Rich.lastFetched].
      destruct (Date_getTime (prop "lastFetched" j)) as [last|].
      * destruct (Qltb _ _).
        -- eexists _, _. split; [run_prims; reflexivity|].
           split; [split; [discriminate | intros [C _]; cbn in C; lia]|].
           split; [discriminate|]. split; discriminate.
        -- rewrite run_ret. now apply Fetch.
      * rewrite run_ret. now apply Fetch.
  - rewrite bool_decide_eq_true_2 by eauto. rewrite 2!run_bind.
    unfold Rich.readSnapshot. rewrite run_bind. unfold readTextFile at 1.
    rewrite Hf. eexists _, _. split; [reflexivity|].
    split; [split; [discriminate | intros [C _]; cbn in C; lia]|].
    split; [discriminate|]. split; [now left | discriminate].
  - rewrite bool_decide_eq_false_2 by (intros [? ?]; discriminate).
    rewrite run_bind, run_ret. now apply Fetch.
Qed.

End RefreshFacts.

(** X24. "Cooldown active. Data fetch skipped." means the opposite of what
    it says. For every store, clock and server, "Fetch New Data" ends on
    that line exactly when it has made a request and the server refused
    it with a response outside 200-299; a cooldown, a successful fetch, a
    transport failure or a snapshot that cannot be read never ends on it.
    When it is printed the store is as it was and the session goes on. *)
Theorem cooldown_message_iff_refused `{Runtime} (E : Env) (s : State)
    (turn : Turn) (payload : json) :
  (last (trace (Rich.dispatch turn "Fetch New Data" payload E s).2)
   = Some (EvLog "Cooldown active. Data fetch skipped.")
   <-> calls (Rich.dispatch turn "Fetch New Data" payload E s).2 = S (calls s)
       /\ refused (next_reply E s upcoming) = true)
  /\ (last (trace (Rich.dispatch turn "Fetch New Data" payload E s).2)
      = Some (EvLog "Cooldown active. Data fetch skipped.") ->
      (Rich.dispatch turn "Fetch New Data" payload E s).1 = Return true
      /\ fs (Rich.dispatch turn "Fetch New Data" payload E s).2 = fs s).
Proof.
  rewrite dispatch_refresh.
  destruct (fetchIfNeeded_outcomes E
              (record (EvLog "Checking if data fetch is needed...") s) upcoming 10)
    as (o & s1 & Run & Iff & Fs & Th & Np).
  rewrite Run. unfold next_reply in *. cbn [calls record fs] in *.
  destruct o as [[snap|]|e|]; cbn [fst snd trace record calls fs].
  - rewrite last_snoc. split; [split; [discriminate|]|discriminate].
    intros R. apply Iff in R. discriminate.
  - rewrite last_snoc. split; [split; [intros _; now apply Iff | reflexivity]|].
    intros _. split; [reflexivity | now apply Fs].
  - assert (Ne : last (trace s1) <> Some (EvLog "Cooldown active. Data fetch skipped.")).
    { destruct (Th e eq_refl) as [-> | (pre & ev & -> & Hev)];
        cbn [trace record]; rewrite last_snoc; [discriminate|].
      intros [= ->]. discriminate. }
    split; [split; [intros L; now destruct Ne|]|intros L; now destruct Ne].
    intros R. apply Iff in R. discriminate.
  - now destruct Np.
Qed.

Lemma cooldown_message_iff_refused_witness :
  last (trace (Rich.dispatch (H := Sample.RT)
                 {| action := "Fetch New Data"; typed := None; picked := None |}
                 "Fetch New Data" Sample.payload Sample.refusing
                 (Sample.cached (Sample.T0 - Sample.one_day))).2)
  = Some (EvLog "Cooldown active. Data fetch skipped.").
Proof.
  apply (proj1 (cooldown_message_iff_refused (H := Sample.RT) Sample.refusing
                  (Sample.cached (Sample.T0 - Sample.one_day))
                  {| action := "Fetch New Data"; typed := None; picked := None |}
                  Sample.payload)).
  split; [vm_compute; reflexivity | reflexivity].
Defined.
